(** * Sentiment-sage: the text normalizer and the dataset assembler

    A shallow embedding of [mca_ai/preprocess.py] and [mca_ai/data_loader.py].

    Python [str] values that hold record text are sequences of Unicode code
    points ([list N]); identifiers, paths, split names and messages are ASCII
    and are kept as [string].  Code that can raise returns a [result]; code that
    prints, touches the file system, the dataset hub or the process-wide random
    generator runs in the state-and-exception monad [M] over a [World].  What
    the program takes from libraries and from its surroundings (the named
    entity table of [html], the interpreter's integer-conversion limit, the
    hub, the file system, the generators) is gathered in the record [Env].
    A Python [float] is a binary64 value of the Standard Library's
    specification of floating-point arithmetic ([SpecFloat]). *)

From Stdlib Require Import Ascii String DecimalString.
From Stdlib Require Import List Bool Arith NArith ZArith PArith Lia.
From Stdlib Require Import Permutation SpecFloat.
Import ListNotations.

(* ===================================================================== *)
(** ** Python values, exceptions, results *)
(* ===================================================================== *)

Module Py.

Definition char := N.
Definition str := list char.

(** An ASCII literal as a Python [str]. *)
Definition u (s : string) : str := map N_of_ascii (list_ascii_of_string s).

#[warning="-register-all"]
Inductive value : Type :=
| VNone
| VBool (b : bool)
| VInt (z : Z)
| VStr (s : str)
| VList (l : list value).

(** [isinstance(v, str)] *)
Definition is_str (v : value) : bool :=
  match v with VStr _ => true | _ => false end.

(** The exception classes the two modules meet.  [KeyboardInterrupt] stands
    for the classes that derive from [BaseException] only: an
    [except Exception] clause lets them through, a bare [except:] does not. *)
Inductive exn_class : Type :=
| ValueError
| RuntimeError
| NonMatchingSplitsSizesError
| OtherException
| KeyboardInterrupt.

Record exn : Type := Exn { exn_cls : exn_class; exn_msg : string }.

Definition is_Exception (e : exn) : bool :=
  match exn_cls e with KeyboardInterrupt => false | _ => true end.

Definition is_NonMatchingSplitsSizesError (e : exn) : bool :=
  match exn_cls e with NonMatchingSplitsSizesError => true | _ => false end.

Inductive result (A : Type) : Type :=
| Ok (a : A)
| Raise (e : exn).
Arguments Ok {A} a.
Arguments Raise {A} e.

Definition rbind {A B} (r : result A) (k : A -> result B) : result B :=
  match r with Ok a => k a | Raise e => Raise e end.

Definition rmap {A B} (f : A -> B) (r : result A) : result B :=
  match r with Ok a => Ok (f a) | Raise e => Raise e end.

Definition returns {A} (r : result A) : bool :=
  match r with Ok _ => true | Raise _ => false end.

(** [str(n)] for a natural number. *)
Definition dec (n : nat) : string := NilZero.string_of_uint (Nat.to_uint n).

(** Named code points. *)
Abbreviation ch_tab := 9%N (only parsing).
Abbreviation ch_nl := 10%N (only parsing).
Abbreviation ch_ff := 12%N (only parsing).
Abbreviation ch_sp := 32%N (only parsing).
Abbreviation ch_bang := 33%N (only parsing).
Abbreviation ch_hash := 35%N (only parsing).
Abbreviation ch_amp := 38%N (only parsing).
Abbreviation ch_apos := 39%N (only parsing).
Abbreviation ch_comma := 44%N (only parsing).
Abbreviation ch_minus := 45%N (only parsing).
Abbreviation ch_dot := 46%N (only parsing).
Abbreviation ch_semi := 59%N (only parsing).
Abbreviation ch_lt := 60%N (only parsing).
Abbreviation ch_gt := 62%N (only parsing).
Abbreviation ch_quest := 63%N (only parsing).
Abbreviation ch_X := 88%N (only parsing).
Abbreviation ch_h := 104%N (only parsing).
Abbreviation ch_p := 112%N (only parsing).
Abbreviation ch_t := 116%N (only parsing).
Abbreviation ch_w := 119%N (only parsing).
Abbreviation ch_x := 120%N (only parsing).

Local Open Scope N_scope.

Definition in_range (lo hi c : N) : bool := (lo <=? c) && (c <=? hi).

(** Unicode white space: what [\s] matches in a [str] pattern and what
    [str.strip()] removes. *)
Definition is_space (c : char) : bool :=
  in_range 9 13 c || in_range 28 32 c || (c =? 0x85) || (c =? 0xA0)
  || (c =? 0x1680) || in_range 0x2000 0x200A c || (c =? 0x2028)
  || (c =? 0x2029) || (c =? 0x202F) || (c =? 0x205F) || (c =? 0x3000).

Definition is_digit (c : char) : bool := in_range 48 57 c.
Definition is_upper (c : char) : bool := in_range 65 90 c.
Definition is_lower (c : char) : bool := in_range 97 122 c.
Definition is_ascii (c : char) : bool := c <? 128.

(** [str.lower()] on one ASCII character. *)
Definition ascii_lower (c : char) : char := if is_upper c then c + 32 else c.

Fixpoint lstrip (s : str) : str :=
  match s with
  | [] => []
  | c :: r => if is_space c then lstrip r else s
  end.

Fixpoint rstrip (s : str) : str :=
  match s with
  | [] => []
  | c :: r =>
      match rstrip r with
      | [] => if is_space c then [] else [c]
      | r' => c :: r'
      end
  end.

(** [s.strip()] *)
Definition strip (s : str) : str := rstrip (lstrip s).

(** [c in s] *)
Definition mem (c : char) (s : str) : bool := existsb (N.eqb c) s.

Fixpoint str_eqb (a b : str) : bool :=
  match a, b with
  | [], [] => true
  | x :: a', y :: b' => (x =? y) && str_eqb a' b'
  | _, _ => false
  end.

End Py.
Import Py.

(* ===================================================================== *)
(** ** Python numbers *)
(* ===================================================================== *)

(** An [int] or a [float]; a float is an IEEE 754 binary64 value. *)
Inductive number : Type :=
| NInt (z : Z)
| NFloat (x : spec_float).

Module Float.

Local Open Scope Z_scope.

(** The literals [0.2] and [0.8], as the interpreter reads them:
    [0x1.999999999999ap-3] and [0x1.999999999999ap-1]. *)
Definition f0_2 : spec_float := S754_finite false 7205759403792794 (-55).
Definition f0_8 : spec_float := S754_finite false 7205759403792794 (-53).

(** [x * y], [x + y] and [x - y]: the exact result, rounded to the nearest
    float, ties to even. *)
Definition mul (x y : spec_float) : spec_float := SFmul 53 1024 x y.
Definition add (x y : spec_float) : spec_float := SFadd 53 1024 x y.
Definition sub (x y : spec_float) : spec_float := SFsub 53 1024 x y.

(** [float(z)] for an [int], also where an [int] meets a [float] in an
    arithmetic operation: the nearest float, ties to even, and
    [OverflowError] beyond the largest float. *)
Definition of_int (z : Z) : result spec_float :=
  match binary_normalize 53 1024 z 0 false with
  | S754_infinity _ =>
      Raise (Exn OtherException "int too large to convert to float")
  | x => Ok x
  end.

(** The mantissa of a finite float, with its sign. *)
Definition signed (s : bool) (m : positive) : Z :=
  if s then Zneg m else Zpos m.

(** [m * 2^e] rounded up to an integer. *)
Definition ceil_of (m e : Z) : Z :=
  if 0 <=? e then m * 2 ^ e else - ((- m) / 2 ^ (- e)).

(** [m * 2^e] rounded towards zero. *)
Definition trunc_of (m e : Z) : Z :=
  if 0 <=? e then m * 2 ^ e else Z.quot m (2 ^ (- e)).

Definition not_finite {A} (x : spec_float) : result A :=
  match x with
  | S754_nan => Raise (Exn ValueError "cannot convert float NaN to integer")
  | _ => Raise (Exn OtherException "cannot convert float infinity to integer")
  end.

(** [math.ceil(x)] *)
Definition ceil (x : spec_float) : result Z :=
  match x with
  | S754_zero _ => Ok 0
  | S754_finite s m e => Ok (ceil_of (signed s m) e)
  | _ => not_finite x
  end.

(** [int(x)] *)
Definition to_int (x : spec_float) : result Z :=
  match x with
  | S754_zero _ => Ok 0
  | S754_finite s m e => Ok (trunc_of (signed s m) e)
  | _ => not_finite x
  end.

(** A float against an [int], by value as Python compares them; [None] for
    NaN, which makes every comparison false. *)
Definition compare_int (x : spec_float) (z : Z) : option comparison :=
  match x with
  | S754_nan => None
  | S754_infinity s => Some (if s then Lt else Gt)
  | S754_zero _ => Some (0 ?= z)
  | S754_finite s m e =>
      Some (if 0 <=? e then signed s m * 2 ^ e ?= z
            else signed s m ?= z * 2 ^ (- e))
  end.

(** [x <= z], [x >= z], [x > z] *)
Definition le_int (x : spec_float) (z : Z) : bool :=
  match compare_int x z with Some Lt | Some Eq => true | _ => false end.

Definition ge_int (x : spec_float) (z : Z) : bool :=
  match compare_int x z with Some Gt | Some Eq => true | _ => false end.

Definition gt_int (x : spec_float) (z : Z) : bool :=
  match compare_int x z with Some Gt => true | _ => false end.

End Float.

(* ===================================================================== *)
(** ** What the program takes from outside *)
(* ===================================================================== *)

(** A request to [datasets.load_dataset]. *)
Record LoadReq : Type := mkReq {
  req_path : string;                            (* dataset name or builder *)
  req_data_files : option (string * string);    (* data_files={split: path} *)
  req_split : option string;                    (* split=... *)
  req_force_redownload : bool;                  (* download_mode="force_redownload" *)
  req_ignore_verifications : bool               (* ignore_verifications=True *)
}.

(** A row of a [Dataset] is a dict from column names to values; a [Dataset] is
    the ordered sequence of its rows; a [DatasetDict] maps split names to
    datasets, in insertion order. *)
Definition Row := list (string * value).
Definition Dataset := list Row.
Definition DatasetDict := list (string * Dataset).

Record Env : Type := mkEnv {
  (* html.entities.html5 *)
  html5 : str -> option str;
  (* sys.get_int_max_str_digits(): 0 switches the limit off, 4300 by default *)
  int_max_str_digits : nat;
  (* str.lower() on a string that holds a non-ASCII character *)
  unicode_lower : str -> str;
  (* the file system with the hub cache, and the random module's generator *)
  FS : Type;
  RNG : Type;
  (* datasets.load_dataset without split= (a DatasetDict) and with it (a Dataset) *)
  hub_load : LoadReq -> FS -> result DatasetDict * FS;
  hub_load_split : LoadReq -> FS -> result Dataset * FS;
  (* os.path.expanduser, os.path.exists, shutil.rmtree *)
  expanduser : string -> string;
  path_exists : string -> FS -> bool;
  rmtree : string -> FS -> result unit * FS;
  (* random.Random._randbelow(n) on the shared generator *)
  randbelow : nat -> RNG -> nat * RNG;
  (* numpy.random.default_rng(seed).permutation(n) *)
  permutation : Z -> nat -> list nat;
  (* repr(x) of a float, as an f-string shows it *)
  float_repr : spec_float -> string
}.

(* ===================================================================== *)
(** ** The regular-expression substitutions of preprocess.py *)
(* ===================================================================== *)

Module Re.

Local Open Scope N_scope.

(** [pattern.sub(" ", s)] for a pattern that never matches the empty string:
    the scan goes left to right; where [match_len] finds a match of [S k]
    characters at the current position it writes one space and skips the
    match, otherwise it copies the character.  [skip] counts the characters of
    the current match that are still to be passed over. *)
Section Sub.
Variable match_len : str -> option nat.

Fixpoint sub_from (skip : nat) (s : str) : str :=
  match s with
  | [] => []
  | c :: r =>
      match skip with
      | S k => sub_from k r
      | O =>
          match match_len s with
          | Some (S k) => ch_sp :: sub_from k r
          | _ => c :: sub_from O r
          end
      end
  end.

Definition sub_space (s : str) : str := sub_from O s.

(** Does the pattern match somewhere in [s]? *)
Fixpoint search (s : str) : bool :=
  match s with
  | [] => false
  | _ :: r =>
      match match_len s with
      | Some (S _) => true
      | _ => search r
      end
  end.
End Sub.

(** Position of the first [>] in [s]. *)
Fixpoint index_gt (s : str) : option nat :=
  match s with
  | [] => None
  | c :: r => if c =? ch_gt then Some O else option_map S (index_gt r)
  end.

(** [_HTML_TAG = re.compile(r"<[^>]+>")]: a [<], at least one character that
    is not [>], then the first [>] that follows. *)
Definition tag_len (s : str) : option nat :=
  match s with
  | c :: c1 :: r =>
      if (c =? ch_lt) && negb (c1 =? ch_gt)
      then option_map (fun i => 3 + i)%nat (index_gt r)
      else None
  | _ => None
  end.

(** Length of the longest prefix of non-space characters: [\S*]. *)
Fixpoint nonspace_run (s : str) : nat :=
  match s with
  | [] => O
  | c :: r => if is_space c then O else S (nonspace_run r)
  end.

(** [_URL = re.compile(r"http\S+|www\.\S+")]: the four literal characters, in
    lower case as written, then at least one non-space character. *)
Definition url_len (s : str) : option nat :=
  match s with
  | a :: b :: c :: d :: e :: r =>
      if (((a =? ch_h) && (b =? ch_t) && (c =? ch_t) && (d =? ch_p))
          || ((a =? ch_w) && (b =? ch_w) && (c =? ch_w) && (d =? ch_dot)))
         && negb (is_space e)
      then Some (5 + nonspace_run r)%nat
      else None
  | _ => None
  end.

(** The class [[a-zA-Z0-9\s.,!?'-]] of [_NON_ASCII]. *)
Definition kept (c : char) : bool :=
  is_lower c || is_upper c || is_digit c || is_space c
  || (c =? ch_dot) || (c =? ch_comma) || (c =? ch_bang) || (c =? ch_quest)
  || (c =? ch_apos) || (c =? ch_minus).

(** [_NON_ASCII = re.compile(r"[^a-zA-Z0-9\s.,!?'-]")] *)
Definition non_ascii_len (s : str) : option nat :=
  match s with
  | c :: _ => if kept c then None else Some 1%nat
  | [] => None
  end.

(** Length of the longest prefix of space characters: [\s*]. *)
Fixpoint space_run (s : str) : nat :=
  match s with
  | [] => O
  | c :: r => if is_space c then S (space_run r) else O
  end.

(** [_MULTI_SPACE = re.compile(r"\s+")] *)
Definition multi_space_len (s : str) : option nat :=
  match space_run s with
  | O => None
  | n => Some n
  end.

Definition HTML_TAG_sub : str -> str := sub_space tag_len.
Definition URL_sub : str -> str := sub_space url_len.
Definition NON_ASCII_sub : str -> str := sub_space non_ascii_len.
Definition MULTI_SPACE_sub : str -> str := sub_space multi_space_len.

End Re.

(* ===================================================================== *)
(** ** html.unescape (the standard library's html/__init__.py) *)
(* ===================================================================== *)

Module Html.

Local Open Scope N_scope.

(** [_invalid_charrefs] *)
Definition invalid_charrefs (num : N) : option str :=
  match num with
  | 0x00 => Some [0xFFFD] | 0x0D => Some [0x0D]
  | 0x80 => Some [0x20AC] | 0x81 => Some [0x81] | 0x82 => Some [0x201A]
  | 0x83 => Some [0x0192] | 0x84 => Some [0x201E] | 0x85 => Some [0x2026]
  | 0x86 => Some [0x2020] | 0x87 => Some [0x2021] | 0x88 => Some [0x02C6]
  | 0x89 => Some [0x2030] | 0x8A => Some [0x0160] | 0x8B => Some [0x2039]
  | 0x8C => Some [0x0152] | 0x8D => Some [0x8D] | 0x8E => Some [0x017D]
  | 0x8F => Some [0x8F] | 0x90 => Some [0x90] | 0x91 => Some [0x2018]
  | 0x92 => Some [0x2019] | 0x93 => Some [0x201C] | 0x94 => Some [0x201D]
  | 0x95 => Some [0x2022] | 0x96 => Some [0x2013] | 0x97 => Some [0x2014]
  | 0x98 => Some [0x02DC] | 0x99 => Some [0x2122] | 0x9A => Some [0x0161]
  | 0x9B => Some [0x203A] | 0x9C => Some [0x0153] | 0x9D => Some [0x9D]
  | 0x9E => Some [0x017E] | 0x9F => Some [0x0178]
  | _ => None
  end.

(** [_invalid_codepoints] *)
Definition invalid_codepoints (num : N) : bool :=
  in_range 0x1 0x8 num || in_range 0xE 0x1F num || in_range 0x7F 0x9F num
  || in_range 0xFDD0 0xFDEF num || (num =? 0xB)
  || (((N.land num 0xFFFF =? 0xFFFE) || (N.land num 0xFFFF =? 0xFFFF))
      && (num <=? 0x10FFFF)).

Definition is_hexdigit (c : char) : bool :=
  is_digit c || in_range 65 70 c || in_range 97 102 c.

(** The class [[^\t\n\f <&#;]] of a named reference. *)
Definition is_name_char (c : char) : bool :=
  negb ((c =? ch_tab) || (c =? ch_nl) || (c =? ch_ff) || (c =? ch_sp)
        || (c =? ch_lt) || (c =? ch_amp) || (c =? ch_hash) || (c =? ch_semi)).

(** The longest prefix of at most [n] characters that satisfy [p], and the
    rest. *)
Fixpoint span_upto (n : nat) (p : char -> bool) (s : str) : str * str :=
  match n, s with
  | S k, c :: r =>
      if p c then let (a, b) := span_upto k p r in (c :: a, b) else ([], s)
  | _, _ => ([], s)
  end.

Definition span (p : char -> bool) (s : str) : str * str :=
  span_upto (length s) p s.

(** What group 1 of [_charref] captured. *)
Inductive charref : Type :=
| RefDec (digits : str)          (* #[0-9]+;?          without the # and ; *)
| RefHex (digits : str)          (* #[xX][0-9a-fA-F]+;? without #, x and ; *)
| RefName (s : str).             (* [^\t\n\f <&#;]{1,32};?  as captured   *)

Definition semi_len (s : str) : nat :=
  match s with c :: _ => if c =? ch_semi then 1%nat else O | [] => O end.

(** [_charref] tried just after an [&]: the reference and the number of
    characters of the match after the [&]. *)
Definition match_charref (s : str) : option (charref * nat) :=
  match s with
  | c :: r =>
      if c =? ch_hash then
        let (ds, r1) := span is_digit r in
        match ds with
        | _ :: _ => Some (RefDec ds, (1 + length ds + semi_len r1)%nat)
        | [] =>
            match r with
            | x :: r2 =>
                if (x =? ch_x) || (x =? ch_X) then
                  let (hs, r3) := span is_hexdigit r2 in
                  match hs with
                  | _ :: _ => Some (RefHex hs, (2 + length hs + semi_len r3)%nat)
                  | [] => None
                  end
                else None
            | [] => None
            end
        end
      else
        let (nm, r1) := span_upto 32 is_name_char s in
        match nm with
        | _ :: _ =>
            let k := semi_len r1 in
            Some (RefName (nm ++ firstn k r1), (length nm + k)%nat)
        | [] => None
        end
  | [] => None
  end.

Definition digit_val (c : char) : N :=
  if is_digit c then c - 48
  else if in_range 65 70 c then c - 55
  else c - 87.

Definition int_of_digits (base : N) (ds : str) : N :=
  fold_left (fun acc c => acc * base + digit_val c) ds 0.

Section WithEnv.
Variable E : Env.

(** [int(s)] on decimal digits: the interpreter refuses a string with more
    digits than its conversion limit, unless the limit is 0. *)
Definition int_dec (ds : str) : result N :=
  let n := length ds in
  let lim := int_max_str_digits E in
  if (0 <? lim)%nat && (lim <? n)%nat then
    Raise (Exn ValueError
      ("Exceeds the limit (" ++ dec lim
       ++ " digits) for integer string conversion: value has " ++ dec n
       ++ " digits; use sys.set_int_max_str_digits() to increase the limit"))
  else Ok (int_of_digits 10 ds).

(** [int(s, 16)]: a base that is a power of two has no limit. *)
Definition int_hex (hs : str) : result N := Ok (int_of_digits 16 hs).

Definition numeric_ref (num : N) : str :=
  match invalid_charrefs num with
  | Some s => s
  | None =>
      if in_range 0xD800 0xDFFF num || (0x10FFFF <? num) then [0xFFFD]
      else if invalid_codepoints num then []
      else [num]
  end.

(** [for x in range(len(s)-1, 1, -1): if s[:x] in _html5: ...], with [x]
    running down from [S (S k)]. *)
Fixpoint longest_name (k : nat) (s : str) : str :=
  let x := S (S k) in
  match html5 E (firstn x s) with
  | Some v => v ++ skipn x s
  | None =>
      match k with
      | O => ch_amp :: s
      | S k' => longest_name k' s
      end
  end.

Definition named_ref (s : str) : str :=
  match html5 E s with
  | Some v => v
  | None =>
      match length s with
      | S (S (S k)) => longest_name k s
      | _ => ch_amp :: s
      end
  end.

(** [_replace_charref] *)
Definition replace_charref (r : charref) : result str :=
  match r with
  | RefDec ds => rmap numeric_ref (int_dec ds)
  | RefHex hs => rmap numeric_ref (int_hex hs)
  | RefName s => Ok (named_ref s)
  end.

(** [_charref.sub(_replace_charref, s)] *)
Fixpoint charref_sub (skip : nat) (s : str) : result str :=
  match s with
  | [] => Ok []
  | c :: r =>
      match skip with
      | S k => charref_sub k r
      | O =>
          if c =? ch_amp then
            match match_charref r with
            | Some (ref, k) =>
                rbind (replace_charref ref) (fun t =>
                rmap (app t) (charref_sub k r))
            | None => rmap (cons c) (charref_sub O r)
            end
          else rmap (cons c) (charref_sub O r)
      end
  end.

Definition unescape (s : str) : result str :=
  if negb (mem ch_amp s) then Ok s else charref_sub O s.
End WithEnv.

End Html.

(* ===================================================================== *)
(** ** mca_ai/preprocess.py *)
(* ===================================================================== *)

Module Preprocess.

Section WithEnv.
Variable E : Env.

(** [str.lower()]: character by character on an ASCII string. *)
Definition lower (s : str) : str :=
  if forallb is_ascii s then map ascii_lower s else unicode_lower E s.

(** Lines 16 to 19 of [clean_text], after the entities are decoded. *)
Definition clean_decoded (text : str) : str :=
  let text := Re.HTML_TAG_sub text in
  let text := Re.URL_sub text in
  let text := Re.NON_ASCII_sub text in
  lower (strip (Re.MULTI_SPACE_sub text)).

Definition clean_text (text : value) : result str :=
  match text with
  | VStr s => rbind (Html.unescape E s) (fun text => Ok (clean_decoded text))
  | _ => Ok []
  end.

(** [[clean_text(t) for t in texts]]: the first failure ends the
    comprehension. *)
Fixpoint batch_clean_text (texts : list value) : result (list str) :=
  match texts with
  | [] => Ok []
  | t :: ts =>
      rbind (clean_text t) (fun c =>
      rbind (batch_clean_text ts) (fun cs => Ok (c :: cs)))
  end.
End WithEnv.

End Preprocess.


(** ** Shapes of text *)

(** The characters a cleaned text can hold. *)
Definition out_char (c : char) : bool :=
  (is_lower c || is_digit c || (c =? ch_sp) || (c =? ch_dot) || (c =? ch_comma)
   || (c =? ch_bang) || (c =? ch_quest) || (c =? ch_apos) || (c =? ch_minus))%N.

Definition starts_with_space (s : str) : bool :=
  match s with c :: _ => is_space c | [] => false end.

Fixpoint ends_with_space (s : str) : bool :=
  match s with
  | [] => false
  | [c] => is_space c
  | _ :: r => ends_with_space r
  end.

(** Two white-space characters in a row somewhere in [s]. *)
Fixpoint double_space (s : str) : bool :=
  match s with
  | a :: r => (is_space a && starts_with_space r) || double_space r
  | [] => false
  end.

(** A cleaned text: allowed characters only, no white space at either end, no
    two white-space characters in a row. *)
Definition cleaned (t : str) : Prop :=
  forallb out_char t = true
  /\ starts_with_space t = false
  /\ ends_with_space t = false
  /\ double_space t = false.

(** The same before lower-casing: kept characters, and the only white space
    is the plain space. *)
Definition tidy_char (c : char) : bool :=
  Re.kept c && (negb (is_space c) || (c =? ch_sp)%N).

Ltac bool_to_prop :=
  unfold out_char, tidy_char, Re.kept, is_space, is_lower, is_upper, is_digit,
    is_ascii, in_range, ascii_lower in *;
  repeat rewrite ?orb_true_iff, ?andb_true_iff, ?orb_false_iff,
    ?andb_false_iff, ?negb_true_iff, ?negb_false_iff, ?N.leb_le, ?N.eqb_eq,
    ?N.leb_gt, ?N.eqb_neq, ?N.ltb_lt, ?N.ltb_ge in *.

Ltac char_lia := bool_to_prop; lia.

(** Powers are opaque to [lia]: name them. *)
Ltac hide_pow :=
  repeat match goal with
  | |- context [Z.pow ?a ?b] =>
      let x := fresh "pw" in set (x := Z.pow a b) in *; clearbody x
  | H : context [Z.pow ?a ?b] |- _ =>
      let x := fresh "pw" in set (x := Z.pow a b) in *; clearbody x
  end.

(* ===================================================================== *)
(** ** mca_ai/data_loader.py *)
(* ===================================================================== *)

(** The part of the configuration object the loader reads. *)
Record AppCfg : Type := mkCfg {
  cfg_source : string;           (* app_cfg.data.source *)
  cfg_hf_dataset : string;       (* app_cfg.data.hf_dataset *)
  cfg_data_dir : string;         (* app_cfg.paths.data_dir *)
  cfg_split_ratio : list number; (* app_cfg.data.split_ratio *)
  cfg_seed : Z;                  (* app_cfg.seed *)
  cfg_fast_limit : option Z;     (* app_cfg.data.fast_limit; None when it is
                                    absent or set to None *)
  cfg_text_field : string        (* app_cfg.data.text_field *)
}.

Module DataLoader.

Local Open Scope string_scope.
Local Open Scope list_scope.
Local Open Scope nat_scope.

Section WithEnv.
Variable E : Env.

(** The state the loader works on: the file system with the hub cache, the
    generator of the [random] module, and what was printed so far. *)
Record World : Type := mkWorld {
  fs : FS E;
  rng : RNG E;
  stdout : list string
}.

Definition M (A : Type) : Type := World -> result A * World.

Definition ret {A} (a : A) : M A := fun w => (Ok a, w).

Definition bind {A B} (m : M A) (k : A -> M B) : M B :=
  fun w =>
    match m w with
    | (Ok a, w') => k a w'
    | (Raise e, w') => (Raise e, w')
    end.

Definition raise {A} (e : exn) : M A := fun w => (Raise e, w).

Definition lift {A} (r : result A) : M A := fun w => (r, w).

Notation "x <- m ;; k" := (bind m (fun x => k))
  (at level 61, m at next level, right associativity).
Notation "m ;; k" := (bind m (fun _ => k))
  (at level 61, right associativity).

Definition print (line : string) : M unit :=
  fun w => (Ok tt, mkWorld (fs w) (rng w) (stdout w ++ [line])).

(** [try: body  except Exception as e: handler(e)] *)
Definition try_except {A} (body : M A) (handler : exn -> M A) : M A :=
  fun w =>
    match body w with
    | (Raise e, w') => if is_Exception e then handler e w' else (Raise e, w')
    | ok => ok
    end.

(** [try: body  except: handler] catches every exception. *)
Definition try_except_all {A} (body : M A) (handler : M A) : M A :=
  fun w =>
    match body w with
    | (Raise e, w') => handler w'
    | ok => ok
    end.

(** A [try] block that ends in [return], with an [except Exception] clause
    that prints and falls through to the statements after it. *)
Definition try_return {A} (body : M A) (on_error : exn -> M unit)
    (next : M A) : M A :=
  try_except body (fun e => on_error e ;; next).

Definition load_dataset (req : LoadReq) : M DatasetDict :=
  fun w => let (r, f) := hub_load E req (fs w) in
           (r, mkWorld f (rng w) (stdout w)).

Definition load_dataset_split (req : LoadReq) : M Dataset :=
  fun w => let (r, f) := hub_load_split E req (fs w) in
           (r, mkWorld f (rng w) (stdout w)).

Definition os_path_exists (p : string) : M bool :=
  fun w => (Ok (path_exists E p (fs w)), w).

Definition shutil_rmtree (p : string) : M unit :=
  fun w => let (r, f) := rmtree E p (fs w) in
           (r, mkWorld f (rng w) (stdout w)).

(** [random.choice(seq)] is [seq[self._randbelow(len(seq))]]; the drawn
    index is reduced modulo the length, which [_randbelow] guarantees. *)
Definition random_choice {A} (seq : list A) (d : A) : M A :=
  fun w => let (i, g) := randbelow E (length seq) (rng w) in
           (Ok (nth (i mod length seq) seq d), mkWorld (fs w) g (stdout w)).

(** *** Strings and dicts *)

(** [name.replace("/", "___")] *)
Fixpoint replace_slash (s : string) : string :=
  match s with
  | EmptyString => EmptyString
  | String c r =>
      if Ascii.eqb c "/" then ("___" ++ replace_slash r)%string
      else String c (replace_slash r)
  end.

Definition ends_with_slash (s : string) : bool :=
  match get (String.length s - 1) s with
  | Some c => Ascii.eqb c "/"
  | None => false
  end.

(** [os.path.join(a, b)] on a POSIX system. *)
Definition os_path_join (a b : string) : string :=
  if String.prefix "/" b then b
  else if String.eqb a "" || ends_with_slash a then (a ++ b)%string
  else (a ++ "/" ++ b)%string.

(** [str(z)] for an integer. *)
Definition dec_Z (z : Z) : string := NilZero.string_of_int (Z.to_int z).

Fixpoint lookup {A} (k : string) (d : list (string * A)) : option A :=
  match d with
  | [] => None
  | (k', v) :: r => if String.eqb k k' then Some v else lookup k r
  end.

(** [k in d] *)
Definition has_key {A} (k : string) (d : list (string * A)) : bool :=
  match lookup k d with Some _ => true | None => false end.

(** [example.get(k, default)] *)
Definition row_get (k : string) (default : value) (ex : Row) : value :=
  match lookup k ex with Some v => v | None => default end.

(** [example.update({k: v})]: the column keeps its place, a new one is
    added at the end. *)
Fixpoint row_set (k : string) (v : value) (ex : Row) : Row :=
  match ex with
  | [] => [(k, v)]
  | (k', v') :: r =>
      if String.eqb k k' then (k, v) :: r else (k', v') :: row_set k v r
  end.

(** *** Library model: datasets.Dataset *)

(** [dataset.select(indices)]; an index beyond the rows is an [IndexError],
    which the permutations of numpy never lead to. *)
Fixpoint select {A} (rows : list A) (indices : list nat)
    : result (list A) :=
  match indices with
  | [] => Ok []
  | i :: r =>
      match nth_error rows i with
      | Some row => rmap (cons row) (select rows r)
      | None =>
          Raise (Exn OtherException
                   ("Index " ++ dec i ++ " out of range for dataset of size "
                    ++ dec (length rows) ++ "."))
      end
  end.

(** A number, as an f-string shows it. *)
Definition show (x : number) : string :=
  match x with
  | NInt z => dec_Z z
  | NFloat f => float_repr E f
  end.

(** [n - x], [x + y], [x > n] and [int(x)] for an [int] [n] and numbers [x]
    and [y]: an [int] that meets a [float] is converted to a float first. *)
Definition int_sub (n : Z) (x : number) : result number :=
  match x with
  | NInt z => Ok (NInt (n - z))
  | NFloat f => rmap (fun fn => NFloat (Float.sub fn f)) (Float.of_int n)
  end.

Definition num_add (x y : number) : result number :=
  match x, y with
  | NInt a, NInt b => Ok (NInt (a + b))
  | NFloat f, NFloat g => Ok (NFloat (Float.add f g))
  | NInt a, NFloat g => rmap (fun f => NFloat (Float.add f g)) (Float.of_int a)
  | NFloat f, NInt b => rmap (fun g => NFloat (Float.add f g)) (Float.of_int b)
  end.

Definition num_gt_int (x : number) (n : Z) : bool :=
  match x with
  | NInt z => (n <? z)%Z
  | NFloat f => Float.gt_int f n
  end.

Definition num_to_int (x : number) : result Z :=
  match x with
  | NInt z => Ok z
  | NFloat f => Float.to_int f
  end.

(** The checks of [train_test_split] on [test_size] (with [train_size] left
    at [None]) and the sizes [(n_train, n_test)] of the two parts, for a
    data set of [n_samples] rows: a float is the share of the test part,
    [ceil(test_size * n_samples)] rows in floating-point arithmetic; an
    [int] is its number of rows, taken through [float(test_size)].  In the
    library the steps are
<<
    if (isinstance(test_size, int) and (test_size >= n_samples or test_size <= 0)
        or isinstance(test_size, float) and (test_size <= 0 or test_size >= 1)):
        raise ValueError(...)
    if isinstance(test_size, float): n_test = ceil(test_size * n_samples)
    elif isinstance(test_size, int): n_test = float(test_size)
    n_train = n_samples - n_test
    if n_train + n_test > n_samples: raise ValueError(...)
    n_train, n_test = int(n_train), int(n_test)
    if n_train == 0: raise ValueError(...)
>> *)
Definition split_sizes (test_size : number) (n_samples : Z)
    : result (Z * Z) :=
  if match test_size with
     | NInt z => (n_samples <=? z)%Z || (z <=? 0)%Z
     | NFloat f => Float.le_int f 0 || Float.ge_int f 1
     end
  then
    Raise (Exn ValueError
      ("test_size=" ++ show test_size
       ++ " should be either positive and smaller than the number of samples "
       ++ dec_Z n_samples ++ " or a float in the (0, 1) range"))
  else
    rbind (match test_size with
           | NFloat f =>
               rbind (Float.of_int n_samples) (fun fn =>
               rmap NInt (Float.ceil (Float.mul f fn)))
           | NInt z => rmap NFloat (Float.of_int z)
           end) (fun n_test =>
    rbind (int_sub n_samples n_test) (fun n_train =>
    rbind (num_add n_train n_test) (fun total =>
    if num_gt_int total n_samples then
      Raise (Exn ValueError
        ("The sum of train_size and test_size = " ++ show total
         ++ ", should be smaller than the number of samples "
         ++ dec_Z n_samples ++ ". Reduce test_size and/or train_size."))
    else
      rbind (num_to_int n_train) (fun n_train =>
      rbind (num_to_int n_test) (fun n_test =>
      if (n_train =? 0)%Z then
        Raise (Exn ValueError
          ("With n_samples=" ++ dec_Z n_samples ++ ", test_size="
           ++ show test_size ++ " and train_size=None, the resulting train "
           ++ "set will be empty. Adjust any of the aforementioned "
           ++ "parameters."))
      else Ok (n_train, n_test)))))).

(** [dataset.train_test_split(test_size=test_size, seed=seed)]: an empty
    data set comes back as both parts; otherwise the rows are dealt out
    along a permutation drawn from [seed], the first [n_test] positions to
    the test part, the next [n_train] to the train part. *)
Definition train_test_split {A} (rows : list A) (test_size : number)
    (seed : Z) : result (list A * list A) :=
  if length rows =? 0 then Ok (rows, rows)
  else
    rbind (split_sizes test_size (Z.of_nat (length rows))) (fun sizes =>
    let n_train := Z.to_nat (fst sizes) in
    let n_test := Z.to_nat (snd sizes) in
    let p := permutation E seed (length rows) in
    let test_indices := firstn n_test p in
    let train_indices := firstn n_train (skipn n_test p) in
    rbind (select rows train_indices) (fun train_split =>
    rbind (select rows test_indices) (fun test_split =>
    Ok (train_split, test_split)))).

(** [dataset.map(f)] on one split: row by row, the first failure ends it. *)
Fixpoint Dataset_map (f : Row -> result Row) (rows : Dataset)
    : result Dataset :=
  match rows with
  | [] => Ok []
  | ex :: r =>
      rbind (f ex) (fun ex' =>
      rbind (Dataset_map f r) (fun r' => Ok (ex' :: r')))
  end.

(** [dataset_dict.map(f)]: every split, in order. *)
Fixpoint DatasetDict_map (f : Row -> result Row) (ds : DatasetDict)
    : result DatasetDict :=
  match ds with
  | [] => Ok []
  | (name, rows) :: r =>
      rbind (Dataset_map f rows) (fun rows' =>
      rbind (DatasetDict_map f r) (fun r' => Ok ((name, rows') :: r')))
  end.

(** [split_ratio[1]]; a list that is too short gives an [IndexError]. *)
Definition split_ratio_1 (cfg : AppCfg) : result number :=
  match nth_error (cfg_split_ratio cfg) 1 with
  | Some q => Ok q
  | None => Raise (Exn OtherException "list index out of range")
  end.

(** *** clear_dataset_cache *)

Definition clear_dataset_cache (dataset_name : string) : M unit :=
  try_except
    (let cache_dir := expanduser E "~/.cache/huggingface/datasets" in
     let dataset_cache_dir :=
       os_path_join cache_dir (replace_slash dataset_name) in
     present <- os_path_exists dataset_cache_dir ;;
     if present : bool then
       shutil_rmtree dataset_cache_dir ;;
       print ("Cleared cache for dataset: " ++ dataset_name)
     else ret tt)
    (fun e =>
       print ("Warning: Could not clear cache for " ++ dataset_name ++ ": "
              ++ exn_msg e)).

(** *** load_dataset_with_fallback *)

Definition plain_req (name : string) : LoadReq :=
  mkReq name None None false false.

(** Strategy 1: normal load. *)
Definition strategy_normal (dataset_name : string) : M DatasetDict :=
  print ("Attempting to load " ++ dataset_name ++ " normally...") ;;
  load_dataset (plain_req dataset_name).

Definition strategy_normal_failed (e : exn) : M unit :=
  if is_NonMatchingSplitsSizesError e
  then print ("Split size mismatch: " ++ exn_msg e)
  else print ("Normal load failed: " ++ exn_msg e).

(** Strategy 2: clear cache and force redownload. *)
Definition strategy_redownload (dataset_name : string) : M DatasetDict :=
  print "Clearing cache and forcing redownload..." ;;
  clear_dataset_cache dataset_name ;;
  load_dataset (mkReq dataset_name None None true false).

Definition strategy_redownload_failed (e : exn) : M unit :=
  print ("Force redownload failed: " ++ exn_msg e).

(** Strategy 3: ignore verifications. *)
Definition strategy_ignore (dataset_name : string) : M DatasetDict :=
  print "Loading with ignore_verifications=True..." ;;
  load_dataset (mkReq dataset_name None None false true).

Definition strategy_ignore_failed (e : exn) : M unit :=
  print ("Ignore verifications failed: " ++ exn_msg e).

(** Strategy 4: load the splits one by one; without a test split, make one
    from the train split. *)
Definition strategy_splits (app_cfg : AppCfg) (dataset_name : string)
    : M DatasetDict :=
  print "Attempting to load splits individually..." ;;
  train_ds <- load_dataset_split
                (mkReq dataset_name None (Some "train") false true) ;;
  parts <- try_except_all
             (test_ds <- load_dataset_split
                           (mkReq dataset_name None (Some "test") false true) ;;
              ret (train_ds, test_ds))
             (test_size <- lift (split_ratio_1 app_cfg) ;;
              lift (train_test_split train_ds test_size (cfg_seed app_cfg))) ;;
  ret [("train", fst parts); ("test", snd parts)].

Definition strategy_splits_failed (e : exn) : M unit :=
  print ("Individual split loading failed: " ++ exn_msg e).

Definition load_dataset_with_fallback (app_cfg : AppCfg) : M DatasetDict :=
  let dataset_name := cfg_hf_dataset app_cfg in
  try_return (strategy_normal dataset_name) strategy_normal_failed (
  try_return (strategy_redownload dataset_name) strategy_redownload_failed (
  try_return (strategy_ignore dataset_name) strategy_ignore_failed (
  try_return (strategy_splits app_cfg dataset_name) strategy_splits_failed (
  raise (Exn RuntimeError
           ("All strategies failed to load dataset: " ++ dataset_name)))))).

(** Following the specification of the remote source: the strategies are
    attempted in order (each paired with the report of its failure), the
    first one that succeeds wins, and when all have failed the resolution
    fails with the error [fatal]. *)
Fixpoint first_success {A} (attempts : list (M A * (exn -> M unit)))
    (fatal : exn) : M A :=
  match attempts with
  | [] => raise fatal
  | (attempt, report) :: rest =>
      fun w =>
        match attempt w with
        | (Ok a, w') => (Ok a, w')
        | (Raise e, w') =>
            if is_Exception e
            then (report e ;; first_success rest fatal) w'
            else (Raise e, w')
        end
  end.

(** The four strategies of [load_dataset_with_fallback], in order. *)
Definition strategies (app_cfg : AppCfg)
    : list (M DatasetDict * (exn -> M unit)) :=
  let dataset_name := cfg_hf_dataset app_cfg in
  [(strategy_normal dataset_name, strategy_normal_failed);
   (strategy_redownload dataset_name, strategy_redownload_failed);
   (strategy_ignore dataset_name, strategy_ignore_failed);
   (strategy_splits app_cfg dataset_name, strategy_splits_failed)].

(** A computation that leaves the random generator as it found it. *)
Definition rng_kept {A} (m : M A) : Prop :=
  forall w, rng (snd (m w)) = rng w.

(** A strategy that fails, with an [Exception], wherever it is run. *)
Definition always_fails {A} (m : M A) : Prop :=
  forall w, exists e w', m w = (Raise e, w') /\ is_Exception e = true.

(** *** create_synthetic_dataset *)

Definition positive_texts : list str := map u [
  "I love this new policy! It's exactly what we need for our community.";
  "This is a fantastic initiative that will benefit everyone.";
  "Great work on this proposal. I fully support it.";
  "Excellent idea! This will make a real difference.";
  "I'm very happy with this decision. Thank you for listening.";
  "This is wonderful news for our city.";
  "I strongly support this measure. It's well thought out.";
  "Perfect! This addresses all my concerns.";
  "Outstanding work! This is exactly what we needed.";
  "I'm thrilled about this development." ]%string.

Definition negative_texts : list str := map u [
  "This policy is terrible and will hurt our community.";
  "I strongly oppose this initiative. It's a bad idea.";
  "This proposal is poorly thought out and will cause problems.";
  "I'm very disappointed with this decision.";
  "This is a waste of taxpayer money.";
  "I cannot support this measure. It's harmful.";
  "This is a terrible idea that will backfire.";
  "I'm outraged by this proposal.";
  "This will make things worse, not better.";
  "I strongly disagree with this approach." ]%string.

Definition neutral_texts : list str := map u [
  "I have mixed feelings about this policy.";
  "This seems like a reasonable approach, but I have some concerns.";
  "I need more information before I can form an opinion.";
  "This is an interesting proposal that deserves consideration.";
  "I see both pros and cons to this initiative.";
  "This is a complex issue that requires careful analysis.";
  "I'm not sure if this is the right solution.";
  "This could work, but there might be better alternatives.";
  "I have questions about the implementation details.";
  "This is worth discussing further." ]%string.

(** The body of the loop, for one [i]. *)
Definition synthetic_example (i : nat) : M Row :=
  sentiment <- random_choice ["positive"; "negative"; "neutral"]%string
                 "positive"%string ;;
  text <- (if String.eqb sentiment "positive"
           then random_choice positive_texts []
           else if String.eqb sentiment "negative"
           then random_choice negative_texts []
           else random_choice neutral_texts []) ;;
  let text := text ++ u (" This is comment #" ++ dec (i + 1)
                         ++ " about the proposed policy.") in
  ret [("text", VStr text); ("label", VStr (u sentiment));
       ("id", VInt (Z.of_nat i))]%string.

(** [for i in range(num_examples)], from [i] on, [k] more turns. *)
Fixpoint synthetic_examples (k i : nat) : M Dataset :=
  match k with
  | O => ret []
  | S k' =>
      ex <- synthetic_example i ;;
      rest <- synthetic_examples k' (S i) ;;
      ret (ex :: rest)
  end.

Definition create_synthetic_dataset (num_examples : Z) : M DatasetDict :=
  dataset <- synthetic_examples (Z.to_nat num_examples) 0 ;;
  parts <- lift (train_test_split dataset (NFloat Float.f0_2) 42) ;;
  ret [("train", fst parts); ("test", snd parts)]%string.

(** *** load_dataset_any *)

Definition synthetic_fallback (lines : list string) : M DatasetDict :=
  fold_right (fun l k => print l ;; k) (create_synthetic_dataset 1000) lines.

(** One of the three local sources: the file is loaded when it is there,
    otherwise the synthetic data set takes its place. *)
Definition load_local (builder file label : string) (app_cfg : AppCfg)
    : M DatasetDict :=
  let path := (cfg_data_dir app_cfg ++ "/" ++ file)%string in
  present <- os_path_exists path ;;
  if present : bool then
    load_dataset (mkReq builder (Some ("train", path)) None false false)
  else
    synthetic_fallback
      [("Local " ++ label ++ " file not found: " ++ path)%string;
       "Falling back to synthetic dataset..."%string].

Definition resolve_source (app_cfg : AppCfg) : M DatasetDict :=
  let source := cfg_source app_cfg in
  if String.eqb source "hf_remote" then
    try_except (load_dataset_with_fallback app_cfg)
      (fun e =>
         synthetic_fallback
           [("Hugging Face dataset loading failed: " ++ exn_msg e)%string;
            "Falling back to synthetic dataset for testing..."%string])
  else if String.eqb source "local_json" then
    load_local "json" "train.jsonl" "JSON" app_cfg
  else if String.eqb source "local_parquet" then
    load_local "parquet" "train.parquet" "Parquet" app_cfg
  else if String.eqb source "csv" then
    load_local "csv" "train.csv" "CSV" app_cfg
  else if String.eqb source "synthetic" then
    synthetic_fallback ["Using synthetic dataset for testing..."%string]
  else raise (Exn ValueError ("Unknown data source: " ++ source)).

(** "Ensure splits".  [load_dataset] without [split=] gives a
    [DatasetDict], so the [else] arm of the [isinstance] test and the
    [ds is None] test before it are never taken. *)
Definition ensure_splits (app_cfg : AppCfg) (ds : DatasetDict)
    : M DatasetDict :=
  match lookup "train" ds with
  | Some train =>
      if has_key "test" ds then ret ds
      else
        test_size <- lift (split_ratio_1 app_cfg) ;;
        parts <- lift (train_test_split train test_size (cfg_seed app_cfg)) ;;
        ret [("train", fst parts); ("test", snd parts)]%string
  | None => ret ds
  end.

(** The row cap on one split: [select(range(fast_limit))] when the split is
    longer than the limit. *)
Definition cap_split {A} (fast_limit : Z) (rows : list A) : list A :=
  if (fast_limit <? Z.of_nat (length rows))%Z
  then firstn (Z.to_nat fast_limit) rows
  else rows.

(** The row cap on every split. *)
Definition cap_each (fast_limit : Z) (ds : DatasetDict) : DatasetDict :=
  map (fun p => (fst p, cap_split fast_limit (snd p))) ds.

(** [for split_name in ds.keys(): ...] *)
Fixpoint apply_fast_limit (fast_limit : Z) (ds : DatasetDict)
    : M DatasetDict :=
  match ds with
  | [] => ret []
  | (split_name, rows) :: rest =>
      (if (fast_limit <? Z.of_nat (length rows))%Z
       then print ("Limiting " ++ split_name ++ " split to "
                   ++ dec_Z fast_limit ++ " examples")
       else ret tt) ;;
      rest' <- apply_fast_limit fast_limit rest ;;
      ret ((split_name, cap_split fast_limit rows) :: rest')
  end.

(** [_map_clean] *)
Definition map_clean (orig_field : string) (example : Row) : result Row :=
  let text := row_get orig_field (VStr []) example in
  rbind (Preprocess.clean_text E text) (fun t =>
  Ok (row_set "text" (VStr t) example)).

Definition load_dataset_any (app_cfg : AppCfg) : M DatasetDict :=
  ds <- resolve_source app_cfg ;;
  ds <- ensure_splits app_cfg ds ;;
  ds <- match cfg_fast_limit app_cfg with
        | Some fast_limit => apply_fast_limit fast_limit ds
        | None => ret ds
        end ;;
  lift (DatasetDict_map (map_clean (cfg_text_field app_cfg)) ds).

(** The file a local source reads, by source name. *)
Definition local_file (source : string) : option string :=
  if String.eqb source "local_json" then Some "train.jsonl"
  else if String.eqb source "local_parquet" then Some "train.parquet"
  else if String.eqb source "csv" then Some "train.csv"
  else None.

(** A value that holds no [&], and a row of such values. *)
Definition amp_free (v : value) : bool :=
  match v with VStr s => negb (mem ch_amp s) | _ => true end.

Definition row_amp_free (ex : Row) : bool :=
  forallb (fun kv => amp_free (snd kv)) ex.

Definition id_of (i : nat) : value := VInt (Z.of_nat i).

(** The [id] column of every split. *)
Definition split_ids (ds : DatasetDict) : list (string * list value) :=
  map (fun p => (fst p, map (row_get "id" VNone) (snd p))) ds.

(** The row cap and the cleaning pass of [load_dataset_any] on a data set
    that has its two splits, without the printing. *)
Definition capped_and_cleaned (app_cfg : AppCfg) (ds : DatasetDict)
    : result DatasetDict :=
  DatasetDict_map (map_clean (cfg_text_field app_cfg))
    (match cfg_fast_limit app_cfg with
     | Some fast_limit => cap_each fast_limit ds
     | None => ds
     end).

(** The size of a split of the synthetic data set under a row cap. *)
Definition capped (fast_limit : option Z) (n : nat) : nat :=
  match fast_limit with
  | Some N => Nat.min n (Z.to_nat N)
  | None => n
  end.

(** Number of records over all splits. *)
Definition total_rows (ds : DatasetDict) : nat :=
  list_sum (map (fun p => length (snd p)) ds).
End WithEnv.

Arguments fs {E} w.
Arguments rng {E} w.
Arguments stdout {E} w.

End DataLoader.

(** A small environment for running the definitions: an excerpt of the
    entity table, the default conversion limit, an empty hub and file system,
    a counter for the random generator, the identity permutation and [repr]
    on a few floats. *)
Module Demo.

Definition html5_excerpt (s : str) : option str :=
  if str_eqb s (u "amp;") || str_eqb s (u "amp") then Some (u "&")
  else if str_eqb s (u "lt;") || str_eqb s (u "lt") then Some (u "<")
  else if str_eqb s (u "gt;") || str_eqb s (u "gt") then Some (u ">")
  else if str_eqb s (u "not") then Some [0xAC%N]
  else None.

(** [repr] on the floats of the examples; any other finite float is not
    spelled out. *)
Definition float_repr_excerpt (x : spec_float) : string :=
  match x with
  | S754_finite false 7205759403792794 (-55) => "0.2"
  | S754_finite false 7205759403792794 (-53) => "0.8"
  | S754_finite false 4503599627370496 (-52) => "1.0"
  | S754_finite false 6755399441055744 (-52) => "1.5"
  | S754_finite _ _ _ => "<float>"
  | S754_zero false => "0.0"
  | S754_zero true => "-0.0"
  | S754_infinity false => "inf"
  | S754_infinity true => "-inf"
  | S754_nan => "nan"
  end%string.

Definition env : Env := {|
  html5 := html5_excerpt;
  int_max_str_digits := 4300;
  unicode_lower := fun s => s;
  FS := unit;
  RNG := nat;
  hub_load := fun _ fs => (Raise (Exn OtherException "offline"), fs);
  hub_load_split := fun _ fs => (Raise (Exn OtherException "offline"), fs);
  expanduser := fun p => p;
  path_exists := fun _ _ => false;
  rmtree := fun _ fs => (Ok tt, fs);
  randbelow := fun n g => (g mod n, S g)%nat;
  permutation := fun _ n => seq 0 n;
  float_repr := float_repr_excerpt
|}.

Definition world : DataLoader.World env := DataLoader.mkWorld env tt 0 [].

(** A hub that answers only when the verifications are switched off. *)
Definition tiny : DatasetDict :=
  [("train", [[("text", VStr (u "Fine &amp; <i>good</i>")); ("id", VInt 0)]]);
   ("test", [[("text", VStr (u "BAD!!")); ("id", VInt 1)]])]%string.

Definition env_unverified : Env := {|
  html5 := html5_excerpt;
  int_max_str_digits := 4300;
  unicode_lower := fun s => s;
  FS := unit;
  RNG := nat;
  hub_load := fun req fs =>
    (if req_ignore_verifications req then Ok tiny
     else Raise (Exn NonMatchingSplitsSizesError "sizes differ"), fs);
  hub_load_split := fun _ fs => (Raise (Exn OtherException "offline"), fs);
  expanduser := fun p => p;
  path_exists := fun _ _ => false;
  rmtree := fun _ fs => (Ok tt, fs);
  randbelow := fun n g => (g mod n, S g)%nat;
  permutation := fun _ n => seq 0 n;
  float_repr := float_repr_excerpt
|}.

Definition world_unverified : DataLoader.World env_unverified :=
  DataLoader.mkWorld env_unverified tt 0 [].

Definition cfg (source : string) (fast_limit : option Z) : AppCfg :=
  mkCfg source "owner/comments" "data" [NFloat Float.f0_8; NFloat Float.f0_2]
    42 fast_limit "text".

End Demo.

(** A text with one decimal character reference of 4301 digits. *)
Definition long_reference : str := u "&#" ++ repeat 49%N 4301 ++ u ";".

(** The error of [int] on its 4301 digits, under the default limit. *)
Definition long_reference_error : exn :=
  Exn ValueError
    ("Exceeds the limit (4300 digits) for integer string conversion: "
     ++ "value has 4301 digits; "
     ++ "use sys.set_int_max_str_digits() to increase the limit").

Section FurtherDefinitions.
Local Open Scope string_scope.
Local Open Scope list_scope.
Local Open Scope nat_scope.

(* ===================================================================== *)
(** ** Further shapes of text *)
(* ===================================================================== *)

(** A character that the character filter keeps and that is not white
    space. *)
Definition retainable (c : char) : bool := Re.kept c && negb (is_space c).

(** Does a match of [_URL] start at the head of [s]? *)
Definition url_at (s : str) : bool :=
  match Re.url_len s with Some _ => true | None => false end.

(** The first word of [s]: its longest prefix of non-space characters. *)
Definition head_word (s : str) : str := firstn (Re.nonspace_run s) s.

(** No upper-case ASCII letter in [s]. *)
Definition no_upper (s : str) : bool := forallb (fun c => negb (is_upper c)) s.


(* ===================================================================== *)
(** ** Further names for parts of data_loader.py *)
(* ===================================================================== *)

(** The directory [clear_dataset_cache] looks for. *)
Definition dataset_cache_dir (E : Env) (dataset_name : string) : string :=
  DataLoader.os_path_join (expanduser E "~/.cache/huggingface/datasets")
    (DataLoader.replace_slash dataset_name).

(** The builder a local source is loaded with. *)
Definition local_builder (source : string) : string :=
  if String.eqb source "local_json" then "json"
  else if String.eqb source "local_parquet" then "parquet"
  else "csv".

(** The line the row cap prints for a split it cuts. *)
Definition limiting_line (fast_limit : Z) (split_name : string) : string :=
  "Limiting " ++ split_name ++ " split to " ++ DataLoader.dec_Z fast_limit
  ++ " examples".

(** The error [load_dataset_with_fallback] ends with. *)
Definition all_strategies_failed (app_cfg : AppCfg) : exn :=
  Exn RuntimeError
    ("All strategies failed to load dataset: " ++ cfg_hf_dataset app_cfg).

(** A hub with a train split of five rows and no test split: asking for the
    test split is interrupted; of the local files only the CSV file can be
    loaded. *)
Definition five_rows : Dataset :=
  map (fun i => [("text", VStr (u "Row")); ("id", VInt i)]) [0; 1; 2; 3; 4]%Z.

Definition env_train_only : Env := {|
  html5 := Demo.html5_excerpt;
  int_max_str_digits := 4300;
  unicode_lower := fun s => s;
  FS := unit;
  RNG := nat;
  hub_load := fun req fs =>
    (if String.eqb (req_path req) "csv" then Ok [("train", five_rows)]
     else Raise (Exn OtherException "offline"), fs);
  hub_load_split := fun req fs =>
    (match req_split req with
     | Some "train" => Ok five_rows
     | _ => Raise (Exn KeyboardInterrupt "interrupted")
     end, fs);
  expanduser := fun p => p;
  path_exists := fun _ _ => true;
  rmtree := fun _ fs => (Raise (Exn OtherException "busy"), fs);
  randbelow := fun n g => (g mod n, S g)%nat;
  permutation := fun _ n => rev (seq 0 n);
  float_repr := Demo.float_repr_excerpt
|}.

Definition world_train_only : DataLoader.World env_train_only :=
  DataLoader.mkWorld env_train_only tt 0 [].

(** What "Ensure splits" returns; it neither prints nor touches the world. *)
Definition ensure_result (E : Env) (app_cfg : AppCfg) (ds : DatasetDict)
    : result DatasetDict :=
  match DataLoader.lookup "train" ds with
  | Some train =>
      if DataLoader.has_key "test" ds then Ok ds
      else
        rbind (DataLoader.split_ratio_1 app_cfg) (fun test_size =>
        rmap (fun parts => [("train", fst parts); ("test", snd parts)])
          (DataLoader.train_test_split E train test_size (cfg_seed app_cfg)))
  | None => Ok ds
  end.

(** Rounding to nearest, ties to even, when the last [d] bits of the
    mantissa [m] go: is the quotient rounded up, and the rounded quotient. *)
Definition round_up (m d : Z) : bool :=
  (Z.odd (m / 2 ^ (d - 1))
   && (negb (m mod 2 ^ (d - 1) =? 0) || Z.odd (m / 2 ^ d)))%Z.

Definition rnd (m d : Z) : Z :=
  (m / 2 ^ d + (if round_up m d then 1 else 0))%Z.

(** The list a synthetic text is drawn from, by label. *)
Definition synthetic_texts (label : string) : list str :=
  if String.eqb label "positive" then DataLoader.positive_texts
  else if String.eqb label "negative" then DataLoader.negative_texts
  else DataLoader.neutral_texts.

(** The record that [create_synthetic_dataset] makes in turn [i] of its
    loop, for some draw of the label and of the sentence. *)
Definition is_synthetic_row (i : nat) (row : Row) : Prop :=
  exists label base,
    In label ["positive"; "negative"; "neutral"]
    /\ In base (synthetic_texts label)
    /\ row = [("text", VStr (base ++ u (" This is comment #" ++ dec (i + 1)
                                         ++ " about the proposed policy.")));
              ("label", VStr (u label)); ("id", VInt (Z.of_nat i))].

End FurtherDefinitions.

(* ===================================================================== *)
(** * Properties *)
(* ===================================================================== *)

Lemma tidy_char_ascii c : tidy_char c = true -> is_ascii c = true.
Proof. char_lia. Qed.

Lemma tidy_char_space c : tidy_char c = true -> is_space c = true -> c = ch_sp.
Proof. char_lia. Qed.

Lemma tidy_lower_out c : tidy_char c = true -> out_char (ascii_lower c) = true.
Proof.
  intros H. unfold ascii_lower. destruct (is_upper c) eqn:U; char_lia.
Qed.

Lemma tidy_lower_space c :
  tidy_char c = true -> is_space (ascii_lower c) = is_space c.
Proof.
  intros H. unfold ascii_lower. destruct (is_upper c) eqn:U; [|reflexivity].
  assert (is_space c = false) as -> by (clear H; char_lia).
  clear H. char_lia.
Qed.

Lemma out_char_tidy c : out_char c = true -> tidy_char c = true.
Proof. char_lia. Qed.

Lemma out_char_lower c : out_char c = true -> ascii_lower c = c.
Proof.
  intros H. unfold ascii_lower.
  assert (is_upper c = false) as -> by char_lia. reflexivity.
Qed.

Lemma out_char_not_amp c : out_char c = true -> (ch_amp =? c)%N = false.
Proof. char_lia. Qed.

Lemma out_char_not_lt c : out_char c = true -> (c =? ch_lt)%N = false.
Proof. char_lia. Qed.

(** ** The substitution scan *)

Section SubFacts.
Variable match_len : str -> option nat.

Lemma sub_from_skipn k s :
  Re.sub_from match_len k s = Re.sub_from match_len 0 (skipn k s).
Proof.
  revert k. induction s as [|c r IH]; intros [|k]; simpl; auto.
Qed.

Lemma sub_space_id s :
  Re.search match_len s = false -> Re.sub_space match_len s = s.
Proof.
  unfold Re.sub_space. induction s as [|c r IH]; simpl; auto.
  destruct (match_len (c :: r)) as [[|k]|]; intros H;
    try discriminate; f_equal; auto.
Qed.

Lemma sub_from_length k s :
  length (Re.sub_from match_len k s) <= length s - k.
Proof.
  revert k. induction s as [|c r IH]; intros k; simpl; [lia|].
  destruct k as [|k].
  - destruct (match_len (c :: r)) as [[|j]|]; simpl.
    + specialize (IH 0). lia.
    + specialize (IH j). lia.
    + specialize (IH 0). lia.
  - apply IH.
Qed.
End SubFacts.

Arguments Re.url_len : simpl never.
Arguments Re.tag_len : simpl never.

Lemma nonspace_run_le s : Re.nonspace_run s <= length s.
Proof.
  induction s as [|c r IH]; simpl; [lia|]. destruct (is_space c); simpl; lia.
Qed.

Lemma url_len_shape s n :
  Re.url_len s = Some n -> 5 <= n <= length s.
Proof.
  unfold Re.url_len.
  destruct s as [|a [|b [|c [|d [|e r]]]]]; try discriminate.
  match goal with |- context [if ?b then _ else _] => destruct b end;
    [|discriminate].
  intros [= <-]. pose proof (nonspace_run_le r). simpl length. lia.
Qed.

Lemma URL_sub_shorter s :
  Re.search Re.url_len s = true -> length (Re.URL_sub s) < length s.
Proof.
  unfold Re.URL_sub, Re.sub_space. induction s as [|c r IH]; simpl; [discriminate|].
  destruct (Re.url_len (c :: r)) as [n|] eqn:U.
  - apply url_len_shape in U. simpl in U. destruct n as [|k]; [lia|].
    intros _. simpl. pose proof (sub_from_length Re.url_len k r).
    lia.
  - intros H. simpl. apply IH in H. lia.
Qed.

Lemma no_lt_no_tag s :
  forallb (fun c => negb (c =? ch_lt)%N) s = true ->
  Re.search Re.tag_len s = false.
Proof.
  induction s as [|c r IH]; simpl; auto.
  rewrite andb_true_iff, negb_true_iff. intros [Hc Hr].
  assert (Re.tag_len (c :: r) = None) as ->; [|auto].
  unfold Re.tag_len. destruct r as [|c1 r1]; [reflexivity|]. now rewrite Hc.
Qed.

Lemma NON_ASCII_sub_map s :
  Re.NON_ASCII_sub s = map (fun c => if Re.kept c then c else ch_sp) s.
Proof.
  unfold Re.NON_ASCII_sub, Re.sub_space.
  induction s as [|c r IH]; simpl; auto.
  destruct (Re.kept c); simpl; f_equal; auto.
Qed.

Lemma NON_ASCII_sub_kept s : forallb Re.kept (Re.NON_ASCII_sub s) = true.
Proof.
  rewrite NON_ASCII_sub_map. induction s as [|c r IH]; simpl; auto.
  rewrite IH, andb_true_r. destruct (Re.kept c) eqn:K; auto.
Qed.

Lemma kept_no_match s :
  forallb Re.kept s = true -> Re.search Re.non_ascii_len s = false.
Proof.
  induction s as [|c r IH]; simpl; auto.
  rewrite andb_true_iff. intros [-> Hr]. auto.
Qed.

(** *** Collapsing white space *)

Lemma skipn_space_run s :
  starts_with_space (skipn (Re.space_run s) s) = false.
Proof.
  induction s as [|c r IH]; simpl; auto.
  destruct (is_space c) eqn:S; simpl; auto.
Qed.

Lemma skipn_space_run_kept (P : char -> bool) s :
  forallb P s = true -> forallb P (skipn (Re.space_run s) s) = true.
Proof.
  induction s as [|c r IH]; simpl; auto.
  rewrite andb_true_iff. intros [Hc Hr].
  destruct (is_space c); simpl; auto. now rewrite Hc, Hr.
Qed.

Lemma skipn_space_run_length s : length (skipn (Re.space_run s) s) <= length s.
Proof. rewrite length_skipn. lia. Qed.

Lemma MULTI_SPACE_sub_cons c r :
  Re.MULTI_SPACE_sub (c :: r) =
  if is_space c
  then ch_sp :: Re.MULTI_SPACE_sub (skipn (Re.space_run r) r)
  else c :: Re.MULTI_SPACE_sub r.
Proof.
  unfold Re.MULTI_SPACE_sub, Re.sub_space. simpl.
  unfold Re.multi_space_len. simpl. destruct (is_space c); [|reflexivity].
  now rewrite sub_from_skipn.
Qed.

(** After [_MULTI_SPACE.sub] a kept text holds tidy characters only, has no
    two white-space characters in a row, and starts with white space only if
    it did before. *)
Lemma MULTI_SPACE_sub_tidy n s :
  length s <= n ->
  forallb Re.kept s = true ->
  forallb tidy_char (Re.MULTI_SPACE_sub s) = true
  /\ double_space (Re.MULTI_SPACE_sub s) = false
  /\ starts_with_space (Re.MULTI_SPACE_sub s) = starts_with_space s.
Proof.
  revert s. induction n as [|n IH]; intros [|c r] Hn; simpl in Hn; try lia;
    try (intros _; now repeat split).
  rewrite MULTI_SPACE_sub_cons. simpl forallb at 1.
  rewrite andb_true_iff. intros [Hc Hr].
  destruct (is_space c) eqn:S.
  - pose proof (skipn_space_run_length r).
    destruct (IH (skipn (Re.space_run r) r)) as (A & B & C);
      [lia | now apply skipn_space_run_kept |].
    simpl. rewrite A, B, C, skipn_space_run. now repeat split.
  - destruct (IH r) as (A & B & C); [lia | assumption |].
    simpl. rewrite A, B, S. repeat split; auto.
    rewrite andb_true_r. unfold tidy_char. now rewrite Hc, S.
Qed.

Lemma MULTI_SPACE_sub_length s :
  length (Re.MULTI_SPACE_sub s) <= length s.
Proof.
  unfold Re.MULTI_SPACE_sub, Re.sub_space.
  pose proof (sub_from_length Re.multi_space_len 0 s). lia.
Qed.

Lemma tidy_no_multi_space s :
  forallb tidy_char s = true -> double_space s = false ->
  Re.MULTI_SPACE_sub s = s.
Proof.
  induction s as [|c r IH]; [reflexivity|].
  simpl forallb. simpl double_space.
  rewrite andb_true_iff, orb_false_iff. intros [Hc Hr] [Hd Hdd].
  rewrite MULTI_SPACE_sub_cons.
  destruct (is_space c) eqn:S.
  - simpl in Hd. rewrite (tidy_char_space c Hc S).
    assert (Re.space_run r = 0) as ->.
    { destruct r as [|c1 r1]; simpl in *; auto. now rewrite Hd. }
    simpl. f_equal. auto.
  - f_equal. auto.
Qed.

(** *** Stripping *)

Lemma lstrip_forallb (P : char -> bool) s :
  forallb P s = true -> forallb P (lstrip s) = true.
Proof.
  induction s as [|c r IH]; simpl; auto.
  rewrite andb_true_iff. intros [Hc Hr].
  destruct (is_space c); simpl; auto. now rewrite Hc, Hr.
Qed.

Lemma lstrip_starts s : starts_with_space (lstrip s) = false.
Proof.
  induction s as [|c r IH]; simpl; auto. destruct (is_space c) eqn:S; simpl; auto.
Qed.

Lemma lstrip_double s : double_space s = false -> double_space (lstrip s) = false.
Proof.
  induction s as [|c r IH]; simpl; auto.
  rewrite orb_false_iff. intros [H1 H2].
  destruct (is_space c) eqn:S; simpl; auto.
  rewrite S in *. simpl in *. now rewrite H2.
Qed.

Lemma lstrip_length s : length (lstrip s) <= length s.
Proof.
  induction s as [|c r IH]; simpl; auto. destruct (is_space c); simpl; lia.
Qed.

Lemma lstrip_id s : starts_with_space s = false -> lstrip s = s.
Proof. destruct s as [|c r]; simpl; auto. now intros ->. Qed.

Lemma rstrip_head s :
  rstrip s = [] \/ exists c r r', s = c :: r /\ rstrip s = c :: r'.
Proof.
  destruct s as [|c r]; simpl; auto.
  destruct (rstrip r) as [|x r'].
  - destruct (is_space c); [now left|].
    right. now exists c, r, [].
  - right. now exists c, r, (x :: r').
Qed.

Lemma rstrip_forallb (P : char -> bool) s :
  forallb P s = true -> forallb P (rstrip s) = true.
Proof.
  induction s as [|c r IH]; simpl; auto.
  rewrite andb_true_iff. intros [Hc Hr]. specialize (IH Hr).
  destruct (rstrip r) as [|x r'].
  - destruct (is_space c); simpl; auto. now rewrite Hc.
  - change (P c && forallb P (x :: r') = true). now rewrite Hc, IH.
Qed.

Lemma rstrip_starts s :
  starts_with_space s = false -> starts_with_space (rstrip s) = false.
Proof.
  destruct s as [|c r]; simpl; auto. intros S.
  destruct (rstrip r); [rewrite S|]; simpl; auto.
Qed.

Lemma rstrip_ends s : ends_with_space (rstrip s) = false.
Proof.
  induction s as [|c r IH]; simpl; auto.
  destruct (rstrip r) as [|x r'].
  - destruct (is_space c) eqn:S; simpl; auto.
  - exact IH.
Qed.

Lemma rstrip_double s : double_space s = false -> double_space (rstrip s) = false.
Proof.
  induction s as [|c r IH]; simpl; auto.
  rewrite orb_false_iff. intros [H1 H2]. specialize (IH H2).
  destruct (rstrip_head r) as [E | (x & r1 & r2 & E1 & E2)].
  - rewrite E. destruct (is_space c); simpl; auto. now rewrite andb_false_r.
  - rewrite E2 in *. subst r. simpl in *. now rewrite H1, IH.
Qed.

Lemma rstrip_length s : length (rstrip s) <= length s.
Proof.
  induction s as [|c r IH]; simpl; auto.
  destruct (rstrip r); [destruct (is_space c)|]; simpl in *; lia.
Qed.

Lemma rstrip_id s : ends_with_space s = false -> rstrip s = s.
Proof.
  induction s as [|c r IH]; simpl; auto.
  destruct r as [|c1 r1].
  - simpl. now intros ->.
  - intros H. rewrite (IH H). reflexivity.
Qed.

(** *** Lower-casing *)

Lemma forallb_impl {A} (P Q : A -> bool) l :
  (forall a, P a = true -> Q a = true) ->
  forallb P l = true -> forallb Q l = true.
Proof.
  intros PQ. induction l as [|a l IH]; simpl; auto.
  rewrite !andb_true_iff. intros [Ha Hl]. auto.
Qed.

Section LowerFacts.
Variable E : Env.

Lemma lower_tidy s :
  forallb tidy_char s = true -> Preprocess.lower E s = map ascii_lower s.
Proof.
  intros H. unfold Preprocess.lower.
  now rewrite (forallb_impl tidy_char is_ascii s tidy_char_ascii H).
Qed.

Lemma map_lower_out s :
  forallb tidy_char s = true -> forallb out_char (map ascii_lower s) = true.
Proof.
  induction s as [|c r IH]; simpl; auto.
  rewrite andb_true_iff. intros [Hc Hr]. now rewrite tidy_lower_out, IH.
Qed.

Lemma map_lower_starts s :
  forallb tidy_char s = true ->
  starts_with_space (map ascii_lower s) = starts_with_space s.
Proof.
  destruct s as [|c r]; simpl; auto.
  rewrite andb_true_iff. intros [Hc _]. now apply tidy_lower_space.
Qed.

Lemma map_lower_ends s :
  forallb tidy_char s = true ->
  ends_with_space (map ascii_lower s) = ends_with_space s.
Proof.
  induction s as [|c r IH]; simpl; auto.
  rewrite andb_true_iff. intros [Hc Hr].
  destruct r as [|c1 r1]; simpl in *; auto using tidy_lower_space.
Qed.

Lemma map_lower_double s :
  forallb tidy_char s = true ->
  double_space (map ascii_lower s) = double_space s.
Proof.
  induction s as [|c r IH]; simpl; auto.
  rewrite andb_true_iff. intros [Hc Hr].
  now rewrite tidy_lower_space, map_lower_starts, IH.
Qed.

Lemma map_lower_id s :
  forallb out_char s = true -> map ascii_lower s = s.
Proof.
  induction s as [|c r IH]; simpl; auto.
  rewrite andb_true_iff. intros [Hc Hr]. now rewrite out_char_lower, IH.
Qed.

(** *** The cleaning pipeline *)

Lemma before_lower_tidy x :
  let t := strip (Re.MULTI_SPACE_sub (Re.NON_ASCII_sub x)) in
  forallb tidy_char t = true /\ starts_with_space t = false
  /\ ends_with_space t = false /\ double_space t = false.
Proof.
  destruct (MULTI_SPACE_sub_tidy (length (Re.NON_ASCII_sub x))
              (Re.NON_ASCII_sub x) (le_n _) (NON_ASCII_sub_kept x))
    as (A & B & _).
  cbv zeta. unfold strip. repeat split.
  - now apply rstrip_forallb, lstrip_forallb.
  - apply rstrip_starts, lstrip_starts.
  - apply rstrip_ends.
  - now apply rstrip_double, lstrip_double.
Qed.

Lemma clean_decoded_cleaned x : cleaned (Preprocess.clean_decoded E x).
Proof.
  unfold Preprocess.clean_decoded.
  destruct (before_lower_tidy (Re.URL_sub (Re.HTML_TAG_sub x)))
    as (A & B & C & D).
  rewrite (lower_tidy _ A). unfold cleaned.
  now rewrite map_lower_out, map_lower_starts, map_lower_ends,
    map_lower_double.
Qed.

Lemma clean_decoded_length x :
  length (Preprocess.clean_decoded E x)
  <= length (Re.URL_sub (Re.HTML_TAG_sub x)).
Proof.
  unfold Preprocess.clean_decoded.
  destruct (before_lower_tidy (Re.URL_sub (Re.HTML_TAG_sub x)))
    as (A & _).
  rewrite (lower_tidy _ A), length_map. unfold strip.
  etransitivity; [apply rstrip_length|].
  etransitivity; [apply lstrip_length|].
  etransitivity; [apply MULTI_SPACE_sub_length|].
  now rewrite NON_ASCII_sub_map, length_map.
Qed.

Lemma cleaned_no_amp t : cleaned t -> mem ch_amp t = false.
Proof.
  intros (A & _). unfold mem.
  induction t as [|c r IH]; cbn [existsb forallb] in *; auto.
  apply andb_true_iff in A as [Hc Hr].
  now rewrite (out_char_not_amp c Hc), IH.
Qed.

Lemma cleaned_unescape t : cleaned t -> Html.unescape E t = Ok t.
Proof. intros H. unfold Html.unescape. now rewrite cleaned_no_amp. Qed.

Lemma cleaned_no_tag t : cleaned t -> Re.HTML_TAG_sub t = t.
Proof.
  intros (A & _). apply sub_space_id, no_lt_no_tag.
  revert A. apply forallb_impl. intros c Hc.
  now rewrite (out_char_not_lt c Hc).
Qed.

(** A cleaned text without a URL-like token is left as it is. *)
Lemma cleaned_fixed t :
  cleaned t -> Re.search Re.url_len t = false ->
  Preprocess.clean_decoded E t = t.
Proof.
  intros C U. pose proof C as (A & B & C' & D).
  assert (T : forallb tidy_char t = true)
    by (revert A; apply forallb_impl, out_char_tidy).
  unfold Preprocess.clean_decoded.
  rewrite (cleaned_no_tag t C).
  unfold Re.URL_sub. rewrite (sub_space_id _ _ U).
  unfold Re.NON_ASCII_sub. rewrite sub_space_id.
  2:{ apply kept_no_match. revert T. apply forallb_impl.
      intros c. unfold tidy_char. now rewrite andb_true_iff. }
  rewrite (tidy_no_multi_space _ T D).
  unfold strip. rewrite (lstrip_id _ B), (rstrip_id _ C').
  rewrite (lower_tidy _ T). now apply map_lower_id.
Qed.

(** A cleaned text with a URL-like token loses it, and gets shorter. *)
Lemma cleaned_shrinks t :
  cleaned t -> Re.search Re.url_len t = true ->
  length (Preprocess.clean_decoded E t) < length t.
Proof.
  intros C U. pose proof (clean_decoded_length t) as L.
  rewrite (cleaned_no_tag t C) in L. apply URL_sub_shorter in U. lia.
Qed.

Lemma clean_text_str s :
  Preprocess.clean_text E (VStr s)
  = rmap (Preprocess.clean_decoded E) (Html.unescape E s).
Proof. simpl. now destruct (Html.unescape E s). Qed.
End LowerFacts.

(** ** The normalizer *)

(** C10.  For every string, what [clean_text] returns is a cleaned text: lower
    case letters, digits, the space and [. , ! ? ' -] only, no white space at
    either end and no two white-space characters in a row.  It returns
    whenever decoding the entities does. *)
Theorem clean_text_output_cleaned (E : Env) (s : str) :
  match Preprocess.clean_text E (VStr s) with
  | Ok t => cleaned t
  | Raise e => Html.unescape E s = Raise e
  end.
Proof.
  rewrite clean_text_str.
  destruct (Html.unescape E s) as [x|e]; simpl.
  - apply clean_decoded_cleaned.
  - reflexivity.
Qed.

Lemma clean_text_cleaned (E : Env) (s t : str) :
  Preprocess.clean_text E (VStr s) = Ok t -> cleaned t.
Proof.
  rewrite clean_text_str.
  destruct (Html.unescape E s) as [x|e]; simpl; [|discriminate].
  intros [= <-]. apply clean_decoded_cleaned.
Qed.

(** C1, as the code has it.  Cleaning a cleaned text again gives the same text
    exactly when it holds no URL-like token, that is no [http] or [www.]
    followed by a non-space character. *)
Theorem clean_text_idempotent_iff (E : Env) (s t : str) :
  Preprocess.clean_text E (VStr s) = Ok t ->
  (Preprocess.clean_text E (VStr t) = Ok t <->
   Re.search Re.url_len t = false).
Proof.
  intros H. apply clean_text_cleaned in H.
  rewrite clean_text_str, (cleaned_unescape E t H). simpl. split.
  - intros [= Heq].
    destruct (Re.search Re.url_len t) eqn:U; [|reflexivity].
    pose proof (cleaned_shrinks E t H U) as L. rewrite Heq in L. lia.
  - intros U. now rewrite cleaned_fixed.
Qed.

Lemma clean_text_idempotent_iff_witness :
  Preprocess.clean_text Demo.env (VStr (u "Hello,   World!"))
  = Ok (u "hello, world!")
  /\ (Preprocess.clean_text Demo.env (VStr (u "hello, world!"))
      = Ok (u "hello, world!")
      <-> Re.search Re.url_len (u "hello, world!") = false).
Proof.
  split.
  - vm_compute. reflexivity.
  - apply (clean_text_idempotent_iff Demo.env (u "Hello,   World!")).
    vm_compute. reflexivity.
Defined.

(** C1, as stated, fails: a URL scheme in capitals passes the first cleaning,
    comes out in lower case, and is removed by the second. *)
Lemma clean_text_not_idempotent :
  Preprocess.clean_text Demo.env (VStr (u "See HTTPS://Example.com"))
  = Ok (u "see https example.com")
  /\ Preprocess.clean_text Demo.env (VStr (u "see https example.com"))
     = Ok (u "see example.com")
  /\ u "see example.com" <> u "see https example.com".
Proof.
  repeat split; try (vm_compute; reflexivity).
  vm_compute. discriminate.
Qed.

(** C2, as the code has it.  With [&amp;] in the entity table,
    the text of the example comes out as "visit http example.com save!": the
    URL pattern is written in lower case and does not match [HTTP://...], so
    only [:], [/] and [&] are turned into spaces. *)
Theorem clean_text_example (E : Env) :
  html5 E (u "amp;") = Some (u "&") ->
  Preprocess.clean_text E (VStr (u "Visit <b>HTTP://Example.com</b> &amp; save!"))
  = Ok (u "visit http example.com save!").
Proof.
  intros H. destruct E as [h5 lim ul fsT rngT hl hls eu pe rt rb pm fr].
  cbn [html5] in H. vm_compute in H.
  rewrite clean_text_str.
  assert (U : Html.unescape (mkEnv h5 lim ul fsT rngT hl hls eu pe rt rb pm fr)
                (u "Visit <b>HTTP://Example.com</b> &amp; save!")
              = Ok (u "Visit <b>HTTP://Example.com</b> & save!")).
  { vm_compute. rewrite H. reflexivity. }
  rewrite U. vm_compute. reflexivity.
Qed.

Lemma clean_text_example_witness :
  html5 Demo.env (u "amp;") = Some (u "&")
  /\ Preprocess.clean_text Demo.env
       (VStr (u "Visit <b>HTTP://Example.com</b> &amp; save!"))
     = Ok (u "visit http example.com save!").
Proof.
  split; [reflexivity | apply (clean_text_example Demo.env); reflexivity].
Defined.

(** C2, as stated, fails: the result is not "visit save!". *)
Lemma clean_text_example_keeps_url :
  Preprocess.clean_text Demo.env
    (VStr (u "Visit <b>HTTP://Example.com</b> &amp; save!"))
  <> Ok (u "visit save!").
Proof. vm_compute. discriminate. Qed.

(** *** Where [clean_text] returns and where it does not *)

Lemma clean_text_not_str (E : Env) (v : value) :
  is_str v = false -> Preprocess.clean_text E v = Ok [].
Proof. destruct v; simpl; auto; discriminate. Qed.

Lemma clean_text_no_amp (E : Env) (s : str) :
  mem ch_amp s = false ->
  Preprocess.clean_text E (VStr s) = Ok (Preprocess.clean_decoded E s).
Proof.
  intros H. rewrite clean_text_str. unfold Html.unescape. now rewrite H.
Qed.

(** With the conversion limit switched off, decoding never fails. *)
Lemma charref_sub_unlimited (E : Env) :
  int_max_str_digits E = 0 ->
  forall s k, exists t, Html.charref_sub E k s = Ok t.
Proof.
  intros L. induction s as [|c r IH]; intros k; simpl; [eauto|].
  destruct k as [|k]; [|apply IH].
  destruct (N.eqb c ch_amp).
  - destruct (Html.match_charref r) as [[ref j]|].
    + assert (exists x, Html.replace_charref E ref = Ok x) as [x ->].
      { destruct ref as [ds|hs|nm]; simpl; eauto.
        unfold Html.int_dec. rewrite L. simpl. eauto. }
      simpl. destruct (IH j) as [t ->]. simpl. eauto.
    + destruct (IH 0) as [t ->]. simpl. eauto.
  - destruct (IH 0) as [t ->]. simpl. eauto.
Qed.

Lemma clean_text_total_unlimited (E : Env) (v : value) :
  int_max_str_digits E = 0 -> exists t, Preprocess.clean_text E v = Ok t.
Proof.
  intros L. destruct v; simpl; eauto.
  unfold Html.unescape. destruct (negb (mem ch_amp s)); simpl; eauto.
  destruct (charref_sub_unlimited E L s 0) as [t ->]. simpl. eauto.
Qed.

(** C3 at the failing input.  Under the interpreter's default
    limit of 4300 digits, [html.unescape] raises [ValueError] on a decimal
    character reference of 4301 digits, and [clean_text] lets it through. *)
Theorem clean_text_raises_on_long_reference (E : Env) :
  int_max_str_digits E = 4300 ->
  Preprocess.clean_text E (VStr long_reference)
  = Raise (Exn ValueError
      ("Exceeds the limit (4300 digits) for integer string conversion: "
       ++ "value has 4301 digits; "
       ++ "use sys.set_int_max_str_digits() to increase the limit")).
Proof.
  intros H. destruct E as [h5 lim ul fsT rngT hl hls eu pe rt rb pm fr].
  cbn [int_max_str_digits] in H. subst lim. vm_compute. reflexivity.
Qed.

Lemma clean_text_raises_on_long_reference_witness :
  int_max_str_digits Demo.env = 4300
  /\ returns (Preprocess.clean_text Demo.env (VStr long_reference)) = false.
Proof.
  split; [reflexivity|].
  rewrite (clean_text_raises_on_long_reference Demo.env); reflexivity.
Defined.

(** ** The row cap and the cleaning pass *)

Section LoaderFacts.
Variable E : Env.
Import DataLoader.

Lemma cap_split_long {A} (N : Z) (rows : list A) :
  (N < Z.of_nat (length rows))%Z ->
  cap_split N rows = firstn (Z.to_nat N) rows
  /\ length (cap_split N rows) = Z.to_nat N.
Proof.
  intros H. unfold cap_split.
  apply Z.ltb_lt in H as H'. rewrite H'. split; [reflexivity|].
  rewrite length_firstn. lia.
Qed.

Lemma cap_split_short {A} (N : Z) (rows : list A) :
  (Z.of_nat (length rows) <= N)%Z -> cap_split N rows = rows.
Proof.
  intros H. unfold cap_split. apply Z.ltb_ge in H. now rewrite H.
Qed.

Lemma cap_split_map {A B} (f : A -> B) (N : Z) (rows : list A) :
  cap_split N (map f rows) = map f (cap_split N rows).
Proof.
  unfold cap_split. rewrite length_map.
  destruct (N <? Z.of_nat (length rows))%Z; [|reflexivity].
  apply firstn_map.
Qed.

Lemma apply_fast_limit_run (N : Z) (ds : DatasetDict) (w : World E) :
  exists w',
    apply_fast_limit E N ds w = (Ok (cap_each N ds), w')
    /\ fs w' = fs w /\ rng w' = rng w.
Proof.
  revert w. induction ds as [|[name rows] rest IH]; intros w; simpl.
  - exists w. now repeat split.
  - unfold bind at 1.
    match goal with |- context [?m w] =>
      assert (exists w1, m w = (Ok tt, w1) /\ fs w1 = fs w /\ rng w1 = rng w)
        as (w1 & -> & F1 & G1)
        by (destruct (N <? Z.of_nat (length rows))%Z;
            eexists; repeat split)
    end.
    destruct (IH w1) as (w' & R & F & G).
    unfold bind. rewrite R. simpl. exists w'.
    repeat split; congruence.
Qed.

Lemma Dataset_map_firstn (f : Row -> result Row) (n : nat) :
  forall rows rs,
    Dataset_map f rows = Ok rs ->
    length rs = length rows
    /\ Dataset_map f (firstn n rows) = Ok (firstn n rs).
Proof.
  induction n as [|n IH]; intros rows rs.
  - revert rs. induction rows as [|ex r IHr]; simpl; intros rs.
    + now intros [= <-].
    + destruct (f ex); simpl; try discriminate.
      destruct (Dataset_map f r) as [r'|]; simpl; try discriminate.
      intros [= <-]. destruct (IHr r' eq_refl). simpl. auto.
  - destruct rows as [|ex r]; simpl.
    + now intros [= <-].
    + destruct (f ex); simpl; try discriminate.
      destruct (Dataset_map f r) as [r'|] eqn:R; simpl; try discriminate.
      intros [= <-]. destruct (IH r r' R) as [L ->]. simpl. auto.
Qed.

Lemma Dataset_map_cap (f : Row -> result Row) (N : Z) rows rs :
  Dataset_map f rows = Ok rs ->
  Dataset_map f (cap_split N rows) = Ok (cap_split N rs).
Proof.
  intros H. unfold cap_split.
  destruct (Dataset_map_firstn f (Z.to_nat N) rows rs H) as [-> R].
  now destruct (N <? Z.of_nat (length rows))%Z.
Qed.

(** A failure among the first rows is the failure of the whole pass. *)
Lemma Dataset_map_firstn_raises (f : Row -> result Row) (n : nat) :
  forall rows e,
    Dataset_map f (firstn n rows) = Raise e -> Dataset_map f rows = Raise e.
Proof.
  induction n as [|n IH]; intros rows e; [discriminate|].
  destruct rows as [|ex r]; [discriminate|]. cbn [firstn Dataset_map].
  destruct (f ex) as [ex'|e']; cbn [rbind]; [|auto].
  destruct (Dataset_map f (firstn n r)) as [r'|e'] eqn:R; cbn [rbind];
    [discriminate|].
  intros [= ->]. now rewrite (IH r e R).
Qed.

(** The pass stops at the first record that fails, whatever comes after. *)
Lemma Dataset_map_raises_behind (f : Row -> result Row)
    (kept dropped out : Dataset) (bad : Row) (e : exn) :
  Dataset_map f kept = Ok out -> f bad = Raise e ->
  Dataset_map f (kept ++ bad :: dropped) = Raise e.
Proof.
  revert out. induction kept as [|ex r IH]; intros out K B; cbn [app Dataset_map].
  - now rewrite B.
  - cbn [Dataset_map] in K. destruct (f ex) as [ex'|]; cbn [rbind] in *;
      [|discriminate].
    destruct (Dataset_map f r) as [r'|] eqn:R; cbn [rbind] in K; [|discriminate].
    now rewrite (IH r' eq_refl B).
Qed.

(** A row cap of the length of [kept] keeps [kept]. *)
Lemma cap_split_prefix {A} (kept : list A) (next : A) (dropped : list A) :
  cap_split (Z.of_nat (length kept)) (kept ++ next :: dropped) = kept.
Proof.
  unfold cap_split. rewrite length_app. cbn [length].
  replace (Z.of_nat (length kept)
           <? Z.of_nat (length kept + S (length dropped)))%Z
    with true by (symmetry; apply Z.ltb_lt; lia).
  rewrite Nat2Z.id, firstn_app, Nat.sub_diag, firstn_all. cbn [firstn].
  apply app_nil_r.
Qed.

(** Where the two orders agree: the pass over all rows followed by the cap
    and the cap followed by the pass give the same outcome unless the pass
    over all rows fails on a record that the cap drops. *)
Lemma cap_commutes_iff (f : Row -> result Row) (N : Z) (rows : Dataset) :
  rmap (cap_split N) (Dataset_map f rows) = Dataset_map f (cap_split N rows)
  <-> returns (Dataset_map f rows) = true
      \/ returns (Dataset_map f (cap_split N rows)) = false.
Proof.
  split.
  - intros H. destruct (Dataset_map f rows) as [rs|e]; [now left|right].
    cbn [rmap] in H. now rewrite <- H.
  - intros [H|H].
    + destruct (Dataset_map f rows) as [rs|e] eqn:R; [|discriminate].
      cbn [rmap]. symmetry. now apply Dataset_map_cap.
    + destruct (Dataset_map f (cap_split N rows)) as [rs|e] eqn:R;
        [discriminate|].
      assert (F : Dataset_map f rows = Raise e).
      { unfold cap_split in R.
        destruct (N <? Z.of_nat (length rows))%Z; [|exact R].
        exact (Dataset_map_firstn_raises f _ rows e R). }
      now rewrite F.
Qed.

(** With the conversion limit switched off the pass returns on every data
    set, and the two orders agree everywhere. *)
Lemma Dataset_map_unlimited (field : string) (rows : Dataset) :
  int_max_str_digits E = 0 ->
  returns (Dataset_map (map_clean E field) rows) = true.
Proof.
  intros L. induction rows as [|ex r IH]; [reflexivity|].
  cbn [Dataset_map]. unfold map_clean at 1.
  destruct (clean_text_total_unlimited E (row_get field (VStr []) ex) L)
    as [t ->].
  cbn [rbind]. now destruct (Dataset_map (map_clean E field) r).
Qed.

Lemma cap_commutes_unlimited (field : string) (N : Z) (rows : Dataset) :
  int_max_str_digits E = 0 ->
  rmap (cap_split N) (Dataset_map (map_clean E field) rows)
  = Dataset_map (map_clean E field) (cap_split N rows).
Proof.
  intros L. apply cap_commutes_iff. left. now apply Dataset_map_unlimited.
Qed.

(** The same pass over the texts alone. *)
Lemma batch_clean_text_of_rows (field : string) (rows out : Dataset) :
  Dataset_map (map_clean E field) rows = Ok out ->
  returns (Preprocess.batch_clean_text E (map (row_get field (VStr [])) rows))
  = true.
Proof.
  revert out. induction rows as [|ex r IH]; intros out; [reflexivity|].
  cbn [Dataset_map map Preprocess.batch_clean_text]. unfold map_clean at 1.
  destruct (Preprocess.clean_text E (row_get field (VStr []) ex)) as [t|];
    cbn [rbind]; [|discriminate].
  destruct (Dataset_map (map_clean E field) r) as [r'|] eqn:R; cbn [rbind];
    [|discriminate].
  intros _. specialize (IH r' eq_refl).
  now destruct (Preprocess.batch_clean_text E (map (row_get field (VStr [])) r)).
Qed.

Lemma batch_clean_text_raises_behind (kept dropped : list value) (bad : value)
    (e : exn) :
  returns (Preprocess.batch_clean_text E kept) = true ->
  Preprocess.clean_text E bad = Raise e ->
  Preprocess.batch_clean_text E (kept ++ bad :: dropped) = Raise e.
Proof.
  induction kept as [|t r IH]; intros K B;
    cbn [app Preprocess.batch_clean_text].
  - now rewrite B.
  - cbn [Preprocess.batch_clean_text] in K.
    destruct (Preprocess.clean_text E t) as [c|]; cbn [rbind] in *;
      [|discriminate].
    destruct (Preprocess.batch_clean_text E r) as [cs|] eqn:R;
      cbn [rbind] in K; [|discriminate].
    now rewrite (IH eq_refl B).
Qed.

(** Under the default limit of 4300 digits the long reference cannot be
    cleaned. *)
Lemma long_reference_raises :
  int_max_str_digits E = 4300 ->
  Preprocess.clean_text E (VStr long_reference) = Raise long_reference_error.
Proof.
  intros H. destruct E as [h5 lim ul fsT rngT hl hls eu pe rt rb pm fr].
  cbn [int_max_str_digits] in H. subst lim. vm_compute. reflexivity.
Qed.
End LoaderFacts.

Section LoaderClaims.
Variable E : Env.
Import DataLoader.

(** C7.  With a limit [N], the loop over the splits caps every split on its
    own and touches neither the file system nor the generator; a split with
    more than [N] records keeps its first [N] records in order, a split
    with at most [N] records is left as it is. *)
Theorem fast_limit_caps_each_split (N : Z) (ds : DatasetDict) (w : World E) :
  fst (apply_fast_limit E N ds w) = Ok (cap_each N ds)
  /\ map fst (cap_each N ds) = map fst ds
  /\ fs (snd (apply_fast_limit E N ds w)) = fs w
  /\ rng (snd (apply_fast_limit E N ds w)) = rng w
  /\ forall name rows, In (name, rows) ds ->
       In (name, cap_split N rows) (cap_each N ds)
       /\ ((N < Z.of_nat (length rows))%Z ->
           cap_split N rows = firstn (Z.to_nat N) rows
           /\ length (cap_split N rows) = Z.to_nat N)
       /\ ((Z.of_nat (length rows) <= N)%Z -> cap_split N rows = rows).
Proof.
  destruct (apply_fast_limit_run E N ds w) as (w' & -> & F & G).
  simpl. repeat split; auto.
  - unfold cap_each. rewrite map_map. reflexivity.
  - unfold cap_each.
    apply (in_map (fun p => (fst p, cap_split N (snd p))) ds (name, rows) H).
  - now apply cap_split_long.
  - now apply cap_split_long.
  - now apply cap_split_short.
Qed.

(** C8, at the failing inputs.  Under the interpreter's default limit of
    4300 digits, take rows that can be cleaned, then a record whose text
    holds a decimal character reference of 4301 digits, then any rows, and
    cap at the number of the first rows.  Cleaning all records and capping
    the result raises [ValueError]: the pass stops at the record that the
    cap would have dropped.  Capping and cleaning then, as
    [load_dataset_any] does, returns the first rows cleaned.  The two
    orders do not agree; it is the same for [batch_clean_text] over the
    texts. *)
Theorem cleaning_fails_behind_the_cap (field : string)
    (kept dropped cleaned_kept : Dataset) (bad : Row) :
  int_max_str_digits E = 4300 ->
  Dataset_map (map_clean E field) kept = Ok cleaned_kept ->
  row_get field (VStr []) bad = VStr long_reference ->
  let rows := kept ++ bad :: dropped in
  let texts := map (row_get field (VStr [])) rows in
  let N := Z.of_nat (length kept) in
  rmap (cap_split N) (Dataset_map (map_clean E field) rows)
  = Raise long_reference_error
  /\ Dataset_map (map_clean E field) (cap_split N rows) = Ok cleaned_kept
  /\ rmap (cap_split N) (Preprocess.batch_clean_text E texts)
     = Raise long_reference_error
  /\ returns (Preprocess.batch_clean_text E (cap_split N texts)) = true.
Proof.
  intros L K B rows texts N.
  pose proof (long_reference_raises E L) as R.
  assert (Rb : map_clean E field bad = Raise long_reference_error)
    by (unfold map_clean; now rewrite B, R).
  pose proof (batch_clean_text_of_rows E field kept cleaned_kept K) as Kt.
  subst rows texts N. repeat split.
  - now rewrite (Dataset_map_raises_behind _ _ _ _ _ _ K Rb).
  - now rewrite cap_split_prefix.
  - rewrite map_app. cbn [map]. rewrite B.
    now rewrite (batch_clean_text_raises_behind E _ _ _ _ Kt R).
  - rewrite map_app. cbn [map].
    rewrite <- (length_map (row_get field (VStr [])) kept).
    now rewrite cap_split_prefix.
Qed.

(** C9.  A source name outside the five known ones makes [load_dataset_any]
    raise [ValueError] at once: nothing is printed, loaded or generated. *)
Theorem unknown_source_raises (app_cfg : AppCfg) (w : World E) :
  ~ In (cfg_source app_cfg)
       ["hf_remote"; "local_json"; "local_parquet"; "csv"; "synthetic"]%string ->
  load_dataset_any E app_cfg w
  = (Raise (Exn ValueError ("Unknown data source: " ++ cfg_source app_cfg)), w).
Proof.
  intros H. unfold load_dataset_any, resolve_source, bind.
  repeat match goal with
  | |- context [String.eqb ?a ?b] =>
      destruct (String.eqb_spec a b) as [e|_];
      [exfalso; apply H; rewrite e; simpl; tauto|]
  end.
  reflexivity.
Qed.
End LoaderClaims.

Lemma cleaning_fails_behind_the_cap_witness :
  let rows : Dataset :=
    [[("text", VStr (u "Good <b>row</b>"))];
     [("text", VStr long_reference)]]%string in
  returns (rmap (DataLoader.cap_split 1)
             (DataLoader.Dataset_map (DataLoader.map_clean Demo.env "text")
                rows)) = false
  /\ DataLoader.Dataset_map (DataLoader.map_clean Demo.env "text")
       (DataLoader.cap_split 1 rows)
     = Ok [[("text", VStr (u "good row"))]]%string.
Proof.
  intros rows.
  destruct (cleaning_fails_behind_the_cap Demo.env "text"
              [[("text", VStr (u "Good <b>row</b>"))]]%string []
              [[("text", VStr (u "good row"))]]%string
              [("text", VStr long_reference)]%string)
    as (A & B & _); [reflexivity|reflexivity|reflexivity|].
  split; [|exact B].
  apply (f_equal returns) in A. exact A.
Defined.

Lemma unknown_source_raises_witness :
  DataLoader.load_dataset_any Demo.env (Demo.cfg "xml" None) Demo.world
  = (Raise (Exn ValueError "Unknown data source: xml"), Demo.world).
Proof.
  apply (unknown_source_raises Demo.env (Demo.cfg "xml" None) Demo.world).
  simpl. intros [H|[H|[H|[H|[H|[]]]]]]; discriminate.
Defined.

(** ** The remote source *)

Section MonadFacts.
Variable E : Env.
Import DataLoader.

Lemma rng_kept_ret {A} (a : A) : rng_kept E (ret E a).
Proof. intros w. reflexivity. Qed.

Lemma rng_kept_raise {A} (e : exn) : rng_kept E (raise E (A := A) e).
Proof. intros w. reflexivity. Qed.

Lemma rng_kept_lift {A} (r : result A) : rng_kept E (lift E r).
Proof. intros w. reflexivity. Qed.

Lemma rng_kept_print (l : string) : rng_kept E (print E l).
Proof. intros w. reflexivity. Qed.

Lemma rng_kept_bind {A B} (m : M E A) (k : A -> M E B) :
  rng_kept E m -> (forall a, rng_kept E (k a)) -> rng_kept E (bind E m k).
Proof.
  intros Hm Hk w. unfold bind. specialize (Hm w).
  destruct (m w) as [[a|e] w']; simpl in *; [|assumption].
  rewrite Hk. assumption.
Qed.

Lemma rng_kept_try_except {A} (m : M E A) (h : exn -> M E A) :
  rng_kept E m -> (forall e, rng_kept E (h e)) ->
  rng_kept E (try_except E m h).
Proof.
  intros Hm Hh w. unfold try_except. specialize (Hm w).
  destruct (m w) as [[a|e] w']; simpl in *; [assumption|].
  destruct (is_Exception e); simpl; [|assumption].
  rewrite Hh. assumption.
Qed.

Lemma rng_kept_try_except_all {A} (m h : M E A) :
  rng_kept E m -> rng_kept E h -> rng_kept E (try_except_all E m h).
Proof.
  intros Hm Hh w. unfold try_except_all. specialize (Hm w).
  destruct (m w) as [[a|e] w']; simpl in *; [assumption|].
  rewrite Hh. assumption.
Qed.

Lemma rng_kept_load_dataset (req : LoadReq) : rng_kept E (load_dataset E req).
Proof.
  intros w. unfold load_dataset. now destruct (hub_load E req (fs w)).
Qed.

Lemma rng_kept_load_dataset_split (req : LoadReq) :
  rng_kept E (load_dataset_split E req).
Proof.
  intros w. unfold load_dataset_split.
  now destruct (hub_load_split E req (fs w)).
Qed.

Lemma rng_kept_os_path_exists (p : string) : rng_kept E (os_path_exists E p).
Proof. intros w. reflexivity. Qed.

Lemma rng_kept_shutil_rmtree (p : string) : rng_kept E (shutil_rmtree E p).
Proof.
  intros w. unfold shutil_rmtree. now destruct (rmtree E p (fs w)).
Qed.

Create HintDb rng_kept.
Hint Resolve rng_kept_ret rng_kept_raise rng_kept_lift rng_kept_print
  rng_kept_load_dataset rng_kept_load_dataset_split rng_kept_os_path_exists
  rng_kept_shutil_rmtree : rng_kept.

Ltac rng_kept :=
  repeat first
    [ apply rng_kept_bind; [|intros ?]
    | apply rng_kept_try_except; [|intros ?]
    | apply rng_kept_try_except_all
    | match goal with |- rng_kept _ (if ?b then _ else _) => destruct b end
    | solve [auto with rng_kept] ].

Lemma rng_kept_clear_dataset_cache (name : string) :
  rng_kept E (clear_dataset_cache E name).
Proof. unfold clear_dataset_cache. rng_kept. Qed.

Lemma rng_kept_first_success {A} (l : list (M E A * (exn -> M E unit)))
    (fatal : exn) :
  Forall (fun p => rng_kept E (fst p) /\ forall e, rng_kept E (snd p e)) l ->
  rng_kept E (first_success E l fatal).
Proof.
  induction 1 as [|[m r] l [Hm Hr] _ IH]; simpl.
  - apply rng_kept_raise.
  - intros w. simpl in *. specialize (Hm w).
    destruct (m w) as [[a|e] w']; simpl in *; [assumption|].
    destruct (is_Exception e); simpl; [|assumption].
    rewrite (rng_kept_bind (r e) _ (Hr e) (fun _ => IH)). assumption.
Qed.

Lemma rng_kept_strategies (app_cfg : AppCfg) :
  Forall (fun p => rng_kept E (fst p) /\ forall e, rng_kept E (snd p e))
    (strategies E app_cfg).
Proof.
  pose proof rng_kept_clear_dataset_cache.
  unfold strategies. repeat constructor; simpl; try intros e;
    unfold strategy_normal, strategy_normal_failed, strategy_redownload,
      strategy_redownload_failed, strategy_ignore, strategy_ignore_failed,
      strategy_splits, strategy_splits_failed;
    rng_kept.
Qed.

(** What [first_success] returns was returned by one of the attempts. *)
Lemma first_success_ok {A} (l : list (M E A * (exn -> M E unit)))
    (fatal : exn) (w : World E) (a : A) :
  fst (first_success E l fatal w) = Ok a ->
  exists attempt report w0,
    In (attempt, report) l /\ fst (attempt w0) = Ok a.
Proof.
  revert w. induction l as [|[m r] l IH]; intros w; simpl.
  - discriminate.
  - destruct (m w) as [[x|e] w'] eqn:R; simpl.
    + intros [= ->]. exists m, r, w. rewrite R. auto.
    + destruct (is_Exception e); simpl; [|discriminate].
      unfold bind. destruct (r e w') as [[[]|e'] w''] eqn:R'; simpl;
        [|discriminate].
      intros H. destruct (IH _ H) as (m' & r' & w0 & I & O).
      exists m', r', w0. auto.
Qed.

(** When every attempt fails, [first_success] fails with [fatal], provided
    the reports themselves return. *)
Lemma first_success_exhausted {A} (l : list (M E A * (exn -> M E unit)))
    (fatal : exn) (w : World E) :
  Forall (fun p => always_fails E (fst p)
                   /\ forall e w0, fst (snd p e w0) = Ok tt) l ->
  fst (first_success E l fatal w) = Raise fatal.
Proof.
  intros H. revert w. induction H as [|[m r] l [Hm Hr] _ IH]; intros w; simpl.
  - reflexivity.
  - simpl in *. destruct (Hm w) as (e & w' & -> & ->).
    unfold bind. specialize (Hr e w').
    destruct (r e w') as [[[]|e'] w'']; simpl in *; [apply IH|discriminate].
Qed.
End MonadFacts.

Section RemoteSource.
Variable E : Env.
Import DataLoader.

Lemma report_returns (app_cfg : AppCfg) :
  Forall (fun p : M E DatasetDict * (exn -> M E unit) =>
            forall e w0, fst (snd p e w0) = Ok tt)
    (strategies E app_cfg).
Proof.
  unfold strategies. repeat constructor; simpl; intros e w0;
    unfold strategy_normal_failed; try destruct (_ e); reflexivity.
Qed.

(** C4.  [load_dataset_with_fallback] is the first success among its four
    strategies, tried in order.  What it returns was returned by one of
    them; when all four fail it raises [RuntimeError] with the name of the
    dataset in the message; it never draws from the random generator, so it
    makes no synthetic data itself.  The caller, [load_dataset_any] with
    the source [hf_remote], catches the failure and only then generates the
    synthetic data set. *)
Theorem remote_resolution_first_success (app_cfg : AppCfg) (w : World E) :
  let name := cfg_hf_dataset app_cfg in
  let fatal :=
    Exn RuntimeError ("All strategies failed to load dataset: " ++ name) in
  let run := load_dataset_with_fallback E app_cfg w in
  run = first_success E (strategies E app_cfg) fatal w
  /\ (forall ds, fst run = Ok ds ->
        exists strategy report w0,
          In (strategy, report) (strategies E app_cfg)
          /\ fst (strategy w0) = Ok ds)
  /\ (Forall (fun p => always_fails E (fst p)) (strategies E app_cfg) ->
      fst run = Raise fatal)
  /\ rng (snd run) = rng w
  /\ (cfg_source app_cfg = "hf_remote"%string ->
      forall e, fst run = Raise e -> is_Exception e = true ->
        resolve_source E app_cfg w
        = synthetic_fallback E
            [("Hugging Face dataset loading failed: " ++ exn_msg e)%string;
             "Falling back to synthetic dataset for testing..."%string]
            (snd run)).
Proof.
  intros name fatal run.
  assert (R : run = first_success E (strategies E app_cfg) fatal w).
  { subst run. unfold load_dataset_with_fallback, try_return, try_except.
    cbn [first_success strategies]. fold name.
    repeat match goal with
    | |- context [match ?m ?x with pair _ _ => _ end] =>
        destruct (m x) as [[?|?] ?]; try reflexivity
    | |- context [if is_Exception ?e then _ else _] =>
        destruct (is_Exception e); try reflexivity
    | |- _ => unfold bind at 1
    end. }
  split; [exact R|]. split; [|split; [|split]].
  - intros ds. rewrite R. apply first_success_ok.
  - intros H. rewrite R. apply first_success_exhausted.
    pose proof (report_returns app_cfg) as H'.
    revert H H'. generalize (strategies E app_cfg) as l.
    induction l as [|p l IH]; intros H H'; constructor;
      inversion H; inversion H'; subst; auto.
  - rewrite R. apply rng_kept_first_success, rng_kept_strategies.
  - intros S e He Hx. unfold resolve_source. rewrite S. simpl.
    unfold try_except. fold run.
    destruct run as [[ds|e'] w']; simpl in *; [discriminate|].
    injection He as ->. now rewrite Hx.
Qed.
End RemoteSource.

(** ** The synthetic data set *)

Open Scope string_scope.
Open Scope list_scope.
Open Scope nat_scope.

Lemma u_app (a b : string) : u (a ++ b) = u a ++ u b.
Proof.
  unfold u. induction a as [|c a IH]; simpl; [reflexivity|].
  now rewrite IH.
Qed.

Lemma mem_app (c : char) (a b : str) : mem c (a ++ b) = mem c a || mem c b.
Proof. unfold mem. apply existsb_app. Qed.

Lemma uint_amp_free (d : Decimal.uint) :
  mem ch_amp (u (NilEmpty.string_of_uint d)) = false.
Proof. induction d; simpl; auto. Qed.

Lemma dec_amp_free (n : nat) : mem ch_amp (u (dec n)) = false.
Proof.
  unfold dec, NilZero.string_of_uint.
  destruct (Nat.to_uint n) eqn:D; try reflexivity;
    rewrite <- D; apply uint_amp_free.
Qed.

Lemma nth_forallb {A} (P : A -> bool) (l : list A) (d : A) (n : nat) :
  forallb P l = true -> P d = true -> P (nth n l d) = true.
Proof.
  intros Hl Hd. destruct (nth_in_or_default n l d) as [I | ->]; [|assumption].
  rewrite forallb_forall in Hl. auto.
Qed.

Section SyntheticFacts.
Variable E : Env.
Import DataLoader.

Lemma random_choice_run {A} (seq : list A) (d : A) (g : RNG E) :
  exists x g',
    (forall w, rng w = g ->
       random_choice E seq d w = (Ok x, mkWorld E (fs w) g' (stdout w)))
    /\ (x = d \/ In x seq).
Proof.
  destruct (randbelow E (length seq) g) as [i g'] eqn:R.
  exists (nth (i mod length seq) seq d), g'. split.
  - intros w <-. unfold random_choice. now rewrite R.
  - destruct (nth_in_or_default (i mod length seq) seq d); auto.
Qed.

Lemma texts_amp_free :
  forallb (fun x => negb (mem ch_amp x))
    ([] :: positive_texts ++ negative_texts ++ neutral_texts) = true.
Proof. vm_compute. reflexivity. Qed.

(** One turn of the loop: it returns a row with the id [i] and without any
    [&], and depends on the generator only. *)
Lemma synthetic_example_run (i : nat) (g : RNG E) :
  exists row g',
    (forall w, rng w = g ->
       synthetic_example E i w = (Ok row, mkWorld E (fs w) g' (stdout w)))
    /\ row_get "id" VNone row = id_of i
    /\ row_amp_free row = true.
Proof.
  destruct (random_choice_run ["positive"; "negative"; "neutral"] "positive" g)
    as (s & g1 & R1 & Hs).
  assert (exists texts,
    (if String.eqb s "positive" then random_choice E positive_texts []
     else if String.eqb s "negative" then random_choice E negative_texts []
     else random_choice E neutral_texts []) = random_choice E texts []
    /\ incl texts (positive_texts ++ negative_texts ++ neutral_texts)
    /\ mem ch_amp (u s) = false) as (texts & Ct & It & Hl).
  { simpl in Hs. decompose [or] Hs; try contradiction; subst s;
      eexists; (split; [reflexivity|]); (split; [|reflexivity]);
      first [ apply incl_appl, incl_refl
            | apply incl_appr, incl_appl, incl_refl
            | apply incl_appr, incl_appr, incl_refl ]. }
  destruct (random_choice_run texts [] g1) as (t & g2 & R2 & Ht).
  exists [("text", VStr (t ++ u (" This is comment #" ++ dec (i + 1)
                                ++ " about the proposed policy.")));
          ("label", VStr (u s)); ("id", VInt (Z.of_nat i))], g2.
  repeat split.
  - intros w Hw. unfold synthetic_example, bind.
    rewrite (R1 w Hw), Ct.
    rewrite (R2 (mkWorld E (fs w) g1 (stdout w)) eq_refl). reflexivity.
  - unfold row_amp_free. cbn [forallb snd amp_free].
    rewrite mem_app, !u_app, !mem_app, dec_amp_free, Hl.
    assert (mem ch_amp t = false) as ->; [|reflexivity].
    apply negb_true_iff.
    pose proof texts_amp_free as F. rewrite forallb_forall in F.
    apply F. destruct Ht as [-> | Ht]; [now left | right; auto].
Qed.

Lemma synthetic_examples_run (k : nat) :
  forall (i : nat) (g : RNG E),
  exists rows g',
    (forall w, rng w = g ->
       synthetic_examples E k i w
       = (Ok rows, mkWorld E (fs w) g' (stdout w)))
    /\ map (row_get "id" VNone) rows = map id_of (seq i k)
    /\ forallb row_amp_free rows = true.
Proof.
  induction k as [|k IH]; intros i g.
  - exists [], g. repeat split. intros [f g0 o] <-. reflexivity.
  - destruct (synthetic_example_run i g) as (row & g1 & R & I & F).
    destruct (IH (S i) g1) as (rows & g2 & R' & I' & F').
    exists (row :: rows), g2. repeat split.
    + intros w Hw. simpl. unfold bind. rewrite (R w Hw).
      rewrite (R' (mkWorld E (fs w) g1 (stdout w)) eq_refl). reflexivity.
    + simpl. now rewrite I, I'.
    + simpl. now rewrite F, F'.
Qed.

(** *** Selecting and splitting *)

Lemma select_map {A B} (f : A -> B) (rows : list A) (idx : list nat) :
  select (map f rows) idx = rmap (map f) (select rows idx).
Proof.
  induction idx as [|i idx IH]; cbn [select]; [reflexivity|].
  rewrite nth_error_map, length_map.
  destruct (nth_error rows i); simpl; [|reflexivity].
  rewrite IH. now destruct (select rows idx).
Qed.

Lemma train_test_split_map {A B} (f : A -> B) (rows : list A) (q : number)
    (seed : Z) :
  train_test_split E (map f rows) q seed
  = rmap (fun p => (map f (fst p), map f (snd p)))
      (train_test_split E rows q seed).
Proof.
  unfold train_test_split. rewrite length_map.
  destruct (length rows =? 0); [reflexivity|].
  destruct (split_sizes E q (Z.of_nat (length rows))) as [sizes|e];
    cbn [rbind rmap]; [|reflexivity].
  rewrite !select_map.
  destruct (select rows (firstn _ (skipn _ _))); simpl; [|reflexivity].
  now destruct (select rows (firstn _ _)).
Qed.

Lemma select_ok {A} (P : A -> bool) (rows : list A) (idx : list nat) :
  Forall (fun i => i < length rows) idx ->
  forallb P rows = true ->
  exists out, select rows idx = Ok out
              /\ length out = length idx /\ forallb P out = true.
Proof.
  intros H HP. induction H as [|i idx Hi _ IH]; simpl.
  - now exists [].
  - destruct (nth_error rows i) as [row|] eqn:N.
    + destruct IH as (out & -> & L & F). simpl.
      exists (row :: out). repeat split; simpl; [now rewrite L|].
      rewrite F, andb_true_r. rewrite forallb_forall in HP.
      apply HP. eapply nth_error_In; eauto.
    + apply nth_error_None in N. lia.
Qed.

Lemma permutation_bounded (p : list nat) (n : nat) :
  Permutation p (seq 0 n) -> length p = n /\ Forall (fun i => i < n) p.
Proof.
  intros H. split.
  - rewrite (Permutation_length H). apply length_seq.
  - apply Forall_forall. intros i Hi.
    apply (Permutation_in _ H), in_seq in Hi. lia.
Qed.

Lemma Forall_firstn {A} (P : A -> Prop) (n : nat) (l : list A) :
  Forall P l -> Forall P (firstn n l).
Proof.
  intros H. rewrite <- (firstn_skipn n l) in H.
  now apply Forall_app in H.
Qed.

Lemma Forall_skipn {A} (P : A -> Prop) (n : nat) (l : list A) :
  Forall P l -> Forall P (skipn n l).
Proof.
  intros H. rewrite <- (firstn_skipn n l) in H.
  now apply Forall_app in H.
Qed.

(** Splitting 1000 rows with [test_size=0.2]: 800 and 200. *)
Lemma train_test_split_1000 {A} (P : A -> bool) (rows : list A) (seed : Z) :
  Permutation (permutation E seed 1000) (seq 0 1000) ->
  length rows = 1000 ->
  forallb P rows = true ->
  exists train test,
    train_test_split E rows (NFloat Float.f0_2) seed = Ok (train, test)
    /\ length train = 800 /\ length test = 200
    /\ forallb P train = true /\ forallb P test = true.
Proof.
  intros HP L F.
  apply permutation_bounded in HP as [Lp Bp].
  assert (Bp' : Forall (fun i => i < length rows) (permutation E seed 1000))
    by now rewrite L.
  clear Bp. rename Bp' into Bp.
  unfold train_test_split. rewrite L.
  change (1000 =? 0) with false. cbv iota.
  assert (S : split_sizes E (NFloat Float.f0_2) (Z.of_nat 1000)
              = Ok (800, 200)%Z) by (vm_compute; reflexivity).
  rewrite S. cbn [rbind fst snd].
  change (Z.to_nat 800) with 800. change (Z.to_nat 200) with 200.
  destruct (select_ok P rows (firstn 800 (skipn 200 (permutation E seed 1000))))
    as (tr & -> & Ltr & Ftr); [now apply Forall_firstn, Forall_skipn | assumption |].
  destruct (select_ok P rows (firstn 200 (permutation E seed 1000)))
    as (te & -> & Lte & Fte); [now apply Forall_firstn | assumption |].
  simpl. exists tr, te. repeat split; auto.
  - rewrite Ltr, length_firstn, length_skipn, Lp. reflexivity.
  - rewrite Lte, length_firstn, Lp. reflexivity.
Qed.
End SyntheticFacts.

Section FallbackFacts.
Variable E : Env.
Import DataLoader.

Hypothesis permutation_ok : Permutation (permutation E 42 1000) (seq 0 1000).

Lemma create_synthetic_dataset_run (w : World E) :
  exists train test g',
    create_synthetic_dataset E 1000 w
    = (Ok [("train", train); ("test", test)],
       mkWorld E (fs w) g' (stdout w))
    /\ length train = 800 /\ length test = 200
    /\ forallb row_amp_free train = true
    /\ forallb row_amp_free test = true.
Proof.
  destruct (synthetic_examples_run E 1000 0 (rng w))
    as (rows & g' & R & I & F).
  assert (L : length rows = 1000).
  { rewrite <- (length_map (row_get "id" VNone)), I, length_map.
    apply length_seq. }
  destruct (train_test_split_1000 E row_amp_free rows 42 permutation_ok L F)
    as (tr & te & T & Ltr & Lte & Ftr & Fte).
  exists tr, te, g'. repeat split; auto.
  unfold create_synthetic_dataset, bind.
  change (Z.to_nat 1000) with 1000. rewrite (R w eq_refl).
  unfold lift. rewrite T. reflexivity.
Qed.

Lemma synthetic_fallback_run (lines : list string) (w : World E) :
  exists w0,
    synthetic_fallback E lines w = create_synthetic_dataset E 1000 w0
    /\ fs w0 = fs w /\ rng w0 = rng w.
Proof.
  revert w. induction lines as [|l lines IH]; intros w; simpl.
  - now exists w.
  - unfold bind at 1. simpl.
    destruct (IH (mkWorld E (fs w) (rng w) (stdout w ++ [l])))
      as (w0 & R & F & G).
    exists w0. auto.
Qed.

Lemma bind_ok {A B} (m : M E A) (k : A -> M E B) (w w' : World E) (a : A) :
  m w = (Ok a, w') -> bind E m k w = k a w'.
Proof. intros H. unfold bind. now rewrite H. Qed.

Lemma load_local_missing (builder file label : string) (app_cfg : AppCfg)
    (w : World E) :
  path_exists E (cfg_data_dir app_cfg ++ "/" ++ file) (fs w) = false ->
  load_local E builder file label app_cfg w
  = synthetic_fallback E
      [("Local " ++ label ++ " file not found: "
        ++ cfg_data_dir app_cfg ++ "/" ++ file)%string;
       "Falling back to synthetic dataset..."%string] w.
Proof.
  intros H. unfold load_local, bind at 1, os_path_exists. now rewrite H.
Qed.

Lemma lookup_In {A} (k : string) (d : list (string * A)) (v : A) :
  lookup k d = Some v -> exists k', In (k', v) d.
Proof.
  induction d as [|[k' v'] d IH]; simpl; [discriminate|].
  destruct (String.eqb k k').
  - intros [= ->]. eauto.
  - intros H. destruct (IH H) as [k'' I]. eauto.
Qed.

Lemma map_clean_ok (field : string) (ex : Row) :
  row_amp_free ex = true -> exists ex', map_clean E field ex = Ok ex'.
Proof.
  intros F. unfold map_clean.
  assert (A : amp_free (row_get field (VStr []) ex) = true).
  { unfold row_get. destruct (lookup field ex) as [v|] eqn:L; [|reflexivity].
    apply lookup_In in L as [k I]. unfold row_amp_free in F.
    rewrite forallb_forall in F. apply (F (k, v) I). }
  destruct (row_get field (VStr []) ex) as [| | |s|]; simpl; eauto.
  simpl in A. apply negb_true_iff in A.
  unfold Html.unescape. rewrite A. simpl. eauto.
Qed.

Lemma Dataset_map_ok (field : string) (rows : Dataset) :
  forallb row_amp_free rows = true ->
  exists rs, Dataset_map (map_clean E field) rows = Ok rs
             /\ length rs = length rows.
Proof.
  induction rows as [|ex rows IH]; simpl.
  - exists []. auto.
  - rewrite andb_true_iff. intros [Fe Fr].
    destruct (map_clean_ok field ex Fe) as [ex' ->].
    destruct (IH Fr) as (rs & -> & L). simpl.
    exists (ex' :: rs). simpl. auto.
Qed.

Lemma forallb_cap_split {A} (P : A -> bool) (N : Z) (rows : list A) :
  forallb P rows = true -> forallb P (cap_split N rows) = true.
Proof.
  intros H. unfold cap_split.
  destruct (N <? Z.of_nat (length rows))%Z; [|assumption].
  rewrite <- (firstn_skipn (Z.to_nat N) rows), forallb_app in H.
  now apply andb_true_iff in H.
Qed.

Lemma length_cap_split {A} (N : Z) (rows : list A) :
  length (cap_split N rows) = Nat.min (length rows) (Z.to_nat N).
Proof.
  unfold cap_split.
  destruct (N <? Z.of_nat (length rows))%Z eqn:C.
  - rewrite length_firstn. lia.
  - apply Z.ltb_ge in C. lia.
Qed.

(** C5, as the code has it.  When the file of a local source is missing,
    [load_dataset_any] returns: what it returns is the synthetic data set of
    1000 records, split 800 to 200, with every split cut to the row cap when
    one is configured, and cleaned.  The total is 1000 when no cap is
    configured, or one of at least 800. *)
Theorem local_source_missing (app_cfg : AppCfg) (file : string)
    (w : World E) :
  local_file (cfg_source app_cfg) = Some file ->
  path_exists E (cfg_data_dir app_cfg ++ "/" ++ file) (fs w) = false ->
  exists synthetic w0 w1 train test w',
    fs w0 = fs w /\ rng w0 = rng w
    /\ create_synthetic_dataset E 1000 w0 = (Ok synthetic, w1)
    /\ capped_and_cleaned E app_cfg synthetic
       = Ok [("train", train); ("test", test)]
    /\ load_dataset_any E app_cfg w
       = (Ok [("train", train); ("test", test)], w')
    /\ length train = capped (cfg_fast_limit app_cfg) 800
    /\ length test = capped (cfg_fast_limit app_cfg) 200
    /\ (match cfg_fast_limit app_cfg with
        | Some N => (800 <= N)%Z
        | None => True
        end ->
        total_rows [("train", train); ("test", test)] = 1000).
Proof.
  intros Hsrc Hmiss.
  assert (exists lines,
            resolve_source E app_cfg w = synthetic_fallback E lines w)
    as (lines & R).
  { unfold resolve_source, local_file in *.
    destruct (String.eqb_spec (cfg_source app_cfg) "hf_remote") as [e|_];
      [rewrite e in Hsrc; discriminate|].
    destruct (String.eqb (cfg_source app_cfg) "local_json");
      [injection Hsrc as <-; eexists; now apply load_local_missing|].
    destruct (String.eqb (cfg_source app_cfg) "local_parquet");
      [injection Hsrc as <-; eexists; now apply load_local_missing|].
    destruct (String.eqb (cfg_source app_cfg) "csv");
      [injection Hsrc as <-; eexists; now apply load_local_missing
      | discriminate]. }
  destruct (synthetic_fallback_run lines w) as (w0 & S & F0 & G0).
  destruct (create_synthetic_dataset_run w0)
    as (tr & te & g1 & C0 & Ltr & Lte & Ftr & Fte).
  rewrite S, C0 in R.
  set (w1 := mkWorld E (fs w0) g1 (stdout w0)) in *.
  set (capped_ds := match cfg_fast_limit app_cfg with
                    | Some N => cap_each N [("train", tr); ("test", te)]
                    | None => [("train", tr); ("test", te)]
                    end).
  assert (exists w2,
    (match cfg_fast_limit app_cfg with
     | Some fast_limit =>
         apply_fast_limit E fast_limit [("train", tr); ("test", te)]
     | None => ret E [("train", tr); ("test", te)]
     end) w1 = (Ok capped_ds, w2)) as (w2 & C).
  { subst capped_ds. destruct (cfg_fast_limit app_cfg) as [N|].
    - destruct (apply_fast_limit_run E N [("train", tr); ("test", te)] w1)
        as (w2 & -> & _). now exists w2.
    - now exists w1. }
  assert (exists tr' te',
    capped_ds = [("train", tr'); ("test", te')]
    /\ length tr' = capped (cfg_fast_limit app_cfg) 800
    /\ length te' = capped (cfg_fast_limit app_cfg) 200
    /\ forallb row_amp_free tr' = true /\ forallb row_amp_free te' = true)
    as (tr' & te' & Dc & Ltr' & Lte' & Ftr' & Fte').
  { subst capped_ds. unfold capped.
    destruct (cfg_fast_limit app_cfg) as [N|].
    - exists (cap_split N tr), (cap_split N te).
      rewrite !length_cap_split, Ltr, Lte.
      repeat split; auto using forallb_cap_split.
    - exists tr, te. repeat split; auto. }
  destruct (Dataset_map_ok (cfg_text_field app_cfg) tr' Ftr')
    as (ctr & Mtr & Lctr).
  destruct (Dataset_map_ok (cfg_text_field app_cfg) te' Fte')
    as (cte & Mte & Lcte).
  assert (A : capped_and_cleaned E app_cfg [("train", tr); ("test", te)]
              = Ok [("train", ctr); ("test", cte)]).
  { unfold capped_and_cleaned. fold capped_ds. rewrite Dc. simpl.
    now rewrite Mtr, Mte. }
  exists [("train", tr); ("test", te)], w0, w1, ctr, cte, w2.
  repeat split; auto; try congruence.
  - unfold load_dataset_any.
    rewrite (bind_ok _ _ _ _ _ R).
    rewrite (bind_ok _ _ _ _ _
               (eq_refl : ensure_splits E app_cfg [("train", tr); ("test", te)] w1
                          = (Ok [("train", tr); ("test", te)], w1))).
    rewrite (bind_ok _ _ _ _ _ C).
    unfold lift. unfold capped_and_cleaned in A. fold capped_ds in A.
    now rewrite A.
  - intros H. unfold total_rows. simpl. rewrite Lctr, Lcte, Ltr', Lte'.
    unfold capped. destruct (cfg_fast_limit app_cfg); lia.
Qed.
End FallbackFacts.

Lemma local_source_missing_witness :
  exists synthetic w0 w1 train test w',
    DataLoader.fs w0 = DataLoader.fs Demo.world
    /\ DataLoader.rng w0 = DataLoader.rng Demo.world
    /\ DataLoader.create_synthetic_dataset Demo.env 1000 w0 = (Ok synthetic, w1)
    /\ DataLoader.capped_and_cleaned Demo.env (Demo.cfg "csv" None) synthetic
       = Ok [("train", train); ("test", test)]
    /\ DataLoader.load_dataset_any Demo.env (Demo.cfg "csv" None) Demo.world
       = (Ok [("train", train); ("test", test)], w')
    /\ length train = 800
    /\ length test = 200
    /\ (True -> DataLoader.total_rows [("train", train); ("test", test)] = 1000).
Proof.
  apply (local_source_missing Demo.env (Permutation_refl _)
           (Demo.cfg "csv" None) "train.csv" Demo.world); reflexivity.
Defined.

(** C5, as stated, fails: with a row cap of 100 the data set that replaces
    the missing CSV file has 200 records, not 1000. *)
Lemma local_source_missing_capped :
  path_exists Demo.env "data/train.csv" (DataLoader.fs Demo.world) = false
  /\ rmap DataLoader.total_rows
       (fst (DataLoader.load_dataset_any Demo.env
               (Demo.cfg "csv" (Some 100%Z)) Demo.world))
     = Ok 200
  /\ 200 <> 1000.
Proof.
  repeat split; try (vm_compute; reflexivity). discriminate.
Qed.

Section SyntheticClaims.
Variable E : Env.
Import DataLoader.

Lemma create_synthetic_dataset_result (n : Z) (g : RNG E) :
  exists rows,
    map (row_get "id" VNone) rows = map id_of (seq 0 (Z.to_nat n))
    /\ forall w, rng w = g ->
         fst (create_synthetic_dataset E n w)
         = rmap (fun p => [("train", fst p); ("test", snd p)])
             (train_test_split E rows (NFloat Float.f0_2) 42).
Proof.
  destruct (synthetic_examples_run E (Z.to_nat n) 0 g)
    as (rows & g' & R & I & _).
  exists rows. split; [exact I|]. intros w Hw.
  unfold create_synthetic_dataset, bind. rewrite (R w Hw). unfold lift.
  now destruct (train_test_split E rows (NFloat Float.f0_2) 42).
Qed.

(** C6, as the code has it.  Whatever the state of the random generator,
    the data set has the same ids in the same order and the same split
    membership; the texts and labels are drawn from the generator of the
    process, so two invocations give the same data set when they start from
    the same generator state. *)
Theorem synthetic_ids_deterministic (num_examples : Z) (w1 w2 : World E) :
  rmap split_ids (fst (create_synthetic_dataset E num_examples w1))
  = rmap split_ids (fst (create_synthetic_dataset E num_examples w2))
  /\ (rng w1 = rng w2 ->
      fst (create_synthetic_dataset E num_examples w1)
      = fst (create_synthetic_dataset E num_examples w2)).
Proof.
  destruct (create_synthetic_dataset_result num_examples (rng w1))
    as (rows1 & I1 & R1).
  destruct (create_synthetic_dataset_result num_examples (rng w2))
    as (rows2 & I2 & R2).
  split.
  - rewrite (R1 w1 eq_refl), (R2 w2 eq_refl).
    pose proof (train_test_split_map E (row_get "id" VNone) rows1 (NFloat Float.f0_2) 42)
      as T1.
    pose proof (train_test_split_map E (row_get "id" VNone) rows2 (NFloat Float.f0_2) 42)
      as T2.
    rewrite I1 in T1. rewrite I2, T1 in T2.
    destruct (train_test_split E rows1 (NFloat Float.f0_2) 42) as [[tr1 te1]|e1];
      destruct (train_test_split E rows2 (NFloat Float.f0_2) 42) as [[tr2 te2]|e2];
      simpl in *; try discriminate.
    + injection T2 as H1 H2. unfold split_ids. simpl. now rewrite H1, H2.
    + congruence.
  - intros H. rewrite (R1 w1 eq_refl), (R1 w2 (eq_sym H)). reflexivity.
Qed.
End SyntheticClaims.

Lemma synthetic_ids_deterministic_witness :
  let w2 := DataLoader.mkWorld Demo.env tt 0 ["printed earlier"] in
  fst (DataLoader.create_synthetic_dataset Demo.env 10 Demo.world)
  = fst (DataLoader.create_synthetic_dataset Demo.env 10 w2).
Proof.
  intros w2.
  apply (proj2 (synthetic_ids_deterministic Demo.env 10 Demo.world w2)).
  reflexivity.
Defined.

(** C6, as stated, fails: a second invocation in the same process starts
    from the generator state the first one left, and draws other texts and
    labels. *)
Lemma synthetic_dataset_not_deterministic :
  let first := DataLoader.create_synthetic_dataset Demo.env 1000 Demo.world in
  let second := DataLoader.create_synthetic_dataset Demo.env 1000 (snd first) in
  fst first <> fst second.
Proof.
  intros first second H.
  apply (f_equal (rmap (map (fun p =>
           map (DataLoader.row_get "label" VNone) (firstn 1 (snd p)))))) in H.
  vm_compute in H. discriminate.
Qed.

Lemma remote_resolution_first_success_witness :
  fst (DataLoader.load_dataset_with_fallback Demo.env
         (Demo.cfg "hf_remote" None) Demo.world)
  = Raise (Exn RuntimeError "All strategies failed to load dataset: owner/comments").
Proof.
  apply (proj1 (proj2 (proj2
           (remote_resolution_first_success Demo.env
              (Demo.cfg "hf_remote" None) Demo.world)))).
  repeat constructor; intros w; eexists; eexists; split; reflexivity.
Defined.

(** With a hub that answers only without verifications, the third strategy
    wins, after the reports of the first two. *)
Example third_strategy_wins :
  DataLoader.load_dataset_with_fallback Demo.env_unverified
    (Demo.cfg "hf_remote" None) Demo.world_unverified
  = (Ok Demo.tiny,
     DataLoader.mkWorld Demo.env_unverified tt 0
       ["Attempting to load owner/comments normally...";
        "Split size mismatch: sizes differ";
        "Clearing cache and forcing redownload...";
        "Force redownload failed: sizes differ";
        "Loading with ignore_verifications=True..."]).
Proof. vm_compute. reflexivity. Qed.

Example remote_data_is_cleaned :
  fst (DataLoader.load_dataset_any Demo.env_unverified
         (Demo.cfg "hf_remote" None) Demo.world_unverified)
  = Ok [("train", [[("text", VStr (u "fine good")); ("id", VInt 0)]]);
        ("test", [[("text", VStr (u "bad!!")); ("id", VInt 1)]])].
Proof. vm_compute. reflexivity. Qed.

Lemma fast_limit_caps_each_split_witness :
  let rows : Dataset :=
    [[("id", VInt 0)]; [("id", VInt 1)]; [("id", VInt 2)]] in
  DataLoader.cap_split 1 rows = firstn 1 rows
  /\ length (DataLoader.cap_split 1 rows) = 1.
Proof.
  intros rows.
  destruct (fast_limit_caps_each_split Demo.env 1
              [("train", rows); ("test", [])] Demo.world)
    as (_ & _ & _ & _ & H).
  destruct (H "train" rows (or_introl eq_refl)) as (_ & L & _).
  apply L. simpl. lia.
Defined.

(* ===================================================================== *)
(** * Further properties *)
(* ===================================================================== *)

(** ** More on the substitutions *)

Lemma sub_from_forallb (match_len : str -> option nat) (P : char -> bool)
    (k : nat) (s : str) :
  P ch_sp = true -> forallb P s = true ->
  forallb P (Re.sub_from match_len k s) = true.
Proof.
  intros Hsp. revert k. induction s as [|c r IH]; intros k; simpl; auto.
  rewrite andb_true_iff. intros [Hc Hr].
  destruct k as [|k]; [|auto].
  destruct (match_len (c :: r)) as [[|j]|]; simpl;
    rewrite ?Hc, ?Hsp; simpl; auto.
Qed.

Lemma url_at_cons5 (a b c d e : char) (r : str) :
  url_at (a :: b :: c :: d :: e :: r)
  = (((a =? ch_h) && (b =? ch_t) && (c =? ch_t) && (d =? ch_p))
     || ((a =? ch_w) && (b =? ch_w) && (c =? ch_w) && (d =? ch_dot)))%N
    && negb (is_space e).
Proof.
  unfold url_at, Re.url_len.
  destruct (_ && negb (is_space e)); reflexivity.
Qed.

Lemma url_at_short (s : str) : length s < 5 -> url_at s = false.
Proof.
  destruct s as [|a [|b [|c [|d [|e r]]]]]; simpl; try reflexivity. lia.
Qed.

Lemma url_at_app (p q : str) : url_at p = true -> url_at (p ++ q) = true.
Proof.
  destruct p as [|a [|b [|c [|d [|e r]]]]]; try discriminate.
  simpl app. now rewrite !url_at_cons5.
Qed.

Lemma url_at_first (c : char) (x : str) :
  url_at (c :: x) = true -> is_space c = false.
Proof.
  destruct x as [|b [|d [|e [|f r]]]]; try discriminate.
  rewrite url_at_cons5. clear. intros H.
  assert (c = ch_h \/ c = ch_w) as [-> | ->]; [|reflexivity..].
  bool_to_prop. lia.
Qed.

(** A match at the head lies within the first word. *)
Lemma url_at_head_word (c : char) (x : str) :
  url_at (c :: x) = true -> url_at (c :: head_word x) = true.
Proof.
  destruct x as [|b [|d [|e [|f r]]]]; try discriminate.
  rewrite url_at_cons5. intros H.
  assert (is_space b = false /\ is_space d = false /\ is_space e = false
          /\ is_space f = false) as (Sb & Sd & Se & Sf).
  { clear - H. bool_to_prop. lia. }
  unfold head_word. simpl. rewrite Sb, Sd, Se, Sf. simpl.
  now rewrite url_at_cons5.
Qed.

Lemma head_word_split (s : str) :
  s = head_word s ++ skipn (Re.nonspace_run s) s.
Proof. unfold head_word. now rewrite firstn_skipn. Qed.

(** A match at the head of [c :: x] is a match at the head of [c :: y] when
    the first word of [x] starts the first word of [y]. *)
Lemma url_at_transfer (c : char) (x y q : str) :
  head_word y = head_word x ++ q ->
  url_at (c :: x) = true -> url_at (c :: y) = true.
Proof.
  intros Hq H. apply url_at_head_word in H.
  apply (url_at_app _ q) in H. simpl in H. rewrite <- Hq in H.
  apply (url_at_app _ (skipn (Re.nonspace_run y) y)) in H. simpl in H.
  now rewrite <- head_word_split in H.
Qed.

Lemma head_word_cons (c : char) (r : str) :
  head_word (c :: r) = if is_space c then [] else c :: head_word r.
Proof. unfold head_word. simpl. now destruct (is_space c). Qed.

Lemma search_url_cons (c : char) (r : str) :
  Re.search Re.url_len (c :: r) = url_at (c :: r) || Re.search Re.url_len r.
Proof.
  simpl. unfold url_at. destruct (Re.url_len (c :: r)) as [n|] eqn:U; auto.
  apply url_len_shape in U. destruct n; [lia|reflexivity].
Qed.

Lemma no_url_skipn (k : nat) (s : str) :
  Re.search Re.url_len s = false -> Re.search Re.url_len (skipn k s) = false.
Proof.
  revert s. induction k as [|k IH]; intros [|c r]; simpl skipn; auto.
  rewrite search_url_cons, orb_false_iff. intros [_ H]. auto.
Qed.

Lemma head_word_space (x : str) : head_word (ch_sp :: x) = [].
Proof. reflexivity. Qed.

Lemma head_word_URL_sub (r : str) :
  exists q, head_word r = head_word (Re.URL_sub r) ++ q.
Proof.
  unfold Re.URL_sub, Re.sub_space. induction r as [|c r [q Hq]].
  - now exists [].
  - cbn [Re.sub_from].
    assert (K : exists q', head_word (c :: r)
                = head_word (c :: Re.sub_from Re.url_len 0 r) ++ q').
    { rewrite !head_word_cons. destruct (is_space c); [now exists []|].
      exists q. simpl. now rewrite Hq. }
    destruct (Re.url_len (c :: r)) as [[|k]|]; auto.
    rewrite head_word_space. now exists (head_word (c :: r)).
Qed.

Lemma head_word_NON_ASCII_sub (r : str) :
  exists q, head_word r = head_word (Re.NON_ASCII_sub r) ++ q.
Proof.
  rewrite NON_ASCII_sub_map. induction r as [|c r IH]; cbn [map].
  - now exists [].
  - destruct IH as [q Hq]. rewrite !head_word_cons.
    destruct (Re.kept c).
    + destruct (is_space c); [now exists []|].
      exists q. simpl. now rewrite Hq.
    + change (is_space ch_sp) with true. simpl. eauto.
Qed.


Lemma head_word_MULTI_SPACE_sub (r : str) :
  head_word (Re.MULTI_SPACE_sub r) = head_word r.
Proof.
  induction r as [|c r IH]; [reflexivity|].
  rewrite MULTI_SPACE_sub_cons, (head_word_cons c r).
  destruct (is_space c) eqn:S.
  - reflexivity.
  - now rewrite head_word_cons, S, IH.
Qed.

Lemma rstrip_prefix (s : str) : exists q, s = rstrip s ++ q.
Proof.
  induction s as [|c r [q Hq]]; simpl.
  - now exists [].
  - destruct (rstrip r) as [|x r'].
    + destruct (is_space c); [now exists (c :: r)|].
      exists q. simpl in *. now rewrite <- Hq.
    + exists q. simpl in *. now rewrite <- Hq.
Qed.

Lemma URL_sub_cons (c : char) (r : str) :
  Re.URL_sub (c :: r)
  = match Re.url_len (c :: r) with
    | Some (S k) => ch_sp :: Re.URL_sub (skipn k r)
    | _ => c :: Re.URL_sub r
    end.
Proof.
  unfold Re.URL_sub, Re.sub_space. cbn [Re.sub_from].
  destruct (Re.url_len (c :: r)) as [[|k]|]; try reflexivity.
  now rewrite sub_from_skipn.
Qed.

Lemma url_at_space (x : str) : url_at (ch_sp :: x) = false.
Proof.
  destruct (url_at (ch_sp :: x)) eqn:Q; [|reflexivity].
  apply url_at_first in Q. discriminate.
Qed.

Lemma no_url_URL_sub (n : nat) (s : str) :
  length s <= n -> Re.search Re.url_len (Re.URL_sub s) = false.
Proof.
  revert s.
  induction n as [|n IH]; intros [|c r] H; simpl in H; try lia;
    try reflexivity.
  rewrite URL_sub_cons.
  destruct (Re.url_len (c :: r)) as [[|k]|] eqn:U.
  - apply url_len_shape in U. lia.
  - rewrite search_url_cons, url_at_space. apply IH.
    rewrite length_skipn. lia.
  - rewrite search_url_cons. rewrite (IH r) by lia. rewrite orb_false_r.
    destruct (url_at (c :: Re.URL_sub r)) eqn:Q; [|reflexivity].
    destruct (head_word_URL_sub r) as [q Hq].
    apply (url_at_transfer c _ r q Hq) in Q.
    unfold url_at in Q. rewrite U in Q. discriminate.
Qed.

Lemma no_url_NON_ASCII_sub (s : str) :
  Re.search Re.url_len s = false ->
  Re.search Re.url_len (Re.NON_ASCII_sub s) = false.
Proof.
  induction s as [|c r IH]; [reflexivity|].
  rewrite search_url_cons, orb_false_iff. intros [H1 H2].
  assert (E : Re.NON_ASCII_sub (c :: r)
              = (if Re.kept c then c else ch_sp) :: Re.NON_ASCII_sub r)
    by (rewrite !NON_ASCII_sub_map; reflexivity).
  rewrite E, search_url_cons, (IH H2), orb_false_r.
  destruct (Re.kept c); [|apply url_at_space].
  destruct (url_at (c :: Re.NON_ASCII_sub r)) eqn:Q; [|reflexivity].
  destruct (head_word_NON_ASCII_sub r) as [q Hq].
  apply (url_at_transfer c _ r q Hq) in Q. congruence.
Qed.

Lemma no_url_MULTI_SPACE_sub (n : nat) (s : str) :
  length s <= n ->
  Re.search Re.url_len s = false ->
  Re.search Re.url_len (Re.MULTI_SPACE_sub s) = false.
Proof.
  revert s. induction n as [|n IH]; intros [|c r] L; simpl in L; try lia;
    try reflexivity.
  rewrite search_url_cons, orb_false_iff. intros [H1 H2].
  rewrite MULTI_SPACE_sub_cons. destruct (is_space c).
  - rewrite search_url_cons, url_at_space. apply IH.
    + rewrite length_skipn. lia.
    + now apply no_url_skipn.
  - rewrite search_url_cons, (IH r) by (auto; lia). rewrite orb_false_r.
    destruct (url_at (c :: Re.MULTI_SPACE_sub r)) eqn:Q; [|reflexivity].
    apply (url_at_transfer c _ r []) in Q; [congruence|].
    now rewrite head_word_MULTI_SPACE_sub, app_nil_r.
Qed.

Lemma no_url_lstrip (s : str) :
  Re.search Re.url_len s = false -> Re.search Re.url_len (lstrip s) = false.
Proof.
  induction s as [|c r IH]; [reflexivity|]. intros H. simpl lstrip.
  destruct (is_space c); [|assumption].
  rewrite search_url_cons, orb_false_iff in H. now apply IH.
Qed.

Lemma no_url_rstrip (s : str) :
  Re.search Re.url_len s = false -> Re.search Re.url_len (rstrip s) = false.
Proof.
  induction s as [|c r IH]; [reflexivity|].
  rewrite search_url_cons, orb_false_iff. intros [H1 H2]. specialize (IH H2).
  destruct (rstrip_prefix r) as [q Hq]. simpl rstrip.
  destruct (rstrip r) as [|x r'] eqn:R.
  - destruct (is_space c); reflexivity.
  - rewrite search_url_cons, IH, orb_false_r.
    destruct (url_at (c :: x :: r')) eqn:Q; [|reflexivity].
    apply (url_at_app _ q) in Q. simpl in Q, Hq. rewrite <- Hq in Q.
    congruence.
Qed.

Lemma no_upper_tidy_lower (E : Env) (t : str) :
  forallb tidy_char t = true -> no_upper t = true ->
  Preprocess.lower E t = t.
Proof.
  intros T U. rewrite (lower_tidy E t T). clear T.
  induction t as [|c r IH]; [reflexivity|]. simpl in *.
  apply andb_true_iff in U as [Uc Ur]. apply negb_true_iff in Uc.
  unfold ascii_lower at 1. rewrite Uc. f_equal. auto.
Qed.

Lemma no_upper_sub_from (match_len : str -> option nat) (s : str) :
  no_upper s = true -> no_upper (Re.sub_space match_len s) = true.
Proof. apply sub_from_forallb. reflexivity. Qed.

(** Cleaning a text without capitals leaves no URL-like token. *)
Lemma clean_decoded_no_url (E : Env) (x : str) :
  no_upper x = true ->
  Re.search Re.url_len (Preprocess.clean_decoded E x) = false.
Proof.
  intros U. unfold Preprocess.clean_decoded.
  destruct (before_lower_tidy (Re.URL_sub (Re.HTML_TAG_sub x)))
    as (T & _).
  rewrite no_upper_tidy_lower; [|exact T|].
  - unfold strip. apply no_url_rstrip, no_url_lstrip.
    apply (no_url_MULTI_SPACE_sub _ _ (le_n _)), no_url_NON_ASCII_sub.
    apply (no_url_URL_sub _ _ (le_n _)).
  - unfold strip. apply rstrip_forallb, lstrip_forallb.
    apply no_upper_sub_from, no_upper_sub_from.
    unfold Re.URL_sub. apply no_upper_sub_from.
    unfold Re.HTML_TAG_sub. now apply no_upper_sub_from.
Qed.

(** ** More on the normalizer *)

(** X1.  After the URL substitution no match of the URL pattern is left:
    nowhere in the result does [http] or [www.] stand before a non-space
    character. *)
Theorem URL_sub_leaves_no_url (s : str) :
  Re.search Re.url_len (Re.URL_sub s) = false.
Proof. apply (no_url_URL_sub (length s)). apply le_n. Qed.

Lemma cleaned_no_upper (t : str) : cleaned t -> no_upper t = true.
Proof.
  intros (A & _). revert A. apply forallb_impl. intros c Hc.
  apply negb_true_iff. clear - Hc. char_lia.
Qed.

(** X2.  Cleaning reaches a fixed point after two passes: the cleaned form
    of a cleaned text is left as it is by every further pass. *)
Theorem clean_text_stable_after_two (E : Env) (s t : str) :
  Preprocess.clean_text E (VStr s) = Ok t ->
  exists t',
    Preprocess.clean_text E (VStr t) = Ok t'
    /\ Preprocess.clean_text E (VStr t') = Ok t'.
Proof.
  intros H. apply clean_text_cleaned in H.
  exists (Preprocess.clean_decoded E t).
  pose proof (clean_decoded_cleaned E t) as C'.
  rewrite !clean_text_str, (cleaned_unescape E t H), (cleaned_unescape E _ C').
  simpl. split; [reflexivity|]. f_equal.
  apply cleaned_fixed; [assumption|].
  apply clean_decoded_no_url. now apply cleaned_no_upper.
Qed.

Lemma clean_text_stable_after_two_witness :
  exists t',
    Preprocess.clean_text Demo.env (VStr (u "see https example.com")) = Ok t'
    /\ Preprocess.clean_text Demo.env (VStr t') = Ok t'.
Proof.
  apply (clean_text_stable_after_two Demo.env (u "See HTTPS://Example.com")).
  vm_compute. reflexivity.
Defined.

(** X3.  On a text without [&] and without capital letters one pass is
    enough: cleaning the result again changes nothing. *)
Theorem clean_text_idempotent_lower_case (E : Env) (s : str) :
  mem ch_amp s = false -> no_upper s = true ->
  exists t,
    Preprocess.clean_text E (VStr s) = Ok t
    /\ Preprocess.clean_text E (VStr t) = Ok t.
Proof.
  intros A U. exists (Preprocess.clean_decoded E s).
  pose proof (clean_decoded_cleaned E s) as C.
  split; [now apply clean_text_no_amp|].
  rewrite clean_text_str, (cleaned_unescape E _ C). simpl. f_equal.
  apply cleaned_fixed; [assumption|]. now apply clean_decoded_no_url.
Qed.

Lemma clean_text_idempotent_lower_case_witness :
  exists t,
    Preprocess.clean_text Demo.env
      (VStr (u "see <a href=x>http://example.com/a</a> or www.example.com !"))
    = Ok t
    /\ Preprocess.clean_text Demo.env (VStr t) = Ok t.
Proof.
  apply (clean_text_idempotent_lower_case Demo.env); reflexivity.
Defined.

Lemma all_space_lstrip (s : str) : forallb is_space s = true -> lstrip s = [].
Proof.
  induction s as [|c r IH]; [reflexivity|]. simpl.
  rewrite andb_true_iff. intros [-> Hr]. auto.
Qed.

(** X4.  A text with nothing to keep is cleaned to the empty string: no
    letter, digit or kept punctuation mark and no [&] in it (white space,
    other symbols, even unclosed tags) gives [""]. *)
Theorem clean_text_nothing_to_keep (E : Env) (s : str) :
  mem ch_amp s = false ->
  forallb (fun c => negb (retainable c)) s = true ->
  Preprocess.clean_text E (VStr s) = Ok [].
Proof.
  intros A H. rewrite (clean_text_no_amp E s A). f_equal.
  unfold Preprocess.clean_decoded.
  assert (H1 : forallb (fun c => negb (retainable c))
                 (Re.URL_sub (Re.HTML_TAG_sub s)) = true).
  { unfold Re.URL_sub, Re.HTML_TAG_sub, Re.sub_space.
    apply sub_from_forallb; [reflexivity|].
    apply sub_from_forallb; [reflexivity|assumption]. }
  assert (H2 : forallb is_space
                 (Re.NON_ASCII_sub (Re.URL_sub (Re.HTML_TAG_sub s))) = true).
  { rewrite NON_ASCII_sub_map.
    induction (Re.URL_sub (Re.HTML_TAG_sub s)) as [|c r IH]; [reflexivity|].
    cbn [map forallb] in *. apply andb_true_iff in H1 as [Hc Hr].
    rewrite (IH Hr), andb_true_r. unfold retainable in Hc.
    destruct (Re.kept c); [|reflexivity].
    simpl in Hc. now rewrite negb_involutive in Hc. }
  assert (H3 : forallb is_space
                 (Re.MULTI_SPACE_sub
                    (Re.NON_ASCII_sub (Re.URL_sub (Re.HTML_TAG_sub s)))) = true)
    by (apply sub_from_forallb; [reflexivity|assumption]).
  unfold strip. rewrite (all_space_lstrip _ H3). reflexivity.
Qed.

Lemma clean_text_nothing_to_keep_witness :
  Preprocess.clean_text Demo.env (VStr (u "  <<>> ** (#) <$ ~~ ")) = Ok [].
Proof.
  apply (clean_text_nothing_to_keep Demo.env); reflexivity.
Defined.

(** X5.  Without [&] in it a text is never made longer by cleaning, and
    cleaning returns. *)
Theorem clean_text_not_longer (E : Env) (s : str) :
  mem ch_amp s = false ->
  exists t, Preprocess.clean_text E (VStr s) = Ok t /\ length t <= length s.
Proof.
  intros A. exists (Preprocess.clean_decoded E s).
  split; [now apply clean_text_no_amp|].
  etransitivity; [apply clean_decoded_length|].
  unfold Re.URL_sub, Re.HTML_TAG_sub, Re.sub_space.
  pose proof (sub_from_length Re.url_len 0
                (Re.sub_from Re.tag_len 0 s)).
  pose proof (sub_from_length Re.tag_len 0 s). lia.
Qed.

Lemma clean_text_not_longer_witness :
  exists t,
    Preprocess.clean_text Demo.env (VStr (u "A  <b>bold</b>  claim")) = Ok t
    /\ length t <= length (u "A  <b>bold</b>  claim").
Proof. apply (clean_text_not_longer Demo.env). reflexivity. Defined.

(** *** The one way to fail *)

Lemma span_upto_length (n : nat) (p : char -> bool) (s : str) :
  length (fst (Html.span_upto n p s)) <= length s.
Proof.
  revert s. induction n as [|n IH]; intros [|c r]; simpl; try lia.
  destruct (p c); simpl; [|lia].
  specialize (IH r). destruct (Html.span_upto n p r). simpl in *. lia.
Qed.

Lemma match_charref_dec_length (r ds : str) (j : nat) :
  Html.match_charref r = Some (Html.RefDec ds, j) -> length ds <= length r.
Proof.
  unfold Html.match_charref. destruct r as [|c r']; [discriminate|].
  destruct (N.eqb c ch_hash).
  - pose proof (span_upto_length (length r') is_digit r') as L.
    unfold Html.span. destruct (Html.span_upto (length r') is_digit r')
      as [ds' r1]. simpl in L.
    destruct ds' as [|d ds'].
    + destruct r' as [|x r2]; [discriminate|].
      destruct (_ || _); [|discriminate].
      destruct (Html.span_upto _ _ _) as [[|h hs] r3]; discriminate.
    + intros [= <- _]. simpl in *. lia.
  - destruct (Html.span_upto 32 Html.is_name_char (c :: r')) as [[|x nm] r1];
      discriminate.
Qed.

(** Decoding fails only with [ValueError], only under a positive conversion
    limit, and only on a text longer than the limit. *)
Lemma charref_sub_error (E : Env) (s : str) :
  forall (k : nat) (e : exn),
    Html.charref_sub E k s = Raise e ->
    exn_cls e = ValueError
    /\ 0 < int_max_str_digits E < length s.
Proof.
  induction s as [|c r IH]; intros k e; simpl; [discriminate|].
  assert (Step : forall j (f : str -> str),
            rmap f (Html.charref_sub E j r) = Raise e ->
            exn_cls e = ValueError /\ 0 < int_max_str_digits E < S (length r)).
  { intros j f H. destruct (Html.charref_sub E j r) eqn:R; [discriminate|].
    injection H as ->. destruct (IH j e R) as (A & B). split; [exact A|lia]. }
  destruct k as [|k].
  - destruct (N.eqb c ch_amp); [|apply Step].
    destruct (Html.match_charref r) as [[ref j]|] eqn:Mr; [|apply Step].
    destruct ref as [ds|hs|nm]; simpl; try apply Step.
    unfold Html.int_dec.
    destruct ((0 <? int_max_str_digits E) && (int_max_str_digits E <? length ds))
      eqn:Lim; simpl; [|apply Step].
    intros [= <-]. apply andb_true_iff in Lim as [L1 L2].
    apply Nat.ltb_lt in L1, L2. apply match_charref_dec_length in Mr.
    simpl. split; [reflexivity|lia].
  - intros H. destruct (IH k e H) as (A & B). split; [exact A|lia].
Qed.

Lemma clean_text_error (E : Env) (v : value) (e : exn) :
  Preprocess.clean_text E v = Raise e ->
  exists s, v = VStr s /\ mem ch_amp s = true
            /\ exn_cls e = ValueError
            /\ 0 < int_max_str_digits E < length s.
Proof.
  destruct v as [| | |s|]; simpl; try discriminate.
  unfold Html.unescape. destruct (mem ch_amp s) eqn:A; simpl; [|discriminate].
  destruct (Html.charref_sub E 0 s) as [x|e'] eqn:R; simpl; [discriminate|].
  intros [= ->]. exists s. destruct (charref_sub_error E s 0 e R). auto.
Qed.

(** X6.  [clean_text] returns on every text that is not longer than the
    interpreter's conversion limit (4300 characters by default), and on
    every text when the limit is switched off. *)
Theorem clean_text_returns_within_limit (E : Env) (s : str) :
  int_max_str_digits E = 0 \/ length s <= int_max_str_digits E ->
  exists t, Preprocess.clean_text E (VStr s) = Ok t.
Proof.
  intros H. destruct (Preprocess.clean_text E (VStr s)) as [t|e] eqn:R;
    [now exists t|].
  apply clean_text_error in R as (s' & [= <-] & _ & _ & L). lia.
Qed.

Lemma clean_text_returns_within_limit_witness :
  exists t,
    Preprocess.clean_text Demo.env (VStr (u "&#00000000000000000000000065;"))
    = Ok t.
Proof.
  apply (clean_text_returns_within_limit Demo.env). right. simpl. lia.
Defined.

(** X7.  When [clean_text] raises, its argument is a string with an [&] in
    it and the error is the [ValueError] of an over-long decimal character
    reference: no other error leaves the function. *)
Theorem clean_text_raises_only_ValueError (E : Env) (v : value) (e : exn) :
  Preprocess.clean_text E v = Raise e ->
  is_str v = true /\ exn_cls e = ValueError /\ is_Exception e = true
  /\ 0 < int_max_str_digits E.
Proof.
  intros H. apply clean_text_error in H as (s & -> & _ & C & L).
  unfold is_Exception. rewrite C. repeat split. lia.
Qed.

Lemma clean_text_raises_only_ValueError_witness :
  exists e,
    Preprocess.clean_text Demo.env (VStr long_reference) = Raise e
    /\ exn_cls e = ValueError.
Proof.
  destruct (Preprocess.clean_text Demo.env (VStr long_reference))
    as [t|e] eqn:R; [vm_compute in R; discriminate|].
  exists e. split; [reflexivity|].
  apply (clean_text_raises_only_ValueError Demo.env (VStr long_reference) e R).
Defined.

(** ** batch_clean_text *)

(** X8.  [batch_clean_text] returns exactly when [clean_text] returns on
    every text, and then gives one cleaned text per input, in order. *)
Theorem batch_clean_text_ok_iff (E : Env) (texts : list value)
    (cs : list str) :
  Preprocess.batch_clean_text E texts = Ok cs
  <-> Forall2 (fun t c => Preprocess.clean_text E t = Ok c) texts cs.
Proof.
  revert cs. induction texts as [|t ts IH]; intros cs; simpl.
  - split.
    + intros [= <-]. constructor.
    + intros H. inversion H. reflexivity.
  - destruct (Preprocess.clean_text E t) as [c|e] eqn:C; simpl.
    + destruct (Preprocess.batch_clean_text E ts) as [cs'|e] eqn:B; simpl.
      * split.
        -- intros [= <-]. constructor; [assumption|]. now apply IH.
        -- intros H. inversion H as [|? c' ? cs'' Hc Hcs]; subst.
           apply IH in Hcs. congruence.
      * split; [discriminate|].
        intros H. inversion H as [|? c' ? cs'' Hc Hcs]; subst.
        apply IH in Hcs. discriminate.
    + split; [discriminate|].
      intros H. inversion H as [|? c' ? cs'' Hc Hcs]; subst. congruence.
Qed.

(** X9.  [batch_clean_text] stops at the first text that cannot be cleaned
    and raises its error; the texts cleaned before it are lost. *)
Theorem batch_clean_text_first_failure (E : Env) (before after : list value)
    (t : value) (cs : list str) (e : exn) :
  Forall2 (fun t c => Preprocess.clean_text E t = Ok c) before cs ->
  Preprocess.clean_text E t = Raise e ->
  Preprocess.batch_clean_text E (before ++ t :: after) = Raise e.
Proof.
  intros H Ht. induction H as [|b c bs cs' Hb _ IH]; simpl.
  - now rewrite Ht.
  - now rewrite Hb, IH.
Qed.

Lemma batch_clean_text_first_failure_witness :
  returns (Preprocess.batch_clean_text Demo.env
             ([VStr (u "Good"); VNone]
              ++ VStr long_reference :: [VStr (u "Lost")]))
  = false.
Proof.
  destruct (Preprocess.clean_text Demo.env (VStr long_reference))
    as [x|e] eqn:R; [vm_compute in R; discriminate|].
  rewrite (batch_clean_text_first_failure Demo.env
             [VStr (u "Good"); VNone] [VStr (u "Lost")]
             (VStr long_reference) [u "good"; []] e); auto.
Defined.

(** ** Tags *)

Lemma index_gt_app (x b : str) :
  mem ch_gt x = false -> Re.index_gt (x ++ ch_gt :: b) = Some (length x).
Proof.
  unfold mem. induction x as [|c r IH]; cbn [existsb app Re.index_gt length].
  - reflexivity.
  - rewrite orb_false_iff. intros [Hc Hr].
    rewrite N.eqb_sym, Hc, (IH Hr). reflexivity.
Qed.

Lemma skipn_app_exact {A} (x y : list A) : skipn (length x) (x ++ y) = y.
Proof. induction x; simpl; auto. Qed.

(** X10.  A tag is replaced by one space, whatever stands in it: after a
    part without [<], the text from a [<] to the next [>] (at least one
    character between them) is replaced by a space, and the substitution
    goes on behind it. *)
Theorem HTML_TAG_sub_tag (a tag b : str) :
  mem ch_lt a = false -> tag <> [] -> mem ch_gt tag = false ->
  Re.HTML_TAG_sub (a ++ ch_lt :: tag ++ ch_gt :: b)
  = a ++ ch_sp :: Re.HTML_TAG_sub b.
Proof.
  intros Ha Ht Hg. unfold Re.HTML_TAG_sub, Re.sub_space.
  induction a as [|c a IH].
  - destruct tag as [|t0 tag']; [congruence|].
    unfold mem in Hg. cbn [existsb] in Hg. apply orb_false_iff in Hg as [H0 Hg].
    cbn [app Re.sub_from]. unfold Re.tag_len at 1.
    rewrite N.eqb_sym in H0. rewrite H0. cbn [N.eqb Pos.eqb andb negb].
    rewrite (index_gt_app tag' b Hg). cbn [option_map Nat.add].
    f_equal. rewrite sub_from_skipn. f_equal.
    transitivity (skipn (length (tag' ++ [ch_gt])) ((tag' ++ [ch_gt]) ++ b));
      [|apply skipn_app_exact].
    f_equal.
    + rewrite length_app. simpl. lia.
    + now rewrite <- app_assoc.
  - unfold mem in Ha. cbn [existsb] in Ha. apply orb_false_iff in Ha as [Hc Ha].
    cbn [app Re.sub_from].
    assert (T : Re.tag_len (c :: a ++ ch_lt :: tag ++ ch_gt :: b) = None).
    { unfold Re.tag_len. rewrite N.eqb_sym in Hc.
      destruct (a ++ ch_lt :: tag ++ ch_gt :: b); [reflexivity|].
      now rewrite Hc. }
    rewrite T. f_equal. now apply IH.
Qed.

Lemma HTML_TAG_sub_tag_witness :
  Re.HTML_TAG_sub (u "a " ++ ch_lt :: u "b class='x<y'" ++ ch_gt :: u "bold")
  = u "a " ++ ch_sp :: Re.HTML_TAG_sub (u "bold").
Proof.
  apply HTML_TAG_sub_tag; [reflexivity | discriminate | reflexivity].
Defined.

(** X11.  Without a [>] there is no tag: a text that holds [<] but no [>]
    passes the tag substitution unchanged. *)
Theorem HTML_TAG_sub_unclosed (s : str) :
  mem ch_gt s = false -> Re.HTML_TAG_sub s = s.
Proof.
  intros H. apply sub_space_id.
  assert (G : forall x, mem ch_gt x = false -> Re.index_gt x = None).
  { clear. unfold mem. induction x as [|c r IH]; cbn [existsb Re.index_gt].
    - reflexivity.
    - rewrite orb_false_iff. intros [Hc Hr].
      rewrite N.eqb_sym, Hc, (IH Hr). reflexivity. }
  unfold mem in H. induction s as [|c r IH]; [reflexivity|].
  cbn [existsb] in H. apply orb_false_iff in H as [Hc Hr].
  cbn [Re.search].
  assert (T : Re.tag_len (c :: r) = None).
  { unfold Re.tag_len. destruct r as [|c1 r1]; [reflexivity|].
    cbn [existsb] in Hr. apply orb_false_iff in Hr as [_ Hr1].
    rewrite (G r1 Hr1). now destruct (_ && _). }
  rewrite T. now apply IH.
Qed.

Lemma HTML_TAG_sub_unclosed_witness :
  Re.HTML_TAG_sub (u "3 < 5 and a<b") = u "3 < 5 and a<b".
Proof. apply HTML_TAG_sub_unclosed. reflexivity. Defined.

(* ===================================================================== *)
(** * Further properties of the loader *)
(* ===================================================================== *)

Import DataLoader.

(** X12.  [clear_dataset_cache] never lets an [Exception] out and never
    touches the random generator; when the cache directory of the dataset
    is not there it does nothing at all. *)
Theorem clear_dataset_cache_contained (E : Env) (dataset_name : string)
    (w : World E) :
  (forall e, fst (clear_dataset_cache E dataset_name w) = Raise e ->
             is_Exception e = false)
  /\ rng (snd (clear_dataset_cache E dataset_name w)) = rng w
  /\ (path_exists E (dataset_cache_dir E dataset_name) (fs w) = false ->
      clear_dataset_cache E dataset_name w = (Ok tt, w)).
Proof.
  unfold clear_dataset_cache, try_except, bind, os_path_exists.
  fold (dataset_cache_dir E dataset_name). cbv beta iota.
  destruct (path_exists E (dataset_cache_dir E dataset_name) (fs w)).
  - unfold shutil_rmtree.
    destruct (rmtree E (dataset_cache_dir E dataset_name) (fs w))
      as [[[]|e0] f]; simpl.
    + repeat split; discriminate.
    + destruct (is_Exception e0) eqn:X; simpl.
      * repeat split; discriminate.
      * repeat split; try discriminate. now intros e [= <-].
  - simpl. repeat split; discriminate.
Qed.

Lemma clear_dataset_cache_contained_witness :
  clear_dataset_cache Demo.env "owner/comments" Demo.world
  = (Ok tt, Demo.world).
Proof.
  apply (clear_dataset_cache_contained Demo.env "owner/comments" Demo.world).
  reflexivity.
Defined.

(** ** The remote source, further *)

Lemma fallback_is_first_success (E : Env) (app_cfg : AppCfg) (w : World E) :
  load_dataset_with_fallback E app_cfg w
  = first_success E (strategies E app_cfg) (all_strategies_failed app_cfg) w.
Proof.
  unfold load_dataset_with_fallback, try_return, try_except,
    all_strategies_failed.
  cbn [first_success strategies].
  repeat match goal with
  | |- context [match ?m ?x with pair _ _ => _ end] =>
      destruct (m x) as [[?|?] ?]; try reflexivity
  | |- context [if is_Exception ?e then _ else _] =>
      destruct (is_Exception e); try reflexivity
  | |- _ => unfold bind at 1
  end.
Qed.

Lemma first_success_error {A} (E : Env)
    (l : list (M E A * (exn -> M E unit))) (fatal e : exn) (w : World E) :
  Forall (fun p => forall e0 w0, fst (snd p e0 w0) = Ok tt) l ->
  fst (first_success E l fatal w) = Raise e ->
  is_Exception e = true -> e = fatal.
Proof.
  intros H. revert w. induction H as [|[m r] l Hr _ IH]; intros w; simpl.
  - now intros [= <-].
  - destruct (m w) as [[a|e0] w'] eqn:R; simpl; [discriminate|].
    destruct (is_Exception e0) eqn:X; simpl.
    + unfold bind. specialize (Hr e0 w'). simpl in Hr.
      destruct (r e0 w') as [[[]|e1] w'']; simpl in *; [apply IH|discriminate].
    + intros [= <-] Y. congruence.
Qed.

(** X13.  The only [Exception] that leaves [load_dataset_with_fallback] is
    the [RuntimeError] that names the dataset: whatever errors the
    strategies meet are printed and dropped. *)
Theorem fallback_raises_only_RuntimeError (E : Env) (app_cfg : AppCfg)
    (w : World E) (e : exn) :
  fst (load_dataset_with_fallback E app_cfg w) = Raise e ->
  is_Exception e = true ->
  e = Exn RuntimeError
        ("All strategies failed to load dataset: " ++ cfg_hf_dataset app_cfg).
Proof.
  rewrite fallback_is_first_success. apply first_success_error.
  apply report_returns.
Qed.

Lemma fallback_raises_only_RuntimeError_witness :
  exists e,
    fst (load_dataset_with_fallback Demo.env (Demo.cfg "hf_remote" None)
           Demo.world) = Raise e
    /\ is_Exception e = true
    /\ e = Exn RuntimeError
             "All strategies failed to load dataset: owner/comments".
Proof.
  eexists. split; [vm_compute; reflexivity|]. split; [reflexivity|].
  apply (fallback_raises_only_RuntimeError Demo.env
           (Demo.cfg "hf_remote" None) Demo.world); reflexivity.
Defined.



(** ** The synthetic fallback, further *)

(** Where the source resolves to the synthetic data set, [load_dataset_any]
    returns it capped and cleaned, and leaves the file system as the
    fallback found it. *)
Lemma after_synthetic_fallback (E : Env) (app_cfg : AppCfg)
    (lines : list string) (w w0 : World E) :
  Permutation (permutation E 42 1000) (seq 0 1000) ->
  resolve_source E app_cfg w = synthetic_fallback E lines w0 ->
  exists train test w',
    load_dataset_any E app_cfg w = (Ok [("train", train); ("test", test)], w')
    /\ length train = capped (cfg_fast_limit app_cfg) 800
    /\ length test = capped (cfg_fast_limit app_cfg) 200
    /\ fs w' = fs w0.
Proof.
  intros P R.
  destruct (synthetic_fallback_run E lines w0) as (v & S & Fv & Gv).
  destruct (create_synthetic_dataset_run E P v)
    as (tr & te & g1 & C0 & Ltr & Lte & Ftr & Fte).
  rewrite S, C0 in R.
  set (w1 := mkWorld E (fs v) g1 (stdout v)) in *.
  assert (exists w2 tr' te',
    (match cfg_fast_limit app_cfg with
     | Some fast_limit =>
         apply_fast_limit E fast_limit [("train", tr); ("test", te)]
     | None => ret E [("train", tr); ("test", te)]
     end) w1 = (Ok [("train", tr'); ("test", te')], w2)
    /\ fs w2 = fs w1
    /\ length tr' = capped (cfg_fast_limit app_cfg) 800
    /\ length te' = capped (cfg_fast_limit app_cfg) 200
    /\ forallb row_amp_free tr' = true /\ forallb row_amp_free te' = true)
    as (w2 & tr' & te' & C & F2 & Ltr' & Lte' & Ftr' & Fte').
  { unfold capped. destruct (cfg_fast_limit app_cfg) as [N|].
    - destruct (apply_fast_limit_run E N [("train", tr); ("test", te)] w1)
        as (w2 & -> & F2 & _).
      exists w2, (cap_split N tr), (cap_split N te).
      rewrite !length_cap_split, Ltr, Lte.
      repeat split; auto using forallb_cap_split.
    - exists w1, tr, te. repeat split; auto. }
  destruct (Dataset_map_ok E (cfg_text_field app_cfg) tr' Ftr')
    as (ctr & Mtr & Lctr).
  destruct (Dataset_map_ok E (cfg_text_field app_cfg) te' Fte')
    as (cte & Mte & Lcte).
  exists ctr, cte, w2. repeat split; try congruence.
  - unfold load_dataset_any.
    rewrite (bind_ok E _ _ _ _ _ R).
    rewrite (bind_ok E _ _ _ _ _
               (eq_refl : ensure_splits E app_cfg [("train", tr); ("test", te)] w1
                          = (Ok [("train", tr); ("test", te)], w1))).
    rewrite (bind_ok E _ _ _ _ _ C).
    unfold lift. simpl. now rewrite Mtr, Mte.
  - rewrite F2. subst w1. simpl. exact Fv.
Qed.

(** X15.  With the source [hf_remote], a failed resolution does not fail
    the load: when [load_dataset_with_fallback] raises an [Exception],
    [load_dataset_any] returns the synthetic data set (800 and 200 records,
    under the row cap). *)
Theorem remote_failure_falls_back (E : Env) (app_cfg : AppCfg) (w : World E)
    (e : exn) :
  Permutation (permutation E 42 1000) (seq 0 1000) ->
  cfg_source app_cfg = "hf_remote" ->
  fst (load_dataset_with_fallback E app_cfg w) = Raise e ->
  is_Exception e = true ->
  exists train test w',
    load_dataset_any E app_cfg w = (Ok [("train", train); ("test", test)], w')
    /\ length train = capped (cfg_fast_limit app_cfg) 800
    /\ length test = capped (cfg_fast_limit app_cfg) 200.
Proof.
  intros P S He Hx.
  assert (R : resolve_source E app_cfg w
              = synthetic_fallback E
                  [("Hugging Face dataset loading failed: " ++ exn_msg e)%string;
                   "Falling back to synthetic dataset for testing..."%string]
                  (snd (load_dataset_with_fallback E app_cfg w))).
  { unfold resolve_source. rewrite S. simpl. unfold try_except.
    destruct (load_dataset_with_fallback E app_cfg w) as [[ds|e'] w'];
      simpl in *; [discriminate|].
    injection He as ->. now rewrite Hx. }
  destruct (after_synthetic_fallback E app_cfg _ w _ P R)
    as (tr & te & w' & A & B & C & _).
  exists tr, te, w'. auto.
Qed.

Lemma remote_failure_falls_back_witness :
  exists train test w',
    load_dataset_any Demo.env (Demo.cfg "hf_remote" (Some 500%Z)) Demo.world
    = (Ok [("train", train); ("test", test)], w')
    /\ length train = 500 /\ length test = 200.
Proof.
  apply (remote_failure_falls_back Demo.env (Demo.cfg "hf_remote" (Some 500%Z))
           Demo.world
           (Exn RuntimeError "All strategies failed to load dataset: owner/comments")
           (Permutation_refl _)); reflexivity.
Defined.

(** X16.  With the source [synthetic], [load_dataset_any] returns the
    synthetic data set (800 and 200 records, under the row cap) and leaves
    the file system and the hub cache as they were. *)
Theorem synthetic_source_keeps_files (E : Env) (app_cfg : AppCfg)
    (w : World E) :
  Permutation (permutation E 42 1000) (seq 0 1000) ->
  cfg_source app_cfg = "synthetic" ->
  exists train test w',
    load_dataset_any E app_cfg w = (Ok [("train", train); ("test", test)], w')
    /\ length train = capped (cfg_fast_limit app_cfg) 800
    /\ length test = capped (cfg_fast_limit app_cfg) 200
    /\ fs w' = fs w.
Proof.
  intros P S.
  apply (after_synthetic_fallback E app_cfg
           ["Using synthetic dataset for testing..."%string] w w P).
  unfold resolve_source. now rewrite S.
Qed.

Lemma synthetic_source_keeps_files_witness :
  exists train test w',
    load_dataset_any env_train_only (Demo.cfg "synthetic" None)
      world_train_only
    = (Ok [("train", train); ("test", test)], w')
    /\ length train = 800 /\ length test = 200
    /\ fs w' = fs world_train_only.
Proof.
  apply (synthetic_source_keeps_files env_train_only
           (Demo.cfg "synthetic" None) world_train_only).
  - apply Permutation_sym, Permutation_rev.
  - reflexivity.
Defined.

(** ** The stages of load_dataset_any *)

Lemma ensure_splits_run (E : Env) (app_cfg : AppCfg) (ds : DatasetDict)
    (w : World E) :
  ensure_splits E app_cfg ds w = (ensure_result E app_cfg ds, w).
Proof.
  unfold ensure_splits, ensure_result.
  destruct (lookup "train" ds) as [train|]; [|reflexivity].
  destruct (has_key "test" ds); [reflexivity|].
  unfold bind, lift. destruct (split_ratio_1 app_cfg) as [q|e]; simpl;
    [|reflexivity].
  now destruct (train_test_split E train q (cfg_seed app_cfg)).
Qed.

(** The result of [load_dataset_any]: resolve the source, ensure the splits,
    cap and clean. *)
Lemma load_dataset_any_result (E : Env) (app_cfg : AppCfg) (w : World E) :
  fst (load_dataset_any E app_cfg w)
  = rbind (fst (resolve_source E app_cfg w)) (fun ds =>
    rbind (ensure_result E app_cfg ds) (capped_and_cleaned E app_cfg)).
Proof.
  unfold load_dataset_any. unfold bind at 1.
  destruct (resolve_source E app_cfg w) as [[ds|e] w1]; simpl; [|reflexivity].
  unfold bind at 1. rewrite ensure_splits_run.
  destruct (ensure_result E app_cfg ds) as [ds1|e]; simpl; [|reflexivity].
  unfold bind, capped_and_cleaned.
  destruct (cfg_fast_limit app_cfg) as [N|].
  - destruct (apply_fast_limit_run E N ds1 w1) as (w2 & -> & _). reflexivity.
  - reflexivity.
Qed.

(** X17.  When the file of a local source is there but cannot be loaded,
    the error of [load_dataset] leaves [load_dataset_any] as it is: nothing
    is printed, no synthetic data is drawn. *)
Theorem local_file_error_propagates (E : Env) (app_cfg : AppCfg)
    (file : string) (w : World E) (e : exn) (f : FS E) :
  local_file (cfg_source app_cfg) = Some file ->
  path_exists E (cfg_data_dir app_cfg ++ "/" ++ file)%string (fs w) = true ->
  hub_load E
    (mkReq (local_builder (cfg_source app_cfg))
       (Some ("train", (cfg_data_dir app_cfg ++ "/" ++ file)%string))
       None false false)
    (fs w) = (Raise e, f) ->
  load_dataset_any E app_cfg w = (Raise e, mkWorld E f (rng w) (stdout w)).
Proof.
  intros Hsrc Hex Hload. unfold load_dataset_any, resolve_source.
  unfold local_file, local_builder in *.
  destruct (String.eqb_spec (cfg_source app_cfg) "hf_remote") as [q|_];
    [rewrite q in Hsrc; discriminate|].
  destruct (String.eqb (cfg_source app_cfg) "local_json");
    [|destruct (String.eqb (cfg_source app_cfg) "local_parquet");
      [|destruct (String.eqb (cfg_source app_cfg) "csv"); [|discriminate]]];
    injection Hsrc as <-;
    unfold load_local, bind, os_path_exists, load_dataset;
    rewrite Hex, Hload; reflexivity.
Qed.

Lemma local_file_error_propagates_witness :
  load_dataset_any env_train_only (Demo.cfg "local_parquet" None)
    world_train_only
  = (Raise (Exn OtherException "offline"), world_train_only).
Proof.
  apply (local_file_error_propagates env_train_only
           (Demo.cfg "local_parquet" None) "train.parquet" world_train_only);
    reflexivity.
Defined.



Lemma has_key_test_made (tr te : Dataset) :
  has_key "test" [("train", tr); ("test", te)] = true.
Proof. reflexivity. Qed.

(** X19.  Splits are made only when they are needed and only once: a data
    set without a train split, or with a test split, passes "Ensure splits"
    unchanged, whatever the ratio and the seed are; what "Ensure splits"
    returns has a test split whenever the data set had a train split, and
    passes "Ensure splits" unchanged again; and a train split without rows
    comes back as an empty train and an empty test split, whatever
    [split_ratio[1]] is. *)
Theorem ensure_splits_only_when_needed (E : Env) (app_cfg : AppCfg)
    (ds : DatasetDict) (w : World E) :
  (has_key "train" ds = false \/ has_key "test" ds = true ->
   ensure_splits E app_cfg ds w = (Ok ds, w))
  /\ (forall ds' w',
        ensure_splits E app_cfg ds w = (Ok ds', w') ->
        ensure_splits E app_cfg ds' w' = (Ok ds', w')
        /\ (has_key "train" ds = true -> has_key "test" ds' = true))
  /\ (forall test_size,
        lookup "train" ds = Some [] -> has_key "test" ds = false ->
        split_ratio_1 app_cfg = Ok test_size ->
        ensure_splits E app_cfg ds w = (Ok [("train", []); ("test", [])], w)).
Proof.
  rewrite ensure_splits_run. unfold ensure_result, has_key.
  destruct (lookup "train" ds) as [train|] eqn:T.
  - destruct (lookup "test" ds) as [test|] eqn:X.
    + split; [reflexivity|]. split; [|discriminate].
      intros ds' w' [= <- <-].
      rewrite ensure_splits_run. unfold ensure_result, has_key.
      rewrite T, X. auto.
    + split; [intros [H|H]; discriminate|]. split.
      * intros ds' w'. destruct (split_ratio_1 app_cfg) as [q|e]; simpl;
          [|discriminate].
        destruct (train_test_split E train q (cfg_seed app_cfg))
          as [[tr te]|e]; simpl; [|discriminate].
        intros [= <- <-]. rewrite ensure_splits_run. auto.
      * intros q [= ->] _ ->. reflexivity.
  - split; [reflexivity|]. split; [|discriminate].
    intros ds' w' [= <- <-].
    rewrite ensure_splits_run. unfold ensure_result. rewrite T.
    split; [reflexivity|discriminate].
Qed.

Lemma ensure_splits_only_when_needed_witness :
  let made : DatasetDict :=
    [("train", map (fun i => [("text", VStr (u "Row")); ("id", VInt i)])
                 [3; 2; 1; 0]%Z);
     ("test", [[("text", VStr (u "Row")); ("id", VInt 4)]])] in
  ensure_splits env_train_only (Demo.cfg "csv" None) made world_train_only
  = (Ok made, world_train_only)
  /\ has_key "test" made = true.
Proof.
  intros made.
  destruct (proj1 (proj2 (ensure_splits_only_when_needed env_train_only
                            (Demo.cfg "csv" None) [("train", five_rows)]
                            world_train_only))
              made world_train_only) as [A B].
  - vm_compute. reflexivity.
  - split; [exact A|]. apply B. reflexivity.
Defined.

(** ** Rows and the cleaning pass *)

Lemma lookup_row_set_same (k : string) (v : value) (ex : Row) :
  lookup k (row_set k v ex) = Some v.
Proof.
  induction ex as [|[k' v'] r IH]; simpl.
  - now rewrite String.eqb_refl.
  - destruct (String.eqb k k') eqn:Q; simpl.
    + now rewrite String.eqb_refl.
    + now rewrite Q.
Qed.

Lemma lookup_row_set_other (k k0 : string) (v : value) (ex : Row) :
  k0 <> k -> lookup k0 (row_set k v ex) = lookup k0 ex.
Proof.
  intros N. induction ex as [|[k' v'] r IH]; simpl.
  - apply String.eqb_neq in N. now rewrite N.
  - destruct (String.eqb_spec k k') as [<-|Q]; simpl.
    + apply String.eqb_neq in N. now rewrite N.
    + now rewrite IH.
Qed.

Lemma row_set_keys (k : string) (v : value) (ex : Row) :
  map fst (row_set k v ex)
  = if has_key k ex then map fst ex else map fst ex ++ [k].
Proof.
  unfold has_key. induction ex as [|[k' v'] r IH]; cbn [row_set lookup].
  - reflexivity.
  - destruct (String.eqb_spec k k') as [<-|Q]; [reflexivity|].
    cbn [map fst]. rewrite IH. now destruct (lookup k r).
Qed.

Lemma cleaned_nil : cleaned [].
Proof. now repeat split. Qed.

Lemma clean_text_value_cleaned (E : Env) (v : value) (t : str) :
  Preprocess.clean_text E v = Ok t -> cleaned t.
Proof.
  destruct v as [| | |s|]; try (intros [= <-]; apply cleaned_nil).
  apply clean_text_cleaned.
Qed.

Lemma map_clean_inv (E : Env) (field : string) (ex ex' : Row) :
  map_clean E field ex = Ok ex' ->
  exists t,
    Preprocess.clean_text E (row_get field (VStr []) ex) = Ok t
    /\ cleaned t /\ ex' = row_set "text" (VStr t) ex.
Proof.
  unfold map_clean.
  destruct (Preprocess.clean_text E (row_get field (VStr []) ex)) as [t|e]
    eqn:C; simpl; [|discriminate].
  intros [= <-]. exists t. split; [reflexivity|]. split; [|reflexivity].
  apply (clean_text_value_cleaned E _ t C).
Qed.

(** X20.  [_map_clean] sets the column [text] of a record to the cleaned
    value of the configured text column and keeps every other column; when
    the configured column is [text] itself, the raw text is overwritten. *)
Theorem map_clean_sets_text (E : Env) (field : string) (ex ex' : Row) :
  map_clean E field ex = Ok ex' ->
  exists t,
    Preprocess.clean_text E (row_get field (VStr []) ex) = Ok t
    /\ cleaned t
    /\ lookup "text" ex' = Some (VStr t)
    /\ (forall k, k <> "text" -> lookup k ex' = lookup k ex)
    /\ map fst ex' = (if has_key "text" ex then map fst ex
                      else map fst ex ++ ["text"]).
Proof.
  intros H. apply map_clean_inv in H as (t & C & Ct & ->).
  exists t. split; [exact C|]. split; [exact Ct|].
  split; [|split].
  - apply lookup_row_set_same.
  - intros k N. now apply lookup_row_set_other.
  - apply row_set_keys.
Qed.

Lemma map_clean_sets_text_witness :
  exists t,
    Preprocess.clean_text Demo.env
      (row_get "body" (VStr []) [("id", VInt 7); ("body", VStr (u "Some <i>TEXT</i>"))])
    = Ok t
    /\ cleaned t
    /\ lookup "text" [("id", VInt 7); ("body", VStr (u "Some <i>TEXT</i>"));
                      ("text", VStr (u "some text"))] = Some (VStr t)
    /\ (forall k, k <> "text" ->
          lookup k [("id", VInt 7); ("body", VStr (u "Some <i>TEXT</i>"));
                    ("text", VStr (u "some text"))]
          = lookup k [("id", VInt 7); ("body", VStr (u "Some <i>TEXT</i>"))])
    /\ map fst [("id", VInt 7); ("body", VStr (u "Some <i>TEXT</i>"));
                ("text", VStr (u "some text"))]
       = ["id"; "body"] ++ ["text"].
Proof.
  apply (map_clean_sets_text Demo.env "body"
           [("id", VInt 7); ("body", VStr (u "Some <i>TEXT</i>"))]).
  reflexivity.
Defined.

(** X21.  A record without the configured text column, or with a value in
    it that is not a string (a null, a number), gets the empty text: no
    error is raised and the record is kept. *)
Theorem map_clean_without_text (E : Env) (field : string) (ex : Row) :
  is_str (row_get field (VStr []) ex) = false
  \/ lookup field ex = None ->
  map_clean E field ex = Ok (row_set "text" (VStr []) ex).
Proof.
  unfold map_clean, row_get. intros [H|H].
  - now rewrite (clean_text_not_str E _ H).
  - rewrite H. reflexivity.
Qed.

Lemma map_clean_without_text_witness :
  map_clean Demo.env "comment" [("id", VInt 3); ("comment", VNone)]
  = Ok [("id", VInt 3); ("comment", VNone); ("text", VStr [])].
Proof.
  apply (map_clean_without_text Demo.env "comment"
           [("id", VInt 3); ("comment", VNone)]).
  left. reflexivity.
Defined.

Lemma Dataset_map_In (f : Row -> result Row) (rows rs : Dataset) (row : Row) :
  Dataset_map f rows = Ok rs -> In row rs ->
  exists ex, In ex rows /\ f ex = Ok row.
Proof.
  revert rs. induction rows as [|ex r IH]; simpl; intros rs.
  - intros [= <-] [].
  - destruct (f ex) as [ex'|] eqn:F; simpl; [|discriminate].
    destruct (Dataset_map f r) as [r'|]; simpl; [|discriminate].
    intros [= <-] [<-|I].
    + exists ex. auto.
    + destruct (IH r' eq_refl I) as (x & Ix & Fx). exists x. auto.
Qed.

Lemma DatasetDict_map_In (f : Row -> result Row) (ds ds' : DatasetDict)
    (name : string) (rs : Dataset) :
  DatasetDict_map f ds = Ok ds' -> In (name, rs) ds' ->
  exists rows, In (name, rows) ds /\ Dataset_map f rows = Ok rs.
Proof.
  revert ds'. induction ds as [|[n rows] r IH]; simpl; intros ds'.
  - intros [= <-] [].
  - destruct (Dataset_map f rows) as [rows'|] eqn:F; simpl; [|discriminate].
    destruct (DatasetDict_map f r) as [r'|]; simpl; [|discriminate].
    intros [= <-] [[= <- <-]|I].
    + exists rows. auto.
    + destruct (IH r' eq_refl I) as (x & Ix & Fx). exists x. auto.
Qed.

Lemma DatasetDict_map_keys (f : Row -> result Row) (ds ds' : DatasetDict) :
  DatasetDict_map f ds = Ok ds' -> map fst ds' = map fst ds.
Proof.
  revert ds'. induction ds as [|[n rows] r IH]; simpl; intros ds'.
  - now intros [= <-].
  - destruct (Dataset_map f rows) as [rows'|]; simpl; [|discriminate].
    destruct (DatasetDict_map f r) as [r'|]; simpl; [|discriminate].
    intros [= <-]. simpl. now rewrite (IH r' eq_refl).
Qed.

Lemma has_key_keys {A B} (k : string) (a : list (string * A))
    (b : list (string * B)) :
  map fst a = map fst b -> has_key k a = has_key k b.
Proof.
  unfold has_key. revert b.
  induction a as [|[ka va] a IH]; intros [|[kb vb] b]; simpl;
    try discriminate; auto.
  intros [= -> H]. destruct (String.eqb k kb); auto.
Qed.

Lemma load_dataset_any_inv (E : Env) (app_cfg : AppCfg) (w w' : World E)
    (ds : DatasetDict) :
  load_dataset_any E app_cfg w = (Ok ds, w') ->
  exists ds0 ds1,
    ensure_result E app_cfg ds0 = Ok ds1
    /\ capped_and_cleaned E app_cfg ds1 = Ok ds.
Proof.
  intros H. apply (f_equal fst) in H. rewrite load_dataset_any_result in H.
  simpl in H. destruct (fst (resolve_source E app_cfg w)) as [ds0|];
    simpl in H; [|discriminate].
  destruct (ensure_result E app_cfg ds0) as [ds1|] eqn:R; simpl in H;
    [|discriminate].
  exists ds0, ds1. auto.
Qed.

(** X22.  Every record of every split that [load_dataset_any] returns, from
    whatever source, has a [text] column that holds a cleaned text. *)
Theorem load_dataset_any_text_cleaned (E : Env) (app_cfg : AppCfg)
    (w w' : World E) (ds : DatasetDict) :
  load_dataset_any E app_cfg w = (Ok ds, w') ->
  forall name rows row,
    In (name, rows) ds -> In row rows ->
    exists t, lookup "text" row = Some (VStr t) /\ cleaned t.
Proof.
  intros H name rows row In1 In2.
  apply load_dataset_any_inv in H as (ds0 & ds1 & _ & C).
  unfold capped_and_cleaned in C.
  destruct (DatasetDict_map_In _ _ _ _ _ C In1) as (rows1 & _ & M).
  destruct (Dataset_map_In _ _ _ _ M In2) as (ex & _ & F).
  apply map_clean_inv in F as (t & _ & Ct & ->).
  exists t. split; [apply lookup_row_set_same | exact Ct].
Qed.

Lemma load_dataset_any_text_cleaned_witness :
  exists t,
    lookup "text" [("text", VStr (u "bad!!")); ("id", VInt 1)]
    = Some (VStr t) /\ cleaned t.
Proof.
  destruct (load_dataset_any Demo.env_unverified (Demo.cfg "hf_remote" None)
              Demo.world_unverified) as [r w'] eqn:R.
  assert (r = Ok [("train", [[("text", VStr (u "fine good")); ("id", VInt 0)]]);
                  ("test", [[("text", VStr (u "bad!!")); ("id", VInt 1)]])])
    as -> by (apply (f_equal fst) in R; vm_compute in R; now subst r).
  apply (load_dataset_any_text_cleaned _ _ _ _ _ R "test"
           [[("text", VStr (u "bad!!")); ("id", VInt 1)]]).
  - right. left. reflexivity.
  - left. reflexivity.
Defined.

Lemma ensure_result_has_test (E : Env) (app_cfg : AppCfg)
    (ds ds1 : DatasetDict) :
  ensure_result E app_cfg ds = Ok ds1 ->
  has_key "train" ds1 = true -> has_key "test" ds1 = true.
Proof.
  unfold ensure_result, has_key.
  destruct (lookup "train" ds) as [train|] eqn:T.
  - destruct (lookup "test" ds) as [test|] eqn:X.
    + intros [= <-]. now rewrite X.
    + destruct (split_ratio_1 app_cfg) as [q|e]; simpl; [|discriminate].
      destruct (train_test_split E train q (cfg_seed app_cfg)) as [[tr te]|e];
        simpl; [|discriminate].
      now intros [= <-].
  - intros [= <-]. rewrite T. discriminate.
Qed.

(** X23.  A data set that [load_dataset_any] returns with a train split has
    a test split too, so that the callers' [ds["test"]] finds one. *)
Theorem load_dataset_any_has_test (E : Env) (app_cfg : AppCfg)
    (w w' : World E) (ds : DatasetDict) :
  load_dataset_any E app_cfg w = (Ok ds, w') ->
  has_key "train" ds = true -> has_key "test" ds = true.
Proof.
  intros H. apply load_dataset_any_inv in H as (ds0 & ds1 & R & C).
  unfold capped_and_cleaned in C. apply DatasetDict_map_keys in C.
  assert (K : map fst ds = map fst ds1).
  { rewrite C. destruct (cfg_fast_limit app_cfg); [|reflexivity].
    unfold cap_each. rewrite map_map. reflexivity. }
  rewrite !(has_key_keys _ ds ds1 K). now apply (ensure_result_has_test E app_cfg ds0).
Qed.

Lemma load_dataset_any_has_test_witness :
  has_key "test"
    [("train", map (fun i => [("text", VStr (u "row")); ("id", VInt i)])
                 [3; 2; 1; 0]%Z);
     ("test", [[("text", VStr (u "row")); ("id", VInt 4)]])] = true.
Proof.
  destruct (load_dataset_any env_train_only (Demo.cfg "csv" None)
              world_train_only) as [r w'] eqn:R.
  assert (r = Ok [("train", map (fun i => [("text", VStr (u "row")); ("id", VInt i)])
                              [3; 2; 1; 0]%Z);
                  ("test", [[("text", VStr (u "row")); ("id", VInt 4)]])])
    as -> by (apply (f_equal fst) in R; vm_compute in R; now subst r).
  apply (load_dataset_any_has_test _ _ _ _ _ R). reflexivity.
Defined.

(** ** The row cap, further *)

(** X24.  Capping twice is capping with the smaller limit; in particular
    the cap is idempotent. *)
Theorem cap_split_twice {A} (N M : Z) (rows : list A) :
  cap_split N (cap_split M rows) = cap_split (Z.min N M) rows.
Proof.
  unfold cap_split.
  destruct (Z.ltb_spec M (Z.of_nat (length rows))) as [HM|HM].
  - rewrite length_firstn.
    destruct (Z.ltb_spec N (Z.of_nat (Nat.min (Z.to_nat M) (length rows))))
      as [HN|HN].
    + destruct (Z.ltb_spec (Z.min N M) (Z.of_nat (length rows))); [|lia].
      rewrite firstn_firstn. f_equal. lia.
    + destruct (Z.ltb_spec (Z.min N M) (Z.of_nat (length rows))); [|lia].
      f_equal. lia.
  - destruct (Z.ltb_spec N (Z.of_nat (length rows))) as [HN|HN].
    + destruct (Z.ltb_spec (Z.min N M) (Z.of_nat (length rows))); [|lia].
      f_equal. lia.
    + destruct (Z.ltb_spec (Z.min N M) (Z.of_nat (length rows))); [lia|].
      reflexivity.
Qed.

(** X25.  Under a configured [fast_limit] no split that [load_dataset_any]
    returns has more records than the limit; with a limit of 0 or less
    every split comes back empty. *)
Theorem load_dataset_any_respects_cap (E : Env) (app_cfg : AppCfg)
    (w w' : World E) (ds : DatasetDict) (N : Z) :
  load_dataset_any E app_cfg w = (Ok ds, w') ->
  cfg_fast_limit app_cfg = Some N ->
  forall name rows, In (name, rows) ds -> length rows <= Z.to_nat N.
Proof.
  intros H L name rows I.
  apply load_dataset_any_inv in H as (ds0 & ds1 & _ & C).
  unfold capped_and_cleaned in C. rewrite L in C.
  destruct (DatasetDict_map_In _ _ _ _ _ C I) as (rows1 & I1 & M).
  destruct (Dataset_map_firstn _ 0 _ _ M) as [-> _].
  unfold cap_each in I1. apply in_map_iff in I1 as ([n x] & [= _ <-] & _).
  rewrite length_cap_split. lia.
Qed.

Lemma load_dataset_any_respects_cap_witness :
  length (map (fun i => [("text", VStr (u "row")); ("id", VInt i)])
            [3; 2; 1]%Z) <= Z.to_nat 3.
Proof.
  destruct (load_dataset_any env_train_only (Demo.cfg "csv" (Some 3%Z))
              world_train_only) as [r w'] eqn:R.
  assert (r = Ok [("train", map (fun i => [("text", VStr (u "row")); ("id", VInt i)])
                              [3; 2; 1]%Z);
                  ("test", [[("text", VStr (u "row")); ("id", VInt 4)]])])
    as -> by (apply (f_equal fst) in R; vm_compute in R; now subst r).
  apply (load_dataset_any_respects_cap _ _ _ _ _ 3%Z R eq_refl "train").
  left. reflexivity.
Defined.

(** X26.  The row cap prints one line for every split it cuts, in the
    order of the splits, and nothing for the others. *)
Theorem fast_limit_prints_cut_splits (E : Env) (N : Z) (ds : DatasetDict)
    (w : World E) :
  stdout (snd (apply_fast_limit E N ds w))
  = stdout w
    ++ map (fun p => limiting_line N (fst p))
         (filter (fun p => (N <? Z.of_nat (length (snd p)))%Z) ds).
Proof.
  revert w. induction ds as [|[name rows] rest IH]; intros w.
  - simpl. now rewrite app_nil_r.
  - cbn [apply_fast_limit filter snd fst]. unfold bind at 1.
    destruct (N <? Z.of_nat (length rows))%Z.
    + cbn [print]. unfold bind at 1.
      specialize (IH (mkWorld E (fs w) (rng w)
                        (stdout w ++ [limiting_line N name]))).
      unfold limiting_line in IH at 1.
      destruct (apply_fast_limit E N rest _) as [[r|e] w1]; simpl in *;
        rewrite IH, <- app_assoc; reflexivity.
    + cbn [ret]. unfold bind at 1. specialize (IH w).
      destruct (apply_fast_limit E N rest w) as [[r|e] w1]; simpl in *;
        exact IH.
Qed.

(** ** The synthetic data set, further *)

Lemma random_choice_in {A} (E : Env) (seq : list A) (d : A) (w : World E) :
  seq <> [] ->
  exists x g,
    random_choice E seq d w = (Ok x, mkWorld E (fs w) g (stdout w))
    /\ In x seq.
Proof.
  intros N. unfold random_choice.
  destruct (randbelow E (length seq) (rng w)) as [i g].
  exists (nth (i mod length seq) seq d), g. split; [reflexivity|].
  apply nth_In. apply Nat.mod_upper_bound.
  destruct seq; [congruence|discriminate].
Qed.

Lemma synthetic_example_shape (E : Env) (i : nat) (w : World E) :
  exists row g,
    synthetic_example E i w = (Ok row, mkWorld E (fs w) g (stdout w))
    /\ is_synthetic_row i row.
Proof.
  unfold synthetic_example, bind.
  destruct (random_choice_in E ["positive"; "negative"; "neutral"] "positive" w)
    as (label & g1 & -> & Il); [discriminate|].
  set (w1 := mkWorld E (fs w) g1 (stdout w)).
  assert (T : (if String.eqb label "positive"
               then random_choice E positive_texts []
               else if String.eqb label "negative"
               then random_choice E negative_texts []
               else random_choice E neutral_texts [])
              = random_choice E (synthetic_texts label) []).
  { unfold synthetic_texts. destruct (String.eqb label "positive"); auto.
    destruct (String.eqb label "negative"); auto. }
  rewrite T.
  destruct (random_choice_in E (synthetic_texts label) [] w1)
    as (base & g2 & -> & Ib).
  { simpl in Il. decompose [or] Il; try contradiction; subst label;
      discriminate. }
  eexists. exists g2. split; [reflexivity|].
  exists label, base. auto.
Qed.

Lemma synthetic_examples_shape (E : Env) (k : nat) :
  forall (i : nat) (w : World E),
  exists rows g,
    synthetic_examples E k i w = (Ok rows, mkWorld E (fs w) g (stdout w))
    /\ length rows = k
    /\ forall row, In row rows -> exists j, i <= j < i + k /\ is_synthetic_row j row.
Proof.
  induction k as [|k IH]; intros i w.
  - exists [], (rng w). destruct w. repeat split. intros row [].
  - cbn [synthetic_examples]. unfold bind at 1.
    destruct (synthetic_example_shape E i w) as (row & g1 & -> & Hr).
    unfold bind at 1.
    destruct (IH (S i) (mkWorld E (fs w) g1 (stdout w)))
      as (rows & g2 & -> & L & Hrows).
    exists (row :: rows), g2. simpl. repeat split; [now rewrite L|].
    intros x [<-|I].
    + exists i. split; [lia|assumption].
    + destruct (Hrows x I) as (j & B & S). exists j. split; [lia|assumption].
Qed.

Lemma select_In {A} (rows out : list A) (idx : list nat) (x : A) :
  select rows idx = Ok out -> In x out -> In x rows.
Proof.
  revert out. induction idx as [|i idx IH]; simpl; intros out.
  - intros [= <-] [].
  - destruct (nth_error rows i) as [row|] eqn:Ni; [|discriminate].
    destruct (select rows idx) as [o|]; simpl; [|discriminate].
    intros [= <-] [<-|I].
    + eapply nth_error_In; eauto.
    + eapply IH; eauto.
Qed.

Lemma train_test_split_In {A} (E : Env) (rows tr te : list A) (q : number)
    (seed : Z) (x : A) :
  train_test_split E rows q seed = Ok (tr, te) ->
  In x (tr ++ te) -> In x rows.
Proof.
  unfold train_test_split.
  destruct (length rows =? 0).
  { intros [= <- <-] I. apply in_app_or in I. tauto. }
  destruct (split_sizes E q (Z.of_nat (length rows))) as [sizes|e];
    cbn [rbind]; [|discriminate].
  destruct (select rows (firstn _ (skipn _ _))) as [a|] eqn:Sa;
    cbn [rbind]; [|discriminate].
  destruct (select rows (firstn _ (permutation _ _ _))) as [b|] eqn:Sb;
    cbn [rbind]; [|discriminate].
  intros [= <- <-] I. apply in_app_or in I as [I|I].
  - exact (select_In _ _ _ _ Sa I).
  - exact (select_In _ _ _ _ Sb I).
Qed.

(** X27.  Every record of the synthetic data set is consistent: its text
    is a sentence from the list of its own label followed by
    [" This is comment #<id+1> about the proposed policy."], its label is
    one of the three, and its id is below the requested size.  Making the
    data set prints nothing and leaves the file system alone. *)
Theorem synthetic_rows_consistent (E : Env) (num_examples : Z)
    (w w' : World E) (ds : DatasetDict) :
  create_synthetic_dataset E num_examples w = (Ok ds, w') ->
  fs w' = fs w /\ stdout w' = stdout w
  /\ forall name rows row,
       In (name, rows) ds -> In row rows ->
       exists i, i < Z.to_nat num_examples /\ is_synthetic_row i row.
Proof.
  unfold create_synthetic_dataset. unfold bind at 1.
  destruct (synthetic_examples_shape E (Z.to_nat num_examples) 0 w)
    as (all & g & -> & L & Hall).
  unfold bind, lift.
  destruct (train_test_split E all (NFloat Float.f0_2) 42)
    as [[tr te]|e] eqn:T;
    simpl; [|discriminate].
  intros [= <- <-]. simpl. repeat split.
  intros name rows row I1 I2.
  assert (I : In row (tr ++ te)).
  { simpl in I1. destruct I1 as [[= _ <-]|[[= _ <-]|[]]];
      apply in_or_app; auto. }
  apply (train_test_split_In E _ _ _ _ _ _ T) in I.
  destruct (Hall row I) as (j & B & S). exists j. split; [lia|assumption].
Qed.

Lemma synthetic_rows_consistent_witness :
  let r := create_synthetic_dataset Demo.env 5 Demo.world in
  fs (snd r) = fs Demo.world /\ stdout (snd r) = stdout Demo.world.
Proof.
  intros r. subst r.
  destruct (create_synthetic_dataset Demo.env 5 Demo.world) as [r w'] eqn:R.
  assert (exists ds, r = Ok ds) as [ds ->].
  { apply (f_equal fst) in R. vm_compute in R. subst r. eexists. reflexivity. }
  destruct (synthetic_rows_consistent Demo.env 5 Demo.world w' ds R)
    as (F & S & _).
  split; assumption.
Defined.

Lemma select_nth {A} (rows : list A) (idx : list nat) (d : A) :
  Forall (fun i => i < length rows) idx ->
  select rows idx = Ok (map (fun i => nth i rows d) idx).
Proof.
  induction 1 as [|i idx Hi _ IH]; [reflexivity|].
  cbn [select map]. destruct (nth_error rows i) as [row|] eqn:N.
  - rewrite IH. simpl. now rewrite (nth_error_nth _ _ d N).
  - apply nth_error_None in N. lia.
Qed.

Lemma map_nth_seq {A} (rows : list A) (d : A) :
  map (fun i => nth i rows d) (seq 0 (length rows)) = rows.
Proof.
  induction rows as [|x rows IH]; [reflexivity|].
  cbn [length seq map nth]. f_equal.
  rewrite <- seq_shift, map_map. exact IH.
Qed.

(** The split of the [datasets] library on a valid permutation: nothing is
    lost and nothing is doubled. *)
Lemma train_test_split_run {A} (E : Env) (rows : list A) (q : number)
    (seed : Z) (n_train n_test : nat) :
  split_sizes E q (Z.of_nat (length rows))
  = Ok (Z.of_nat n_train, Z.of_nat n_test) ->
  0 < n_train -> n_train + n_test = length rows ->
  Permutation (permutation E seed (length rows)) (seq 0 (length rows)) ->
  exists train test,
    train_test_split E rows q seed = Ok (train, test)
    /\ length test = n_test /\ length train = n_train
    /\ Permutation (train ++ test) rows.
Proof.
  intros S Hn Hs HP.
  destruct (permutation_bounded _ _ HP) as [Lp Bp].
  assert (d : A) by (destruct rows; [exfalso; simpl in *; lia|assumption]).
  unfold train_test_split.
  replace (length rows =? 0) with false by (symmetry; apply Nat.eqb_neq; lia).
  rewrite S. cbn [rbind fst snd]. rewrite !Nat2Z.id.
  assert (F : firstn n_train (skipn n_test (permutation E seed (length rows)))
              = skipn n_test (permutation E seed (length rows))).
  { apply firstn_all2. rewrite length_skipn. lia. }
  rewrite F.
  rewrite (select_nth rows _ d) by now apply Forall_skipn.
  rewrite (select_nth rows _ d) by now apply Forall_firstn.
  cbn [rbind]. do 2 eexists. split; [reflexivity|].
  rewrite !length_map, length_firstn, length_skipn, Lp.
  split; [lia|]. split; [lia|].
  rewrite <- map_app.
  apply Permutation_trans
    with (l' := map (fun i => nth i rows d) (seq 0 (length rows)));
    [|now rewrite map_nth_seq].
  apply Permutation_map.
  rewrite Permutation_app_comm, firstn_skipn. exact HP.
Qed.

(** ** Floating-point arithmetic: the test share of a fifth *)

Section FloatFacts.
Local Open Scope Z_scope.

Lemma digits2_pos_bounds (p : positive) :
  2 ^ (Zpos (digits2_pos p) - 1) <= Zpos p < 2 ^ Zpos (digits2_pos p).
Proof.
  induction p as [p IH|p IH|]; cbn [digits2_pos].
  - rewrite Pos2Z.inj_succ, (Pos2Z.inj_xI p).
    replace (Z.succ (Zpos (digits2_pos p)) - 1)
      with (Z.succ (Zpos (digits2_pos p) - 1)) by lia.
    rewrite !Z.pow_succ_r by lia. hide_pow. lia.
  - rewrite Pos2Z.inj_succ, (Pos2Z.inj_xO p).
    replace (Z.succ (Zpos (digits2_pos p)) - 1)
      with (Z.succ (Zpos (digits2_pos p) - 1)) by lia.
    rewrite !Z.pow_succ_r by lia. hide_pow. lia.
  - simpl. lia.
Qed.

Lemma digits2_pos_unique (p : positive) (D : Z) :
  2 ^ (D - 1) <= Zpos p < 2 ^ D -> Zpos (digits2_pos p) = D.
Proof.
  intros [L U]. destruct (digits2_pos_bounds p) as [L' U'].
  assert (0 < D).
  { destruct (Z.lt_trichotomy D 0) as [N|[N|N]]; [|subst D; simpl in U; lia|lia].
    rewrite (Z.pow_neg_r 2 D N) in U. lia. }
  destruct (Z.lt_trichotomy (Zpos (digits2_pos p)) D) as [N|[N|N]]; [|exact N|].
  - assert (2 ^ Zpos (digits2_pos p) <= 2 ^ (D - 1))
      by (apply Z.pow_le_mono_r; lia). lia.
  - assert (2 ^ D <= 2 ^ (Zpos (digits2_pos p) - 1))
      by (apply Z.pow_le_mono_r; lia). lia.
Qed.

Lemma iter_pos_nat {A} (f : A -> A) (p : positive) :
  forall x, iter_pos f p x = Nat.iter (Pos.to_nat p) f x.
Proof.
  assert (H : forall x, iter_pos f p x = Pos.iter f x p).
  { induction p as [p IH|p IH|]; intros x; cbn [iter_pos Pos.iter].
    - rewrite !IH, !Pos.iter_swap. reflexivity.
    - rewrite !IH. reflexivity.
    - reflexivity. }
  intros x. rewrite H. apply Pos2Nat.inj_iter.
Qed.

Lemma shr_1_nonneg (m : Z) (r s : bool) :
  0 <= m ->
  shr_1 (Build_shr_record m r s)
  = Build_shr_record (m / 2) (Z.odd m) (r || s).
Proof.
  intros H. rewrite <- Z.div2_div.
  destruct m as [|p|p]; [reflexivity| |lia].
  destruct p; reflexivity.
Qed.

Lemma mod_pow2_succ (m k : Z) :
  0 <= k ->
  m mod 2 ^ (k + 1) = m mod 2 ^ k + 2 ^ k * ((m / 2 ^ k) mod 2).
Proof.
  intros H. rewrite Z.pow_add_r by lia. change (2 ^ 1) with 2.
  apply Z.rem_mul_r; [|lia].
  apply Z.pow_nonzero; lia.
Qed.

Lemma odd_mod2 (a : Z) : a mod 2 = if Z.odd a then 1 else 0.
Proof. rewrite Zmod_odd. reflexivity. Qed.

(** Shifting [k + 1] bits out of a mantissa: the quotient, the last bit that
    went and whether a bit before it was set. *)
Lemma shr_iter (m : Z) (k : nat) :
  0 <= m ->
  Nat.iter (S k) shr_1 (Build_shr_record m false false)
  = Build_shr_record (m / 2 ^ Z.of_nat (S k))
      (Z.odd (m / 2 ^ Z.of_nat k))
      (negb (m mod 2 ^ Z.of_nat k =? 0)).
Proof.
  intros Hm. induction k as [|k IH].
  - cbn [Nat.iter nat_rect]. rewrite shr_1_nonneg by exact Hm.
    change (2 ^ Z.of_nat 1) with 2. change (2 ^ Z.of_nat 0) with 1.
    rewrite Z.div_1_r, Z.mod_1_r. reflexivity.
  - change (Nat.iter (S (S k)) shr_1 ?x)
      with (shr_1 (Nat.iter (S k) shr_1 x)).
    rewrite IH.
    assert (P : 0 < 2 ^ Z.of_nat (S k)) by (apply Z.pow_pos_nonneg; lia).
    rewrite shr_1_nonneg by (apply Z.div_pos; lia).
    f_equal.
    + rewrite Z.div_div by lia.
      rewrite (Nat2Z.inj_succ (S k)), Z.pow_succ_r by lia. f_equal. lia.
    + rewrite (Nat2Z.inj_succ k).
      replace (Z.succ (Z.of_nat k)) with (Z.of_nat k + 1) by lia.
      rewrite mod_pow2_succ by lia. rewrite odd_mod2.
      assert (0 < 2 ^ Z.of_nat k) by (apply Z.pow_pos_nonneg; lia).
      pose proof (Z.mod_pos_bound m (2 ^ Z.of_nat k) ltac:(lia)).
      destruct (Z.odd (m / 2 ^ Z.of_nat k)); simpl.
      * symmetry. apply negb_true_iff, Z.eqb_neq. lia.
      * rewrite Z.mul_0_r, Z.add_0_r. reflexivity.
Qed.

Lemma shr_fexp_shift (m : positive) (e d : Z) :
  d = Zpos (digits2_pos m) - 53 -> 0 < d -> -1074 <= e + d ->
  shr_fexp 53 1024 (Zpos m) e loc_Exact
  = (Build_shr_record (Zpos m / 2 ^ d) (Z.odd (Zpos m / 2 ^ (d - 1)))
       (negb (Zpos m mod 2 ^ (d - 1) =? 0)),
     e + d).
Proof.
  intros Hd Pd He. unfold shr_fexp, fexp, emin. cbn [Zdigits2 shr_record_of_loc].
  replace (Z.max (Zpos (digits2_pos m) + e - 53) (3 - 1024 - 53) - e) with d
    by lia.
  destruct d as [|pd|pd]; [lia| |lia].
  cbn [shr]. rewrite iter_pos_nat.
  destruct (Pos2Nat.is_succ pd) as [k Hk]. rewrite Hk.
  rewrite shr_iter by lia.
  assert (Z.of_nat (S k) = Zpos pd) by (rewrite <- Hk; apply positive_nat_Z).
  replace (Z.of_nat k) with (Zpos pd - 1) by lia.
  rewrite H. reflexivity.
Qed.

Lemma shr_fexp_keep (m : positive) (e : Z) :
  Zpos (digits2_pos m) <= 53 ->
  -1074 <= e ->
  shr_fexp 53 1024 (Zpos m) e loc_Exact
  = (Build_shr_record (Zpos m) false false, e).
Proof.
  intros Hd He. unfold shr_fexp, fexp, emin. cbn [Zdigits2 shr_record_of_loc].
  destruct (Z.max (Zpos (digits2_pos m) + e - 53) (3 - 1024 - 53) - e)
    as [|p|p] eqn:S; [reflexivity|lia|reflexivity].
Qed.

Lemma rnd_bounds (m d : Z) : m / 2 ^ d <= rnd m d <= m / 2 ^ d + 1.
Proof. unfold rnd. destruct (round_up m d); lia. Qed.

(** Below half of the last place the rounding goes down. *)
Lemma rnd_down (m d : Z) :
  0 < d -> 2 * (m mod 2 ^ d) < 2 ^ d -> rnd m d = m / 2 ^ d.
Proof.
  intros Pd H. unfold rnd, round_up.
  replace d with ((d - 1) + 1) in H by lia.
  rewrite mod_pow2_succ in H by lia.
  rewrite Z.pow_add_r in H by lia. change (2 ^ 1) with 2 in H.
  rewrite odd_mod2 in H.
  assert (0 < 2 ^ (d - 1)) by (apply Z.pow_pos_nonneg; lia).
  pose proof (Z.mod_pos_bound m (2 ^ (d - 1)) ltac:(lia)).
  destruct (Z.odd (m / 2 ^ (d - 1))); [exfalso; hide_pow; lia|].
  simpl. lia.
Qed.

(** The rounding of the specification, on a mantissa of more than 53 bits
    in the range of the normal numbers: [rnd], written with 53 or, after a
    carry, 54 bits less. *)
Lemma binary_round_aux_spec (m : positive) (e d : Z) :
  d = Zpos (digits2_pos m) - 53 -> 0 < d -> -1074 <= e + d -> e + d < 971 ->
  exists m2 e2,
    binary_round_aux 53 1024 false (Zpos m) e loc_Exact
    = S754_finite false m2 e2
    /\ e + d <= e2 <= e + d + 1
    /\ Zpos m2 * 2 ^ (e2 - (e + d)) = rnd (Zpos m) d.
Proof.
  intros Hd Pd Lo Hi.
  destruct (digits2_pos_bounds m) as [Lm Um].
  assert (Pq : 0 < 2 ^ d) by (apply Z.pow_pos_nonneg; lia).
  assert (Hq : 2 ^ 52 <= Zpos m / 2 ^ d < 2 ^ 53).
  { replace (Zpos (digits2_pos m) - 1) with (52 + d) in Lm by lia.
    replace (Zpos (digits2_pos m)) with (53 + d) in Um by lia.
    rewrite Z.pow_add_r in Lm, Um by lia. split.
    - apply Z.div_le_lower_bound; lia.
    - apply Z.div_lt_upper_bound; lia. }
  unfold binary_round_aux. rewrite (shr_fexp_shift m e d Hd Pd Lo).
  cbn [shr_m].
  assert (R : round_nearest_even (Zpos m / 2 ^ d)
                (loc_of_shr_record
                   (Build_shr_record (Zpos m / 2 ^ d)
                      (Z.odd (Zpos m / 2 ^ (d - 1)))
                      (negb (Zpos m mod 2 ^ (d - 1) =? 0))))
              = rnd (Zpos m) d).
  { unfold rnd, round_up. rewrite <- (Z.negb_even (Zpos m / 2 ^ d)).
    destruct (Z.odd (Zpos m / 2 ^ (d - 1))),
      (negb (Zpos m mod 2 ^ (d - 1) =? 0)); cbn; try lia.
    destruct (Z.even (Zpos m / 2 ^ d)); cbn; lia. }
  rewrite R. clear R.
  pose proof (rnd_bounds (Zpos m) d) as B.
  set (m1 := rnd (Zpos m) d) in *.
  destruct m1 as [|p1|p1] eqn:E1; [lia| |lia].
  destruct (Z.eq_dec (Zpos p1) (2 ^ 53)) as [Top|NotTop].
  - (* the rounding carried into a 54th bit *)
    assert (D1 : Zpos (digits2_pos p1) = 54).
    { apply digits2_pos_unique. rewrite Top. split; [reflexivity|].
      apply Z.pow_lt_mono_r; lia. }
    rewrite (shr_fexp_shift p1 (e + d) 1) by lia.
    cbn [shr_m]. rewrite Top. change (2 ^ 53 / 2 ^ 1) with (Zpos 4503599627370496).
    cbv iota.
    replace (e + d + 1 <=? 1024 - 53) with true by (symmetry; apply Z.leb_le; lia).
    eexists. eexists. split; [reflexivity|]. split; [lia|].
    replace (e + d + 1 - (e + d)) with 1 by lia. reflexivity.
  - assert (D1 : Zpos (digits2_pos p1) = 53).
    { apply digits2_pos_unique. change (53 - 1) with 52. lia. }
    rewrite (shr_fexp_keep p1 (e + d)) by lia.
    cbn [shr_m]. cbv iota.
    replace (e + d <=? 1024 - 53) with true by (symmetry; apply Z.leb_le; lia).
    eexists. eexists. split; [reflexivity|]. split; [lia|].
    rewrite Z.sub_diag. simpl. lia.
Qed.

Lemma binary_round_aux_exact (m : positive) (e : Z) :
  Zpos (digits2_pos m) <= 53 -> -1074 <= e <= 971 ->
  binary_round_aux 53 1024 false (Zpos m) e loc_Exact = S754_finite false m e.
Proof.
  intros D He. unfold binary_round_aux.
  rewrite (shr_fexp_keep m e D) by lia.
  cbn [shr_m loc_of_shr_record round_nearest_even].
  rewrite (shr_fexp_keep m e D) by lia. cbn [shr_m]. cbv iota.
  replace (e <=? 1024 - 53) with true by (symmetry; apply Z.leb_le; lia).
  reflexivity.
Qed.

Lemma iter_xO (p dd : positive) :
  Zpos (Pos.iter xO p dd) = Zpos p * 2 ^ Zpos dd.
Proof.
  rewrite Pos2Nat.inj_iter, <- (positive_nat_Z dd).
  induction (Pos.to_nat dd) as [|k IH].
  - simpl. lia.
  - cbn [nat_rect]. rewrite Pos2Z.inj_xO, IH, Nat2Z.inj_succ, Z.pow_succ_r by lia.
    lia.
Qed.

(** [float(n)] is exact below [2^53]. *)
Lemma binary_normalize_small (n : positive) :
  Zpos n < 2 ^ 53 ->
  exists mz k,
    binary_normalize 53 1024 (Zpos n) 0 false = S754_finite false mz (- k)
    /\ 0 <= k <= 52 /\ Zpos mz = Zpos n * 2 ^ k.
Proof.
  intros Hn. destruct (digits2_pos_bounds n) as [Ln Un].
  assert (D : Zpos (digits2_pos n) <= 53).
  { destruct (Z.le_gt_cases (Zpos (digits2_pos n)) 53) as [L|G]; [exact L|].
    assert (2 ^ 53 <= 2 ^ (Zpos (digits2_pos n) - 1))
      by (apply Z.pow_le_mono_r; lia). lia. }
  unfold binary_normalize, binary_round, fexp, emin, shl_align.
  rewrite Z.add_0_r.
  replace (Z.max (Zpos (digits2_pos n) - 53) (3 - 1024 - 53))
    with (Zpos (digits2_pos n) - 53) by lia.
  rewrite Z.sub_0_r.
  destruct (Zpos (digits2_pos n) - 53) as [|dd|dd] eqn:S.
  - exists n, 0. rewrite binary_round_aux_exact by lia.
    simpl. repeat split; lia.
  - lia.
  - exists (Pos.iter xO n dd), (Zpos dd).
    assert (M : Zpos (Pos.iter xO n dd) = Zpos n * 2 ^ Zpos dd) by apply iter_xO.
    change (PosDef.Pos.iter xO n dd) with (Pos.iter xO n dd).
    rewrite binary_round_aux_exact.
    + repeat split; [lia|lia|exact M].
    + assert (Zpos (digits2_pos (Pos.iter xO n dd)) = 53); [|lia].
      apply digits2_pos_unique. rewrite M.
      assert (E1 : 2 ^ (53 - 1)
                   = 2 ^ (Zpos (digits2_pos n) - 1) * 2 ^ Zpos dd)
        by (rewrite <- Z.pow_add_r by lia; f_equal; lia).
      assert (E2 : 2 ^ 53 = 2 ^ Zpos (digits2_pos n) * 2 ^ Zpos dd)
        by (rewrite <- Z.pow_add_r by lia; f_equal; lia).
      rewrite E1, E2.
      assert (0 < 2 ^ Zpos dd) by (apply Z.pow_pos_nonneg; lia).
      split; [apply Z.mul_le_mono_nonneg_r; lia|apply Z.mul_lt_mono_pos_r; lia].
    + lia.
Qed.

Lemma ceil_of_between (m e c : Z) :
  e < 0 -> (c - 1) * 2 ^ (- e) < m <= c * 2 ^ (- e) -> Float.ceil_of m e = c.
Proof.
  intros He H. unfold Float.ceil_of.
  replace (0 <=? e) with false by (symmetry; apply Z.leb_gt; lia).
  assert (P : 0 < 2 ^ (- e)) by (apply Z.pow_pos_nonneg; lia).
  rewrite <- (Z.div_unique (- m) (2 ^ (- e)) (- c) (c * 2 ^ (- e) - m)).
  - lia.
  - left. hide_pow. lia.
  - hide_pow. lia.
Qed.

(** The arithmetic of [0.2 * n]: the mantissa of [0.2] is a fifth of
    [2^55 + 2]. *)
Lemma fifth_arith (N M d P Q m' : Z) :
  2 <= N < 2 ^ 53 ->
  5 * M = N * (2 ^ 55 + 2) ->
  1 <= d <= 53 -> P = 2 ^ d -> Q = 2 ^ (55 - d) ->
  2 ^ 52 * P <= M < 2 ^ 53 * P ->
  M / P <= m' <= M / P + 1 ->
  (2 * (M mod P) < P -> m' = M / P) ->
  ((N + 4) / 5 - 1) * Q < m' <= (N + 4) / 5 * Q.
Proof.
  intros HN HM Hd HP HQ HMP Hm' Hdown.
  assert (PQ : P * Q = 2 ^ 55).
  { subst P Q. rewrite <- Z.pow_add_r by lia. f_equal. lia. }
  assert (P0 : 0 < P) by (subst P; apply Z.pow_pos_nonneg; lia).
  assert (Q0 : 0 < Q) by (subst Q; apply Z.pow_pos_nonneg; lia).
  assert (P53 : P <= 2 ^ 52 \/ P = 2 ^ 53).
  { destruct (Z.eq_dec d 53) as [->|Nd]; [right; exact HP|left].
    subst P. apply Z.pow_le_mono_r; lia. }
  clear HP HQ Hd.
  change (2 ^ 55) with 36028797018963968 in *.
  change (2 ^ 53) with 9007199254740992 in *.
  change (2 ^ 52) with 4503599627370496 in *.
  pose proof (Z.div_mod N 5 ltac:(lia)) as DN.
  pose proof (Z.mod_pos_bound N 5 ltac:(lia)) as BN.
  set (k := N / 5) in *. set (r := N mod 5) in *. clearbody k r.
  destruct (Z.eq_dec r 0) as [R0|R0].
  - (* a multiple of five: the product is k + k * 2^-54, rounded down to k *)
    assert (C : (N + 4) / 5 = k).
    { symmetry. apply (Z.div_unique (N + 4) 5 k 4); lia. }
    rewrite C.
    assert (E : M = P * (k * Q) + 2 * k) by nia.
    assert (B : 0 <= 2 * k < P) by nia.
    assert (Dv : M / P = k * Q)
      by (symmetry; apply (Z.div_unique M P (k * Q) (2 * k)); [left; lia|lia]).
    assert (Md : M mod P = 2 * k)
      by (symmetry; apply (Z.mod_unique M P (k * Q) (2 * k)); [left; lia|lia]).
    rewrite Md, Dv in *. rewrite Hdown by nia. nia.
  - assert (C : (N + 4) / 5 = k + 1).
    { symmetry. apply (Z.div_unique (N + 4) 5 (k + 1) (r - 1)); lia. }
    rewrite C. replace (k + 1 - 1) with k by lia.
    assert (Lq : k * Q + 1 <= M / P).
    { apply Z.div_le_lower_bound; [lia|].
      destruct P53 as [Ps|Pb]; nia. }
    assert (Uq : M / P < (k + 1) * Q).
    { apply Z.div_lt_upper_bound; [lia|]. nia. }
    lia.
Qed.

(** [ceil(0.2 * n)] in floating-point arithmetic is [ceil(n / 5)] for every
    [n] from 2 on that a float holds exactly. *)
Lemma ceil_fifth (n : Z) :
  2 <= n < 2 ^ 53 ->
  exists fn m e,
    Float.of_int n = Ok fn
    /\ Float.mul Float.f0_2 fn = S754_finite false m e
    /\ Float.ceil_of (Zpos m) e = (n + 4) / 5.
Proof.
  intros Hn. destruct n as [|n|n]; [lia| |lia].
  destruct (binary_normalize_small n (proj2 Hn)) as (mz & k & Nm & Hk & Hmz).
  exists (S754_finite false mz (- k)).
  unfold Float.of_int, Float.mul, Float.f0_2. rewrite Nm.
  cbn [SFmul xorb].
  set (MK := (7205759403792794 * mz)%positive).
  assert (EM : Zpos MK = 7205759403792794 * Zpos n * 2 ^ k)
    by (unfold MK; rewrite Pos2Z.inj_mul, Hmz; ring).
  set (M := 7205759403792794 * Zpos n) in *.
  assert (K0 : 0 < 2 ^ k) by (apply Z.pow_pos_nonneg; lia).
  destruct (digits2_pos_bounds MK) as [LM UM]. rewrite EM in LM, UM.
  set (D := Zpos (digits2_pos MK)) in *.
  change (2 ^ 53) with 9007199254740992 in Hn.
  assert (M53 : 2 ^ 53 < M < 2 ^ 106)
    by (change (2 ^ 53) with 9007199254740992;
        change (2 ^ 106) with 81129638414606681695789005144064; lia).
  (* the number of bits that go *)
  assert (Dlo : 53 + k < D).
  { destruct (Z.le_gt_cases D (53 + k)) as [L|G]; [|exact G].
    assert (2 ^ D <= 2 ^ (53 + k)) by (apply Z.pow_le_mono_r; lia).
    rewrite Z.pow_add_r in H by lia. nia. }
  assert (Dhi : D <= 106 + k).
  { destruct (Z.le_gt_cases D (106 + k)) as [L|G]; [exact L|].
    assert (2 ^ (106 + k) <= 2 ^ (D - 1)) by (apply Z.pow_le_mono_r; lia).
    rewrite Z.pow_add_r in H by lia. nia. }
  destruct (binary_round_aux_spec MK (-55 + - k) (D - 53))
    as (m2 & e2 & -> & He2 & Hm2); [reflexivity|lia|lia|lia|].
  exists m2, e2. split; [reflexivity|]. split; [reflexivity|].
  set (d := D - 53 - k) in *.
  assert (Pd : 2 ^ (D - 53) = 2 ^ d * 2 ^ k)
    by (rewrite <- Z.pow_add_r by lia; f_equal; lia).
  assert (P0 : 0 < 2 ^ d) by (apply Z.pow_pos_nonneg; lia).
  assert (Q0 : 0 < 2 ^ (55 - d)) by (apply Z.pow_pos_nonneg; lia).
  (* the rounded mantissa, in terms of [M] and [d] *)
  assert (Dv : Zpos MK / 2 ^ (D - 53) = M / 2 ^ d).
  { rewrite EM, Pd. apply Z.div_mul_cancel_r; lia. }
  assert (Md : Zpos MK mod 2 ^ (D - 53) = (M mod 2 ^ d) * 2 ^ k).
  { rewrite EM, Pd. apply Z.mul_mod_distr_r; lia. }
  assert (B : M / 2 ^ d <= rnd (Zpos MK) (D - 53) <= M / 2 ^ d + 1).
  { rewrite <- Dv. apply rnd_bounds. }
  assert (Dn : 2 * (M mod 2 ^ d) < 2 ^ d ->
               rnd (Zpos MK) (D - 53) = M / 2 ^ d).
  { intros H. rewrite <- Dv. apply rnd_down; [lia|]. rewrite Md, Pd. nia. }
  assert (R : 2 ^ 52 * 2 ^ d <= M < 2 ^ 53 * 2 ^ d).
  { replace (D - 1) with (52 + d + k) in LM by lia.
    replace D with (53 + d + k) in UM by lia.
    rewrite !Z.pow_add_r in LM, UM by lia. nia. }
  pose proof (fifth_arith (Zpos n) M d (2 ^ d) (2 ^ (55 - d))
                (rnd (Zpos MK) (D - 53))) as A.
  specialize (A ltac:(change (2 ^ 53) with 9007199254740992; lia)).
  specialize (A ltac:(unfold M; change (2 ^ 55) with 36028797018963968; lia)).
  specialize (A ltac:(lia) eq_refl eq_refl R B Dn).
  rewrite <- Hm2 in A.
  apply ceil_of_between; [lia|].
  replace (-55 + - k + (D - 53)) with (d - 55) in * by lia.
  destruct (Z.eq_dec e2 (d - 55)) as [->|Ne].
  - rewrite Z.sub_diag, Z.pow_0_r, Z.mul_1_r in A.
    replace (- (d - 55)) with (55 - d) by lia. exact A.
  - assert (e2 = d - 54) by lia. subst e2.
    replace (d - 54 - (d - 55)) with 1 in A by lia. change (2 ^ 1) with 2 in A.
    replace (55 - d) with (Z.succ (- (d - 54))) in A by lia.
    rewrite Z.pow_succ_r in A by lia. nia.
Qed.

(** The sizes of the two parts for [test_size=0.2]. *)
Lemma split_sizes_fifth (E : Env) (n : Z) :
  2 <= n < 2 ^ 53 ->
  split_sizes E (NFloat Float.f0_2) n = Ok (n - (n + 4) / 5, (n + 4) / 5).
Proof.
  intros Hn. destruct (ceil_fifth n Hn) as (fn & m & e & F & Mu & C).
  unfold split_sizes.
  change (Float.le_int Float.f0_2 0 || Float.ge_int Float.f0_2 1) with false.
  cbv iota. rewrite F. cbn [rbind]. rewrite Mu. cbn [Float.ceil Float.signed].
  rewrite C.
  cbn [rmap rbind int_sub num_add num_gt_int num_to_int].
  pose proof (Z.div_mod (n + 4) 5 ltac:(lia)).
  pose proof (Z.mod_pos_bound (n + 4) 5 ltac:(lia)).
  replace (n <? n - (n + 4) / 5 + (n + 4) / 5) with false
    by (symmetry; apply Z.ltb_ge; lia).
  replace (n - (n + 4) / 5 =? 0) with false
    by (symmetry; apply Z.eqb_neq; lia).
  reflexivity.
Qed.
End FloatFacts.

(** X28.  Asked for two records or more (and fewer than [2^53], so that a
    float holds the number exactly), and with the library's shuffle a
    permutation of the positions, [create_synthetic_dataset] returns a
    [train] and a [test] split; the [test] split has a fifth of the
    records, rounded up, the [train] split the others, and the ids
    [0 .. num_examples - 1] are spread over the two splits, each one
    exactly once. *)
Theorem synthetic_split_partition (E : Env) (num_examples : Z) (w : World E) :
  (2 <= num_examples < 2 ^ 53)%Z ->
  Permutation (permutation E 42 (Z.to_nat num_examples))
    (seq 0 (Z.to_nat num_examples)) ->
  exists train test w',
    create_synthetic_dataset E num_examples w
    = (Ok [("train", train); ("test", test)], w')
    /\ length test = Z.to_nat ((num_examples + 4) / 5)
    /\ length train = Z.to_nat num_examples - length test
    /\ Permutation (map (row_get "id" VNone) (train ++ test))
         (map id_of (seq 0 (Z.to_nat num_examples))).
Proof.
  intros Hn HP.
  destruct (synthetic_examples_run E (Z.to_nat num_examples) 0 (rng w))
    as (rows & g' & R & I & _).
  assert (L : length rows = Z.to_nat num_examples).
  { rewrite <- (length_map (row_get "id" VNone)), I, length_map.
    apply length_seq. }
  pose proof (Z.div_mod (num_examples + 4) 5 ltac:(lia)) as Dv.
  pose proof (Z.mod_pos_bound (num_examples + 4) 5 ltac:(lia)) as Bv.
  set (t := ((num_examples + 4) / 5)%Z) in *.
  assert (S : split_sizes E (NFloat Float.f0_2) (Z.of_nat (length rows))
              = Ok (Z.of_nat (Z.to_nat num_examples - Z.to_nat t),
                    Z.of_nat (Z.to_nat t))).
  { rewrite L, Z2Nat.id by lia. rewrite (split_sizes_fifth E _ Hn).
    fold t. rewrite Nat2Z.inj_sub, !Z2Nat.id by lia. reflexivity. }
  destruct (train_test_split_run E rows (NFloat Float.f0_2) 42 _ _ S)
    as (tr & te & T & Lte & Ltr & P).
  - lia.
  - lia.
  - now rewrite L.
  - exists tr, te, (mkWorld E (fs w) g' (stdout w)).
    split; [|split; [|split]].
    + unfold create_synthetic_dataset, bind. rewrite (R w eq_refl).
      unfold lift. rewrite T. reflexivity.
    + exact Lte.
    + now rewrite Ltr, Lte.
    + rewrite <- I. now apply Permutation_map.
Qed.

Lemma synthetic_split_partition_witness :
  exists train test w',
    create_synthetic_dataset Demo.env 12 Demo.world
    = (Ok [("train", train); ("test", test)], w')
    /\ length test = 3 /\ length train = 9.
Proof.
  destruct (synthetic_split_partition Demo.env 12 Demo.world)
    as (tr & te & w' & R & Lte & Ltr & _).
  - split; [lia|reflexivity].
  - apply Permutation_refl.
  - exists tr, te, w'. split; [exact R|]. rewrite Ltr, Lte. split; reflexivity.
Defined.

(** ** The split of the library, on examples *)

(** A share of 0.28 of 25 rows: the product is 7.000000000000001 in
    floating-point arithmetic, and eight rows go to the test part. *)
Example split_sizes_share :
  split_sizes Demo.env (NFloat (S754_finite false 5044031582654956 (-54))) 25
  = Ok (17, 8)%Z.
Proof. vm_compute. reflexivity. Qed.

(** An integer is a number of rows. *)
Example split_sizes_rows : split_sizes Demo.env (NInt 1) 5 = Ok (4, 1)%Z.
Proof. vm_compute. reflexivity. Qed.

Example split_sizes_rows_too_many :
  split_sizes Demo.env (NInt 5) 5
  = Raise (Exn ValueError
      ("test_size=5 should be either positive and smaller than the number "
       ++ "of samples 5 or a float in the (0, 1) range")).
Proof. vm_compute. reflexivity. Qed.

Example split_sizes_share_too_large :
  split_sizes Demo.env (NFloat (S754_finite false 6755399441055744 (-52))) 10
  = Raise (Exn ValueError
      ("test_size=1.5 should be either positive and smaller than the number "
       ++ "of samples 10 or a float in the (0, 1) range")).
Proof. vm_compute. reflexivity. Qed.

Example split_sizes_no_train :
  split_sizes Demo.env (NFloat Float.f0_2) 1
  = Raise (Exn ValueError
      ("With n_samples=1, test_size=0.2 and train_size=None, the resulting "
       ++ "train set will be empty. Adjust any of the aforementioned "
       ++ "parameters.")).
Proof. vm_compute. reflexivity. Qed.

(** An empty data set is split into two empty parts. *)
Example train_test_split_empty :
  train_test_split Demo.env ([] : Dataset) (NFloat Float.f0_2) 42
  = Ok ([], []).
Proof. reflexivity. Qed.

Example create_synthetic_dataset_empty :
  fst (create_synthetic_dataset Demo.env 0 Demo.world)
  = Ok [("train", []); ("test", [])].
Proof. reflexivity. Qed.

Example split_ratio_too_short :
  split_ratio_1 (mkCfg "csv" "owner/comments" "data" [NFloat Float.f0_8] 42
                   None "text")
  = Raise (Exn OtherException "list index out of range").
Proof. reflexivity. Qed.

(** Beyond [2^53] a float no longer holds every number of rows, and the
    test part of a fifth can be a row larger than [ceil(n / 5)]. *)
Example split_sizes_fifth_beyond :
  split_sizes Demo.env (NFloat Float.f0_2) (2 ^ 53 + 3)
  = Ok (2 ^ 53 + 3 - ((2 ^ 53 + 3 + 4) / 5 + 1), (2 ^ 53 + 3 + 4) / 5 + 1)%Z.
Proof. vm_compute. reflexivity. Qed.
